(** * MammonVaultV2: a shallow embedding of the rebalancing and accounting core

    The development follows [contracts/v2/MammonVaultV2.sol] (with the
    [OracleStorage] and [YieldTokenStorage] bases).  Solidity 0.8 checked
    [uint256] arithmetic is written out over [Z]; a revert is a value of the
    error type and every state-changing function threads the world state
    through an error monad.  Arrays are lists read and written by index, with
    the out-of-range panic made explicit. *)

From Stdlib Require Import ZArith Lia List Bool String.
From stdpp Require Import base option list gmap.

Local Open Scope Z_scope.

(** ** Reverts *)

Abbreviation address := N.

(** Solidity panic codes raised by compiler-inserted checks. *)
Inductive PanicCode : Type :=
  | ArithmeticOverflow   (* Panic(0x11): checked +, -, * left the uint256 range *)
  | DivisionByZero       (* Panic(0x12) *)
  | IndexOutOfBounds.    (* Panic(0x32) *)

(** The custom errors of the contract that the modelled functions can raise,
    with their payloads, plus panics and reverts of external components. *)
Inductive Error : Type :=
  | Panic (code : PanicCode)
  | ExternalRevert (reason : string)
  | Mammon__ValueLengthIsNotSame (numTokens numValues : Z)
  | Mammon__DifferentTokensInPosition (actual sortedToken : address) (index : nat)
  | Mammon__GuardianIsZeroAddress
  | Mammon__GuardianIsOwner (newGuardian : address)
  | Mammon__CallerIsNotGuardian
  | Mammon__SumOfWeightIsNotOne
  | Mammon__WeightChangeEndBeforeStart
  | Mammon__WeightChangeStartTimeIsAboveMax (actual max : Z)
  | Mammon__WeightChangeEndTimeIsAboveMax (actual max : Z)
  | Mammon__WeightChangeDurationIsBelowMin (actual min : Z)
  | Mammon__WeightChangeRatioIsAboveMax (token : address) (actual max : Z)
  | Mammon__AmountExceedAvailable (token : address) (amount available : Z)
  | Mammon__OraclePriceIsInvalid (index : nat) (actual : Z)
  | Mammon__OracleSpotPriceDivergenceExceedsMax (index : nat) (actual max : Z)
  | Mammon__OracleIsDelayedBeyondMax (index : nat) (actual max : Z)
  | Mammon__OraclesAreDisabled
  | Mammon__NoAvailableFeeForCaller (caller : address)
  | Mammon__BalanceChangedInCurrentBlock
  | Mammon__VaultNotInitialized
  | Mammon__VaultIsFinalized.

Inductive result (A : Type) : Type :=
  | Ok (a : A)
  | Err (e : Error).
Arguments Ok {A} a.
Arguments Err {A} e.

#[global] Instance result_ret : MRet result := fun A a => Ok a.
#[global] Instance result_bind : MBind result :=
  fun A B f r => match r with Ok a => f a | Err e => Err e end.

Definition is_ok {A} (r : result A) : bool :=
  match r with Ok _ => true | Err _ => false end.

(** A guard: [require b e] reverts with [e] unless [b] holds. *)
Definition require (b : bool) (e : Error) : result unit :=
  if b then Ok tt else Err e.

(** ** Checked uint256 arithmetic *)

Definition MAX_UINT256 : Z := 2 ^ 256 - 1.
Definition MAX_UINT32 : Z := 2 ^ 32 - 1.

Definition add (a b : Z) : result Z :=
  if a + b <=? MAX_UINT256 then Ok (a + b) else Err (Panic ArithmeticOverflow).
Definition sub (a b : Z) : result Z :=
  if b <=? a then Ok (a - b) else Err (Panic ArithmeticOverflow).
Definition mul (a b : Z) : result Z :=
  if a * b <=? MAX_UINT256 then Ok (a * b) else Err (Panic ArithmeticOverflow).
Definition div (a b : Z) : result Z :=
  if b =? 0 then Err (Panic DivisionByZero) else Ok (a / b).

(** [(a * b) / c], the shape of every fixed-point step in the contract. *)
Definition mulDiv (a b c : Z) : result Z := p ← mul a b; div p c.

(** ** Memory arrays and loops *)

Definition get {A} (l : list A) (i : nat) : result A :=
  match l !! i with Some v => Ok v | None => Err (Panic IndexOutOfBounds) end.

Definition set {A} (l : list A) (i : nat) (v : A) : result (list A) :=
  if decide (i < length l)%nat then Ok (<[i := v]> l)
  else Err (Panic IndexOutOfBounds).

(** [new uint256[](n)] *)
Definition new_array (n : nat) : list Z := replicate n 0.

(** [for (uint256 i = start; i < start + count; i++) body]: the loop
    state is threaded through [body]; a revert leaves the loop. *)
Fixpoint for_from {St : Type} (start count : nat)
    (body : nat → St → result St) (s : St) : result St :=
  match count with
  | O => Ok s
  | S count' => s' ← body start s; for_from (S start) count' body s'
  end.

Definition for_loop {St : Type} (n : nat) (body : nat → St → result St)
    (s : St) : result St := for_from 0 n body s.

(** The common loop [for (i = 0; i < n; i++) arr[i] = f(i)] over a fresh
    array [arr] of [n] entries. *)
Definition tabulate {A : Type} (n : nat) (dflt : A) (f : nat → result A)
  : result (list A) :=
  for_loop n (λ i arr, v ← f i; set arr i v) (replicate n dflt).

Definition sumZ (l : list Z) : Z := foldr Z.add 0 l.

(** ** Constants of the contract *)

Definition ONE : Z := 10 ^ 18.
Definition MIN_WEIGHT : Z := 10 ^ 16.
Definition MINIMUM_WEIGHT_CHANGE_DURATION : Z := 4 * 3600.
Definition MAX_WEIGHT_CHANGE_RATIO : Z := 10 ^ 15.
Definition MAX_MANAGEMENT_FEE : Z := 10 ^ 9.

(** ** Pure helpers of the contract *)

(** [normalizeWeights(weights, weightSum)] *)
Definition normalizeWeights (weights : list Z) (weightSum : Z)
  : result (list Z) :=
  let numWeights := length weights in
  '(newWeights, adjustedSum) ←
    for_loop numWeights (λ i '(newWeights, adjustedSum),
      w ← get weights i;
      q ← mulDiv w ONE weightSum;
      newWeights ← set newWeights i q;
      adjustedSum ← add adjustedSum q;
      Ok (newWeights, adjustedSum)) (new_array numWeights, 0);
  nw0 ← get newWeights 0;
  t ← add nw0 ONE;
  t ← sub t adjustedSum;
  set newWeights 0 t.


(** ** Data model *)

Record TokenValue : Type := mkTokenValue { tv_token : address; tv_value : Z }.

Inductive PriceType : Type := DETERMINED | ORACLE | SPOT.

(** [IMammonVaultV2.YieldToken] *)
Record YieldToken : Type := mkYieldToken {
  yt_token : address;
  yt_underlyingIndex : nat;
  yt_isWithdrawable : bool
}.

(** The immutables written by the constructors of [MammonVaultV2],
    [OracleStorage] and [YieldTokenStorage].  There is one oracle slot per
    pool token ([OracleStorage] reverts otherwise), so the number of pool
    tokens is the number of oracle units. *)
Record Config : Type := mkConfig {
  this : address;                 (* address(this) *)
  bVault : address;
  oracleUnits : list Z;
  yieldTokenInfos : list YieldToken;
  numeraireAssetIndex : nat;
  createdAt : Z;
  minFeeDuration : Z;
  minReliableVaultValue : Z;
  minSignificantDepositValue : Z;
  minYieldActionThreshold : Z;
  maxOracleSpotDivergence : Z;
  maxOracleDelay : Z;
  managementFee : Z
}.

Definition numOracles (c : Config) : nat := length (oracleUnits c).
Definition numPoolTokens (c : Config) : nat := numOracles c.
Definition numYieldTokens (c : Config) : nat := length (yieldTokenInfos c).
Definition numTokens (c : Config) : nat :=
  (numPoolTokens c + numYieldTokens c)%nat.

Definition getYieldTokens (c : Config) : list address :=
  map yt_token (yieldTokenInfos c).
Definition getWithdrawables (c : Config) : list bool :=
  map yt_isWithdrawable (yieldTokenInfos c).
Definition getUnderlyingIndexes (c : Config) : list nat :=
  map yt_underlyingIndex (yieldTokenInfos c).

(** The call context: [msg.sender], [block.timestamp], [block.number]. *)
Record Ctx : Type := mkCtx {
  msg_sender : address;
  block_timestamp : Z;
  block_number : Z
}.

(** Modelled from the spec: the ERC-4626 wrapper of section 6 (its code,
    OpenZeppelin's ERC4626, is not part of the sources).  The switches are
    those of the repository's [ERC4626Mock]; the share price is a fixed
    18-decimal rate of assets per share. *)
Record Wrapper : Type := mkWrapper {
  w_asset : address;
  w_paused : bool;
  w_useMaxDepositAmount : bool;
  w_maxDepositAmount : Z;
  w_useMaxWithdrawalAmount : bool;
  w_maxWithdrawalAmount : Z;
  w_rate : Z
}.

Inductive Event : Type :=
  | EvDeposit (requestedAmounts amounts weights : list Z)
  | EvWithdraw (requestedAmounts amounts weights : list Z)
  | EvDistributeGuardianFees (guardian : address) (amounts : list Z)
  | EvGuardianChanged (previousGuardian guardian : address)
  | EvUpdateWeightsGradually (startTime endTime : Z) (weights : list Z)
  | EvUpdateWeightsWithOraclePrice (prices weights : list Z)
  | EvSetSwapEnabled (swapEnabled : bool)
  | EvFinalized (caller : address) (amounts : list Z).

(** The world a call runs in: the vault's own storage followed by the state
    of the components it calls (token ledgers, Balancer vault, managed pool,
    yield wrappers, price feeds) and the event log. *)
Record State : Type := mkState {
  (* storage of MammonVaultV2 *)
  initialized : bool;
  finalized : bool;
  oraclesEnabled : bool;
  owner : address;
  guardian : address;
  lastFeeCheckpoint : Z;
  guardiansFee : gmap address (list Z);
  guardiansFeeTotal : list Z;
  reentrancyEntered : bool;
  (* ERC-20 ledgers, keyed by (token, holder) *)
  erc20 : gmap (address * address) Z;
  (* Balancer vault: registered tokens (the pool's own token first) with
     their (cash, managed) balances *)
  bv_tokens : list address;
  bv_balances : list (Z * Z);
  bv_lastChangeBlock : Z;
  (* managed pool: gradual weight schedule, swap fee, swap flag *)
  pool_startTime : Z;
  pool_endTime : Z;
  pool_startWeights : list Z;
  pool_endWeights : list Z;
  pool_swapFee : Z;
  pool_swapEnabled : bool;
  (* yield wrappers by address *)
  wrappers : gmap address Wrapper;
  (* price feeds by oracle slot: (answer, updatedAt) of latestRoundData() *)
  oracleFeeds : list (Z * Z);
  (* emitted events, latest first *)
  events : list Event
}.

(** Field updates. *)
Definition set_finalized (v : bool) (s : State) : State :=
  mkState (initialized s) v (oraclesEnabled s) (owner s) (guardian s)
    (lastFeeCheckpoint s) (guardiansFee s) (guardiansFeeTotal s)
    (reentrancyEntered s) (erc20 s) (bv_tokens s) (bv_balances s)
    (bv_lastChangeBlock s) (pool_startTime s) (pool_endTime s)
    (pool_startWeights s) (pool_endWeights s) (pool_swapFee s)
    (pool_swapEnabled s) (wrappers s) (oracleFeeds s) (events s).
Definition set_oraclesEnabled (v : bool) (s : State) : State :=
  mkState (initialized s) (finalized s) v (owner s) (guardian s)
    (lastFeeCheckpoint s) (guardiansFee s) (guardiansFeeTotal s)
    (reentrancyEntered s) (erc20 s) (bv_tokens s) (bv_balances s)
    (bv_lastChangeBlock s) (pool_startTime s) (pool_endTime s)
    (pool_startWeights s) (pool_endWeights s) (pool_swapFee s)
    (pool_swapEnabled s) (wrappers s) (oracleFeeds s) (events s).
Definition set_guardian (v : address) (s : State) : State :=
  mkState (initialized s) (finalized s) (oraclesEnabled s) (owner s) v
    (lastFeeCheckpoint s) (guardiansFee s) (guardiansFeeTotal s)
    (reentrancyEntered s) (erc20 s) (bv_tokens s) (bv_balances s)
    (bv_lastChangeBlock s) (pool_startTime s) (pool_endTime s)
    (pool_startWeights s) (pool_endWeights s) (pool_swapFee s)
    (pool_swapEnabled s) (wrappers s) (oracleFeeds s) (events s).
Definition set_lastFeeCheckpoint (v : Z) (s : State) : State :=
  mkState (initialized s) (finalized s) (oraclesEnabled s) (owner s)
    (guardian s) v (guardiansFee s) (guardiansFeeTotal s)
    (reentrancyEntered s) (erc20 s) (bv_tokens s) (bv_balances s)
    (bv_lastChangeBlock s) (pool_startTime s) (pool_endTime s)
    (pool_startWeights s) (pool_endWeights s) (pool_swapFee s)
    (pool_swapEnabled s) (wrappers s) (oracleFeeds s) (events s).
Definition set_guardiansFee (v : gmap address (list Z)) (s : State) : State :=
  mkState (initialized s) (finalized s) (oraclesEnabled s) (owner s)
    (guardian s) (lastFeeCheckpoint s) v (guardiansFeeTotal s)
    (reentrancyEntered s) (erc20 s) (bv_tokens s) (bv_balances s)
    (bv_lastChangeBlock s) (pool_startTime s) (pool_endTime s)
    (pool_startWeights s) (pool_endWeights s) (pool_swapFee s)
    (pool_swapEnabled s) (wrappers s) (oracleFeeds s) (events s).
Definition set_guardiansFeeTotal (v : list Z) (s : State) : State :=
  mkState (initialized s) (finalized s) (oraclesEnabled s) (owner s)
    (guardian s) (lastFeeCheckpoint s) (guardiansFee s) v
    (reentrancyEntered s) (erc20 s) (bv_tokens s) (bv_balances s)
    (bv_lastChangeBlock s) (pool_startTime s) (pool_endTime s)
    (pool_startWeights s) (pool_endWeights s) (pool_swapFee s)
    (pool_swapEnabled s) (wrappers s) (oracleFeeds s) (events s).
Definition set_erc20 (v : gmap (address * address) Z) (s : State) : State :=
  mkState (initialized s) (finalized s) (oraclesEnabled s) (owner s)
    (guardian s) (lastFeeCheckpoint s) (guardiansFee s)
    (guardiansFeeTotal s) (reentrancyEntered s) v (bv_tokens s)
    (bv_balances s) (bv_lastChangeBlock s) (pool_startTime s)
    (pool_endTime s) (pool_startWeights s) (pool_endWeights s)
    (pool_swapFee s) (pool_swapEnabled s) (wrappers s) (oracleFeeds s)
    (events s).
Definition set_bv_balances (v : list (Z * Z)) (s : State) : State :=
  mkState (initialized s) (finalized s) (oraclesEnabled s) (owner s)
    (guardian s) (lastFeeCheckpoint s) (guardiansFee s)
    (guardiansFeeTotal s) (reentrancyEntered s) (erc20 s) (bv_tokens s) v
    (bv_lastChangeBlock s) (pool_startTime s) (pool_endTime s)
    (pool_startWeights s) (pool_endWeights s) (pool_swapFee s)
    (pool_swapEnabled s) (wrappers s) (oracleFeeds s) (events s).
Definition set_pool_schedule (startTime endTime : Z)
    (startWeights endWeights : list Z) (s : State) : State :=
  mkState (initialized s) (finalized s) (oraclesEnabled s) (owner s)
    (guardian s) (lastFeeCheckpoint s) (guardiansFee s)
    (guardiansFeeTotal s) (reentrancyEntered s) (erc20 s) (bv_tokens s)
    (bv_balances s) (bv_lastChangeBlock s) startTime endTime startWeights
    endWeights (pool_swapFee s) (pool_swapEnabled s) (wrappers s)
    (oracleFeeds s) (events s).
Definition set_pool_swapEnabled (v : bool) (s : State) : State :=
  mkState (initialized s) (finalized s) (oraclesEnabled s) (owner s)
    (guardian s) (lastFeeCheckpoint s) (guardiansFee s)
    (guardiansFeeTotal s) (reentrancyEntered s) (erc20 s) (bv_tokens s)
    (bv_balances s) (bv_lastChangeBlock s) (pool_startTime s)
    (pool_endTime s) (pool_startWeights s) (pool_endWeights s)
    (pool_swapFee s) v (wrappers s) (oracleFeeds s) (events s).
Definition set_wrappers (v : gmap address Wrapper) (s : State) : State :=
  mkState (initialized s) (finalized s) (oraclesEnabled s) (owner s)
    (guardian s) (lastFeeCheckpoint s) (guardiansFee s)
    (guardiansFeeTotal s) (reentrancyEntered s) (erc20 s) (bv_tokens s)
    (bv_balances s) (bv_lastChangeBlock s) (pool_startTime s)
    (pool_endTime s) (pool_startWeights s) (pool_endWeights s)
    (pool_swapFee s) (pool_swapEnabled s) v (oracleFeeds s) (events s).
Definition set_oracleFeeds (v : list (Z * Z)) (s : State) : State :=
  mkState (initialized s) (finalized s) (oraclesEnabled s) (owner s)
    (guardian s) (lastFeeCheckpoint s) (guardiansFee s)
    (guardiansFeeTotal s) (reentrancyEntered s) (erc20 s) (bv_tokens s)
    (bv_balances s) (bv_lastChangeBlock s) (pool_startTime s)
    (pool_endTime s) (pool_startWeights s) (pool_endWeights s)
    (pool_swapFee s) (pool_swapEnabled s) (wrappers s) v (events s).
Definition set_events (v : list Event) (s : State) : State :=
  mkState (initialized s) (finalized s) (oraclesEnabled s) (owner s)
    (guardian s) (lastFeeCheckpoint s) (guardiansFee s)
    (guardiansFeeTotal s) (reentrancyEntered s) (erc20 s) (bv_tokens s)
    (bv_balances s) (bv_lastChangeBlock s) (pool_startTime s)
    (pool_endTime s) (pool_startWeights s) (pool_endWeights s)
    (pool_swapFee s) (pool_swapEnabled s) (wrappers s) (oracleFeeds s) v.

Definition emit (e : Event) (s : State) : State := set_events (e :: events s) s.

(** ** External components *)

(** Modelled from the spec: ERC-20 token mechanics (section 1 treats them as
    external).  A transfer moves exactly [amount]; approvals are not tracked
    (the vault sets each allowance to the amount pulled right before the
    pull, [setAllowance]/[clearAllowance]). *)
Definition balanceOf (s : State) (token holder : address) : Z :=
  default 0 (erc20 s !! (token, holder)).

Definition erc20_credit (token holder : address) (amount : Z) (s : State)
  : State :=
  set_erc20 (<[(token, holder) := balanceOf s token holder + amount]> (erc20 s)) s.

Definition erc20_debit (token holder : address) (amount : Z) (s : State)
  : result State :=
  _ ← require (amount <=? balanceOf s token holder)
        (ExternalRevert "ERC20: amount exceeds balance");
  Ok (set_erc20
        (<[(token, holder) := balanceOf s token holder - amount]> (erc20 s)) s).

Definition erc20_transfer (token from to : address) (amount : Z) (s : State)
  : result State :=
  s1 ← erc20_debit token from amount s;
  Ok (erc20_credit token to amount s1).

(** Modelled from the spec: the custody adapter of section 6.  WITHDRAW
    moves cash to managed and hands the tokens to the asset manager, DEPOSIT
    moves managed to cash and pulls the tokens back, UPDATE sets the managed
    balance. *)
Inductive PoolBalanceOpKind : Type := WITHDRAW | DEPOSIT | UPDATE.

Record PoolBalanceOp : Type := mkPoolBalanceOp {
  op_kind : PoolBalanceOpKind;
  op_token : address;
  op_amount : Z
}.

Fixpoint index_of (a : address) (l : list address) : option nat :=
  match l with
  | [] => None
  | b :: r => if decide (a = b) then Some O else S <$> index_of a r
  end.

Definition bVault_getPoolTokens (s : State) : list address * list Z * Z :=
  (bv_tokens s, map (λ b, fst b + snd b) (bv_balances s), bv_lastChangeBlock s).

Definition bVault_applyOp (c : Config) (op : PoolBalanceOp) (s : State)
  : result State :=
  match index_of (op_token op) (bv_tokens s) with
  | None => Err (ExternalRevert "TOKEN_NOT_REGISTERED")
  | Some k =>
    '(cash, managed) ← get (bv_balances s) k;
    match op_kind op with
    | WITHDRAW =>
        cash' ← sub cash (op_amount op);
        managed' ← add managed (op_amount op);
        erc20_transfer (op_token op) (bVault c) (this c) (op_amount op)
          (set_bv_balances (<[k := (cash', managed')]> (bv_balances s)) s)
    | DEPOSIT =>
        managed' ← sub managed (op_amount op);
        cash' ← add cash (op_amount op);
        erc20_transfer (op_token op) (this c) (bVault c) (op_amount op)
          (set_bv_balances (<[k := (cash', managed')]> (bv_balances s)) s)
    | UPDATE =>
        Ok (set_bv_balances (<[k := (cash, op_amount op)]> (bv_balances s)) s)
    end
  end.

Fixpoint bVault_managePoolBalance (c : Config) (ops : list PoolBalanceOp)
    (s : State) : result State :=
  match ops with
  | [] => Ok s
  | op :: rest => s' ← bVault_applyOp c op s; bVault_managePoolBalance c rest s'
  end.

(** Modelled from the spec: the pool adapter of section 6.  Weights follow a
    linear schedule between [pool_startTime] and [pool_endTime]; an update
    with equal start and end applies at once.  The pool refuses weights that
    do not match its tokens, fall below its minimum or do not sum to ONE
    (the checks [IGuardianAPI] says Balancer performs). *)
Definition interpolate (startTime endTime now startWeight endWeight : Z) : Z :=
  if startWeight <=? endWeight
  then startWeight
       + (endWeight - startWeight) * (now - startTime) / (endTime - startTime)
  else startWeight
       - (startWeight - endWeight) * (now - startTime) / (endTime - startTime).

Definition pool_getNormalizedWeights (x : Ctx) (s : State) : list Z :=
  if pool_endTime s <=? block_timestamp x then pool_endWeights s
  else if block_timestamp x <=? pool_startTime s then pool_startWeights s
  else zip_with (interpolate (pool_startTime s) (pool_endTime s)
                   (block_timestamp x))
         (pool_startWeights s) (pool_endWeights s).

Definition pool_updateWeightsGradually (x : Ctx) (startTime endTime : Z)
    (tokens : list address) (endWeights : list Z) (s : State) : result State :=
  _ ← require (bool_decide (tokens = tail (bv_tokens s)))
        (ExternalRevert "TOKENS_MISMATCH");
  _ ← require (bool_decide (length endWeights = length tokens))
        (ExternalRevert "INPUT_LENGTH_MISMATCH");
  _ ← require (forallb (λ w, MIN_WEIGHT <=? w) endWeights)
        (ExternalRevert "MIN_WEIGHT");
  _ ← require (sumZ endWeights =? ONE)
        (ExternalRevert "NORMALIZED_WEIGHT_INVARIANT");
  let start := Z.max (block_timestamp x) startTime in
  _ ← require (start <=? endTime) (ExternalRevert "GRADUAL_UPDATE_TIME_TRAVEL");
  Ok (set_pool_schedule start endTime (pool_getNormalizedWeights x s)
        endWeights s).

Definition pool_getSwapFeePercentage (s : State) : Z := pool_swapFee s.

(** Modelled from the spec: the yield-wrapper adapter of section 6, with the
    [maxDeposit]/[maxWithdraw] overrides and the pause switch of
    [ERC4626Mock]. *)
Definition wrapper_at (s : State) (yieldToken : address) : result Wrapper :=
  match wrappers s !! yieldToken with
  | Some w => Ok w
  | None => Err (ExternalRevert "call to non-contract")
  end.

Definition convertToAssets (w : Wrapper) (shares : Z) : result Z :=
  mulDiv shares (w_rate w) ONE.

Definition previewDeposit (w : Wrapper) (assets : Z) : result Z :=
  mulDiv assets ONE (w_rate w).

Definition previewWithdraw (w : Wrapper) (assets : Z) : result Z :=
  p ← mul assets ONE;
  q ← add p (w_rate w - 1);
  div q (w_rate w).

Definition wrapper_maxDeposit (w : Wrapper) : result Z :=
  if w_paused w then Err (ExternalRevert "Vault is paused")
  else if w_useMaxDepositAmount w then Ok (w_maxDepositAmount w)
  else Ok MAX_UINT256.

Definition wrapper_maxWithdraw (s : State) (yieldToken : address)
    (w : Wrapper) (holder : address) : result Z :=
  if w_paused w then Err (ExternalRevert "Vault is paused")
  else if w_useMaxWithdrawalAmount w then Ok (w_maxWithdrawalAmount w)
  else convertToAssets w (balanceOf s yieldToken holder).

(** [yieldToken.deposit(assets, receiver)] called by [caller] *)
Definition wrapper_deposit (yieldToken : address) (assets : Z)
    (caller receiver : address) (s : State) : result State :=
  w ← wrapper_at s yieldToken;
  maxAssets ← wrapper_maxDeposit w;
  _ ← require (assets <=? maxAssets)
        (ExternalRevert "ERC4626: deposit more than max");
  shares ← previewDeposit w assets;
  s1 ← erc20_transfer (w_asset w) caller yieldToken assets s;
  Ok (erc20_credit yieldToken receiver shares s1).

(** [yieldToken.withdraw(assets, receiver, holder)] *)
Definition wrapper_withdraw (yieldToken : address) (assets : Z)
    (receiver holder : address) (s : State) : result State :=
  w ← wrapper_at s yieldToken;
  maxAssets ← wrapper_maxWithdraw s yieldToken w holder;
  _ ← require (assets <=? maxAssets)
        (ExternalRevert "ERC4626: withdraw more than max");
  shares ← previewWithdraw w assets;
  s1 ← erc20_debit yieldToken holder shares s;
  erc20_transfer (w_asset w) yieldToken receiver assets s1.

(** Modelled from the spec: the oracle adapter of section 6. *)
Definition oracle_latestRoundData (s : State) (i : nat) : result (Z * Z) :=
  match oracleFeeds s !! i with
  | Some r => Ok r
  | None => Err (ExternalRevert "latestRoundData reverted")
  end.

(** ** Modifiers *)

Definition nonReentrant (s : State) : result unit :=
  require (negb (reentrancyEntered s))
    (ExternalRevert "ReentrancyGuard: reentrant call").
Definition onlyOwner (x : Ctx) (s : State) : result unit :=
  require (bool_decide (msg_sender x = owner s))
    (ExternalRevert "Ownable: caller is not the owner").
Definition onlyGuardian (x : Ctx) (s : State) : result unit :=
  require (bool_decide (msg_sender x = guardian s)) Mammon__CallerIsNotGuardian.
Definition whenInitialized (s : State) : result unit :=
  require (initialized s) Mammon__VaultNotInitialized.
Definition whenNotFinalized (s : State) : result unit :=
  require (negb (finalized s)) Mammon__VaultIsFinalized.

(** ** Views of [MammonVaultV2] *)

(** [getOracleUnits()] (and [getOracles()]): the unrolled getters write
    slots 0 and 1 unconditionally. *)
Definition getOracleUnits (c : Config) : result (list Z) :=
  if decide (2 ≤ numOracles c)%nat then Ok (oracleUnits c)
  else Err (Panic IndexOutOfBounds).

(** [getPoolTokensData()]: slot 0 of the Balancer registration is the pool's
    own token and is skipped. *)
Definition getPoolTokensData (c : Config) (s : State)
  : result (list address * list Z * Z) :=
  let '(tokens, holdings, lastChangeBlock) := bVault_getPoolTokens s in
  '(poolTokens, poolHoldings) ←
    for_loop (numPoolTokens c) (λ i '(poolTokens, poolHoldings),
      t ← get tokens (i + 1);
      poolTokens ← set poolTokens i t;
      h ← get holdings (i + 1);
      poolHoldings ← set poolHoldings i h;
      Ok (poolTokens, poolHoldings))
      (replicate (numPoolTokens c) 0%N, new_array (numPoolTokens c));
  Ok (poolTokens, poolHoldings, lastChangeBlock).

Definition getPoolTokens (c : Config) (s : State) : result (list address) :=
  let '(tokens, _, _) := bVault_getPoolTokens s in
  tabulate (numPoolTokens c) 0%N (λ i, get tokens (i + 1)).

Definition getPoolHoldings (c : Config) (s : State) : result (list Z) :=
  let '(_, holdings, _) := bVault_getPoolTokens s in
  tabulate (numPoolTokens c) 0 (λ i, get holdings (i + 1)).

(** [getTokens()]: pool tokens followed by yield tokens.  Here and below
    the running [index] of the source equals [numPoolTokens + i]. *)
Definition getTokens (c : Config) (s : State) : result (list address) :=
  poolTokens ← getPoolTokens c s;
  let yieldTokens := getYieldTokens c in
  tokens ← for_loop (numPoolTokens c)
              (λ i tokens, t ← get poolTokens i; set tokens i t)
              (replicate (numTokens c) 0%N);
  for_loop (numYieldTokens c)
    (λ i tokens, t ← get yieldTokens i; set tokens (numPoolTokens c + i) t)
    tokens.

(** [getHoldings()] *)
Definition getHoldings (c : Config) (s : State) : result (list Z) :=
  poolHoldings ← getPoolHoldings c s;
  let yieldTokens := getYieldTokens c in
  holdings ← for_loop (numPoolTokens c)
                (λ i holdings, h ← get poolHoldings i; set holdings i h)
                (new_array (numTokens c));
  for_loop (numYieldTokens c)
    (λ i holdings,
      y ← get yieldTokens i;
      fee ← get (guardiansFeeTotal s) (numPoolTokens c + i);
      h ← sub (balanceOf s y (this c)) fee;
      set holdings (numPoolTokens c + i) h)
    holdings.

(** [getUnderlyingBalances()] *)
Definition getUnderlyingBalances (c : Config) (s : State) : result (list Z) :=
  let yieldTokens := getYieldTokens c in
  tabulate (numYieldTokens c) 0 (λ i,
    y ← get yieldTokens i;
    fee ← get (guardiansFeeTotal s) (numPoolTokens c + i);
    shares ← sub (balanceOf s y (this c)) fee;
    w ← wrapper_at s y;
    convertToAssets w shares).

(** [getUnderlyingTotalBalances(underlyingIndexes, poolHoldings,
    underlyingBalances)] *)
Definition getUnderlyingTotalBalances (c : Config)
    (underlyingIndexes : list nat) (poolHoldings underlyingBalances : list Z)
  : result (list Z) :=
  total ← tabulate (numPoolTokens c) 0 (λ i, get poolHoldings i);
  for_loop (numYieldTokens c) (λ i total,
    ub ← get underlyingBalances i;
    if 0 <? ub then
      k ← get underlyingIndexes i;
      old ← get total k;
      new ← add old ub;
      set total k new
    else Ok total) total.

(** [getValue(amounts, prices)] *)
Definition getValue (c : Config) (amounts prices : list Z) : result Z :=
  for_loop (length prices) (λ i value,
    if decide (i = numeraireAssetIndex c) then
      a ← get amounts i; add value a
    else
      a ← get amounts i;
      p ← get prices i;
      v ← mulDiv a p ONE;
      add value v) 0.

(** [calcSpotPrice] *)
Definition calcSpotPrice
    (tokenBalanceIn tokenWeightIn tokenBalanceOut tokenWeightOut swapFee : Z)
  : result Z :=
  numer ← mulDiv tokenBalanceIn ONE tokenWeightIn;
  denom ← mulDiv tokenBalanceOut ONE tokenWeightOut;
  ratio ← mulDiv numer ONE denom;
  p ← mul ONE ONE;
  f ← sub ONE swapFee;
  scale ← div p f;
  mulDiv ratio scale ONE.

(** [getSpotPrices(poolHoldings)] *)
Definition getSpotPrices (c : Config) (x : Ctx) (s : State)
    (poolHoldings : list Z) : result (list Z) :=
  let weights := pool_getNormalizedWeights x s in
  let swapFee := pool_getSwapFeePercentage s in
  numeraireAssetHolding ← get poolHoldings (numeraireAssetIndex c);
  numeraireAssetWeight ← get weights (numeraireAssetIndex c);
  tabulate (numPoolTokens c) 0 (λ i,
    if decide (i = numeraireAssetIndex c) then Ok ONE
    else
      h ← get poolHoldings i;
      w ← get weights i;
      calcSpotPrice numeraireAssetHolding numeraireAssetWeight h w swapFee).

(** [getOraclePrices()] *)
Definition getOraclePrices (c : Config) (s : State)
  : result (list Z * list Z) :=
  oracleUnits ← getOracleUnits c;
  for_loop (numOracles c) (λ i '(prices, updatedAt),
    if decide (i = numeraireAssetIndex c) then
      prices ← set prices i ONE;
      Ok (prices, updatedAt)
    else
      '(answer, updated) ← oracle_latestRoundData s i;
      updatedAt ← set updatedAt i updated;
      _ ← require (0 <? answer) (Mammon__OraclePriceIsInvalid i answer);
      prices ← set prices i answer;
      unit ← get oracleUnits i;
      if unit =? ONE then Ok (prices, updatedAt)
      else
        q ← mulDiv answer ONE unit;
        prices ← set prices i q;
        Ok (prices, updatedAt))
    (new_array (numOracles c), new_array (numOracles c)).

(** [checkOracleStatus(updatedAt)] *)
Definition checkOracleStatus (c : Config) (x : Ctx) (s : State)
    (updatedAt : list Z) : result unit :=
  _ ← require (oraclesEnabled s) Mammon__OraclesAreDisabled;
  for_loop (numOracles c) (λ i _,
    if decide (i = numeraireAssetIndex c) then Ok tt
    else
      u ← get updatedAt i;
      delay ← sub (block_timestamp x) u;
      require (negb (maxOracleDelay c <? delay))
        (Mammon__OracleIsDelayedBeyondMax i delay (maxOracleDelay c))) tt.

(** The divergence loop of [getDeterminedPrices]. *)
Definition checkDivergence (c : Config) (oraclePrices spotPrices : list Z)
  : result unit :=
  for_loop (numPoolTokens c) (λ i _,
    if decide (i = numeraireAssetIndex c) then Ok tt
    else
      o ← get oraclePrices i;
      p ← get spotPrices i;
      ratio ← (if p <? o then mulDiv o ONE p else mulDiv p ONE o);
      require (negb (maxOracleSpotDivergence c <? ratio))
        (Mammon__OracleSpotPriceDivergenceExceedsMax i ratio
           (maxOracleSpotDivergence c))) tt.

(** [getDeterminedPrices(amounts)] *)
Definition getDeterminedPrices (c : Config) (x : Ctx) (s : State)
    (amounts : list Z) : result (list Z * PriceType) :=
  poolHoldings ← getPoolHoldings c s;
  '(oraclePrices, updatedAt) ← getOraclePrices c s;
  spotPrices ← getSpotPrices c x s poolHoldings;
  let underlyingIndexes := getUnderlyingIndexes c in
  underlyingBalances ← getUnderlyingBalances c s;
  underlyingTotalBalances ←
    getUnderlyingTotalBalances c underlyingIndexes poolHoldings
      underlyingBalances;
  value ← getValue c underlyingTotalBalances spotPrices;
  if value <? minReliableVaultValue c then
    _ ← checkOracleStatus c x s updatedAt;
    Ok (oraclePrices, ORACLE)
  else
    _ ← checkDivergence c oraclePrices spotPrices;
    depositValue ← getValue c amounts spotPrices;
    if depositValue <? minSignificantDepositValue c then
      Ok (spotPrices, SPOT)
    else
      _ ← checkOracleStatus c x s updatedAt;
      Ok (oraclePrices, ORACLE).

(** [calcNormalizedWeights(value, oraclePrices, underlyingIndexes,
    underlyingBalances)] *)
Definition calcNormalizedWeights (c : Config) (x : Ctx) (s : State)
    (value : Z) (oraclePrices : list Z) (underlyingIndexes : list nat)
    (underlyingBalances : list Z) : result (list Z) :=
  let poolWeights := pool_getNormalizedWeights x s in
  '(weights, poolWeightSum, weightSum) ←
    for_loop (numYieldTokens c) (λ i '(weights, poolWeightSum, weightSum),
      ub ← get underlyingBalances i;
      k ← get underlyingIndexes i;
      p ← get oraclePrices k;
      weight ← mulDiv ub p value;
      weights ← set weights (numPoolTokens c + i) weight;
      poolWeightSum ← sub poolWeightSum weight;
      weightSum ← add weightSum weight;
      Ok (weights, poolWeightSum, weightSum))
      (new_array (numTokens c), ONE, 0);
  '(weights, weightSum) ←
    for_loop (numPoolTokens c) (λ i '(weights, weightSum),
      pw ← get poolWeights i;
      w ← mulDiv pw poolWeightSum ONE;
      weights ← set weights i w;
      weightSum ← add weightSum w;
      Ok (weights, weightSum)) (weights, weightSum);
  if ONE <? weightSum then
    d ← sub weightSum ONE;
    w0 ← get weights 0;
    t ← sub w0 d;
    set weights 0 t
  else
    d ← sub ONE weightSum;
    w0 ← get weights 0;
    t ← add w0 d;
    set weights 0 t.

(** [getNormalizedWeights()] *)
Definition getNormalizedWeights (c : Config) (x : Ctx) (s : State)
  : result (list Z) :=
  poolHoldings ← getPoolHoldings c s;
  let underlyingIndexes := getUnderlyingIndexes c in
  underlyingBalances ← getUnderlyingBalances c s;
  '(oraclePrices, _) ← getOraclePrices c s;
  underlyingTotalBalances ←
    getUnderlyingTotalBalances c underlyingIndexes poolHoldings
      underlyingBalances;
  value ← getValue c underlyingTotalBalances oraclePrices;
  calcNormalizedWeights c x s value oraclePrices underlyingIndexes
    underlyingBalances.

(** [getFeeIndex(lockGuaranteedFee)] *)
Definition getFeeIndex (c : Config) (x : Ctx) (s : State)
    (lockGuaranteedFee : bool) : result Z :=
  feeIndex ← (if lastFeeCheckpoint s <? block_timestamp x
              then sub (block_timestamp x) (lastFeeCheckpoint s)
              else Ok 0);
  if lockGuaranteedFee then
    minFeeCheckpoint ← add (createdAt c) (minFeeDuration c);
    if block_timestamp x <? minFeeCheckpoint then
      d ← sub minFeeCheckpoint (block_timestamp x);
      add feeIndex d
    else Ok feeIndex
  else Ok feeIndex.

(** [getWeightChangeRatio(weight, targetWeight)] *)
Definition getWeightChangeRatio (weight targetWeight : Z) : result Z :=
  if targetWeight <? weight then mulDiv ONE weight targetWeight
  else mulDiv ONE targetWeight weight.

(** [getValuesFromTokenWithValues(tokenWithValues, poolTokens)] *)
Definition getValuesFromTokenWithValues (c : Config)
    (tokenWithValues : list TokenValue) (poolTokens : list address)
  : result (list Z) :=
  _ ← require (bool_decide (numTokens c = length tokenWithValues))
        (Mammon__ValueLengthIsNotSame (Z.of_nat (numTokens c))
           (Z.of_nat (length tokenWithValues)));
  values ← for_loop (numPoolTokens c) (λ i values,
      tv ← get tokenWithValues i;
      t ← get poolTokens i;
      _ ← require (bool_decide (tv_token tv = t))
            (Mammon__DifferentTokensInPosition (tv_token tv) t i);
      set values i (tv_value tv)) (new_array (numTokens c));
  let yieldTokens := getYieldTokens c in
  for_loop (numYieldTokens c) (λ i values,
      tv ← get tokenWithValues (numPoolTokens c + i);
      t ← get yieldTokens i;
      _ ← require (bool_decide (tv_token tv = t))
            (Mammon__DifferentTokensInPosition (tv_token tv) t
               (numPoolTokens c + i));
      set values (numPoolTokens c + i) (tv_value tv)) values.

(** [getPoolTokenValues(values)] *)
Definition getPoolTokenValues (c : Config) (values : list Z)
  : result (list Z) :=
  tabulate (numPoolTokens c) 0 (λ i, get values i).

(** [checkWeights(weights)] *)
Definition checkWeights (weights : list Z) : result unit :=
  weightSum ← for_loop (length weights)
                 (λ i weightSum, w ← get weights i; add weightSum w) 0;
  require (weightSum =? ONE) Mammon__SumOfWeightIsNotOne.

(** [checkWeightChangeRatio(poolTokens, targetPoolWeights, startTime,
    endTime)] *)
Definition checkWeightChangeRatio (c : Config) (x : Ctx) (s : State)
    (poolTokens : list address) (targetPoolWeights : list Z)
    (startTime endTime : Z) : result unit :=
  let currentPoolWeights := pool_getNormalizedWeights x s in
  duration ← sub endTime startTime;
  maximumRatio ← mul MAX_WEIGHT_CHANGE_RATIO duration;
  for_loop (numPoolTokens c) (λ i _,
    cw ← get currentPoolWeights i;
    tw ← get targetPoolWeights i;
    changeRatio ← getWeightChangeRatio cw tw;
    if maximumRatio <? changeRatio then
      t ← get poolTokens i;
      Err (Mammon__WeightChangeRatioIsAboveMax t changeRatio maximumRatio)
    else Ok tt) tt.

(** [checkWithdrawAmount(poolTokens, yieldTokens, isWithdrawable, holdings,
    amounts)] *)
Definition checkWithdrawAmount (c : Config) (s : State)
    (poolTokens yieldTokens : list address) (isWithdrawable : list bool)
    (holdings amounts : list Z) : result unit :=
  _ ← for_loop (numPoolTokens c) (λ i _,
      a ← get amounts i;
      h ← get holdings i;
      if h <? a then
        t ← get poolTokens i;
        Err (Mammon__AmountExceedAvailable t a h)
      else Ok tt) tt;
  for_loop (numYieldTokens c) (λ i _,
    wd ← get isWithdrawable i;
    availableAmount ←
      (if wd : bool then get holdings (numPoolTokens c + i)
       else
         y ← get yieldTokens i;
         h ← get holdings (numPoolTokens c + i);
         w ← wrapper_at s y;
         a ← convertToAssets w h;
         m ← wrapper_maxWithdraw s y w (this c);
         Ok (Z.min a m));
    a ← get amounts (numPoolTokens c + i);
    if availableAmount <? a then
      y ← get yieldTokens i;
      Err (Mammon__AmountExceedAvailable y a availableAmount)
    else Ok tt) tt.

(** [checkGuardianAddress(newGuardian)] *)
Definition checkGuardianAddress (s : State) (newGuardian : address)
  : result unit :=
  _ ← require (negb (bool_decide (newGuardian = 0%N)))
        Mammon__GuardianIsZeroAddress;
  require (negb (bool_decide (newGuardian = owner s)))
    (Mammon__GuardianIsOwner newGuardian).

(** ** State-changing internals *)

(** [updatePoolBalance(amounts, kind)] *)
Definition updatePoolBalance (c : Config) (amounts : list Z)
    (kind : PoolBalanceOpKind) (s : State) : result State :=
  poolTokens ← getPoolTokens c s;
  ops ← tabulate (numPoolTokens c) (mkPoolBalanceOp kind 0%N 0) (λ i,
      t ← get poolTokens i;
      a ← get amounts i;
      Ok (mkPoolBalanceOp kind t a));
  bVault_managePoolBalance c ops s.

(** [depositToPool(amounts)] *)
Definition depositToPool (c : Config) (amounts : list Z) (s : State)
  : result State :=
  s ← updatePoolBalance c amounts UPDATE s;
  updatePoolBalance c amounts DEPOSIT s.

(** [withdrawFromPool(amounts)] *)
Definition withdrawFromPool (c : Config) (amounts : list Z) (s : State)
  : result State :=
  let managed := new_array (numPoolTokens c) in
  s ← updatePoolBalance c amounts WITHDRAW s;
  updatePoolBalance c managed UPDATE s.

(** [updatePoolWeights(weights, weightSum)] *)
Definition updatePoolWeights (c : Config) (x : Ctx) (weights : list Z)
    (weightSum : Z) (s : State) : result State :=
  newWeights ← normalizeWeights weights weightSum;
  poolTokens ← getPoolTokens c s;
  pool_updateWeightsGradually x (block_timestamp x) (block_timestamp x)
    poolTokens newWeights s.

(** [setSwapEnabled(swapEnabled)] *)
Definition setSwapEnabled (swapEnabled : bool) (s : State) : State :=
  emit (EvSetSwapEnabled swapEnabled) (set_pool_swapEnabled swapEnabled s).

(** The fee ledger of an account; an absent row is the empty array. *)
Definition ledger (s : State) (a : address) : list Z :=
  default [] (guardiansFee s !! a).

(** [guardiansFee[guardian][i] += fee; guardiansFeeTotal[i] += fee] *)
Definition creditFee (i : nat) (fee : Z) (s : State) : result State :=
  old ← get (ledger s (guardian s)) i;
  new ← add old fee;
  row ← set (ledger s (guardian s)) i new;
  let s := set_guardiansFee (<[guardian s := row]> (guardiansFee s)) s in
  oldTotal ← get (guardiansFeeTotal s) i;
  newTotal ← add oldTotal fee;
  total ← set (guardiansFeeTotal s) i newTotal;
  Ok (set_guardiansFeeTotal total s).

(** The body of [lockGuardianFees] after its two early returns: the fees for
    [feeIndex] seconds are withdrawn from the pool (pool tokens) or carved
    out of the reported holdings (yield tokens) and credited to the guardian. *)
Definition accrueGuardianFees (c : Config) (x : Ctx) (feeIndex : Z)
    (s : State) : result State :=
  poolTokens ← getPoolTokens c s;
  holdings ← getHoldings c s;
  '(newFees, balances) ←
    for_loop (numPoolTokens c) (λ i '(newFees, balances),
      t ← get poolTokens i;
      balances ← set balances i (balanceOf s t (this c));
      h ← get holdings i;
      a ← mul h feeIndex;
      b ← mul a (managementFee c);
      f ← div b ONE;
      newFees ← set newFees i f;
      Ok (newFees, balances))
      (new_array (numPoolTokens c), new_array (numPoolTokens c));
  let s := set_lastFeeCheckpoint (block_timestamp x) s in
  s ← withdrawFromPool c newFees s;
  s ← for_loop (numPoolTokens c) (λ i s,
      t ← get poolTokens i;
      b ← get balances i;
      fee ← sub (balanceOf s t (this c)) b;
      creditFee i fee s) s;
  for_from (numPoolTokens c) (numTokens c - numPoolTokens c) (λ i s,
      h ← get holdings i;
      a ← mul h feeIndex;
      b ← mul a (managementFee c);
      newFee ← div b ONE;
      creditFee i newFee s) s.

(** [lockGuardianFees(lockGuaranteedFee)] *)
Definition lockGuardianFees (c : Config) (x : Ctx) (lockGuaranteedFee : bool)
    (s : State) : result State :=
  if managementFee c =? 0 then Ok s
  else
    feeIndex ← getFeeIndex c x s lockGuaranteedFee;
    if feeIndex =? 0 then Ok s
    else accrueGuardianFees c x feeIndex s.

(** [depositToken(token, amount)] *)
Definition depositToken (c : Config) (token : address) (amount : Z)
    (s : State) : result (State * Z) :=
  let balance := balanceOf s token (this c) in
  s ← erc20_transfer token (owner s) (this c) amount s;
  balance ← sub (balanceOf s token (this c)) balance;
  Ok (s, balance).

(** [depositTokens(amounts)] *)
Definition depositTokens (c : Config) (amounts : list Z) (s : State)
  : result (State * list Z) :=
  tokens ← getTokens c s;
  '(s, depositedAmounts) ←
    for_loop (numTokens c) (λ i '(s, depositedAmounts),
      a ← get amounts i;
      if 0 <? a then
        t ← get tokens i;
        '(s, d) ← depositToken c t a s;
        depositedAmounts ← set depositedAmounts i d;
        Ok (s, depositedAmounts)
      else Ok (s, depositedAmounts)) (s, new_array (numTokens c));
  poolAmounts ← getPoolTokenValues c depositedAmounts;
  s ← depositToPool c poolAmounts s;
  Ok (s, depositedAmounts).

(** The dust guard shared by [depositUnderlyingAsset] and
    [withdrawUnderlyingAsset]: the raw amount for the numeraire, the value at
    the oracle price otherwise. *)
Definition belowYieldActionThreshold (c : Config) (amount oraclePrice : Z)
    (underlyingIndex : nat) : result bool :=
  if decide (underlyingIndex = numeraireAssetIndex c) then
    Ok (amount <? minYieldActionThreshold c)
  else
    tokenValue ← mulDiv amount oraclePrice ONE;
    Ok (tokenValue <? minYieldActionThreshold c).

(** [depositUnderlyingAsset(yieldToken, underlyingAsset, amount, oraclePrice,
    underlyingIndex)]; the [try ... catch {}] absorbs a revert of
    [maxDeposit] only. *)
Definition depositUnderlyingAsset (c : Config)
    (yieldToken underlyingAsset : address) (amount oraclePrice : Z)
    (underlyingIndex : nat) (s : State) : result (State * Z) :=
  below ← belowYieldActionThreshold c amount oraclePrice underlyingIndex;
  if below : bool then Ok (s, 0)
  else
    w ← wrapper_at s yieldToken;
    match wrapper_maxDeposit w with
    | Err _ => Ok (s, 0)
    | Ok maxDepositAmount =>
        if maxDepositAmount =? 0 then Ok (s, 0)
        else
          let depositAmount := Z.min amount maxDepositAmount in
          s ← wrapper_deposit yieldToken depositAmount (this c) (this c) s;
          Ok (s, depositAmount)
    end.

(** [withdrawUnderlyingAsset(yieldToken, underlyingAsset, amount,
    oraclePrice, underlyingIndex)] *)
Definition withdrawUnderlyingAsset (c : Config)
    (yieldToken underlyingAsset : address) (amount oraclePrice : Z)
    (underlyingIndex : nat) (s : State) : result (State * Z) :=
  below ← belowYieldActionThreshold c amount oraclePrice underlyingIndex;
  if below : bool then Ok (s, 0)
  else
    w ← wrapper_at s yieldToken;
    match wrapper_maxWithdraw s yieldToken w (this c) with
    | Err _ => Ok (s, 0)
    | Ok maxWithdrawalAmount =>
        if maxWithdrawalAmount =? 0 then Ok (s, 0)
        else
          let balance := balanceOf s underlyingAsset (this c) in
          s ← wrapper_withdraw yieldToken (Z.min amount maxWithdrawalAmount)
                (this c) (this c) s;
          withdrawn ← sub (balanceOf s underlyingAsset (this c)) balance;
          Ok (s, withdrawn)
    end.

(** [depositTokensAndUpdateWeights(tokenWithAmount, priceType)] *)
Definition depositTokensAndUpdateWeights (c : Config) (x : Ctx)
    (tokenWithAmount : list TokenValue) (priceType : PriceType) (s : State)
  : result State :=
  s ← lockGuardianFees c x false s;
  '(poolTokens, poolHoldings, _) ← getPoolTokensData c s;
  let weights := pool_getNormalizedWeights x s in
  amounts ← getValuesFromTokenWithValues c tokenWithAmount poolTokens;
  '(determinedPrices, priceType) ←
    match priceType with
    | DETERMINED => getDeterminedPrices c x s amounts
    | _ => Ok ([], priceType)
    end;
  '(s, newBalances) ← depositTokens c amounts s;
  poolNewHoldings ← getPoolHoldings c s;
  '(weights, newBalances, weightSum) ←
    match priceType with
    | ORACLE =>
        numeraireAssetHolding ← get poolNewHoldings (numeraireAssetIndex c);
        weights ← set weights (numeraireAssetIndex c) ONE;
        for_loop (numPoolTokens c) (λ i '(weights, newBalances, weightSum),
          weights ←
            (if decide (i ≠ numeraireAssetIndex c) then
               h ← get poolNewHoldings i;
               p ← get determinedPrices i;
               w ← mulDiv h p numeraireAssetHolding;
               set weights i w
             else Ok weights);
          a ← get amounts i;
          newBalances ←
            (if 0 <? a then
               h ← get poolNewHoldings i;
               h0 ← get poolHoldings i;
               d ← sub h h0;
               set newBalances i d
             else Ok newBalances);
          w ← get weights i;
          weightSum ← add weightSum w;
          Ok (weights, newBalances, weightSum)) (weights, newBalances, 0)
    | _ =>
        for_loop (numPoolTokens c) (λ i '(weights, newBalances, weightSum),
          a ← get amounts i;
          '(weights, newBalances) ←
            (if 0 <? a then
               w ← get weights i;
               h ← get poolNewHoldings i;
               h0 ← get poolHoldings i;
               w' ← mulDiv w h h0;
               weights ← set weights i w';
               d ← sub h h0;
               newBalances ← set newBalances i d;
               Ok (weights, newBalances)
             else Ok (weights, newBalances));
          w ← get weights i;
          weightSum ← add weightSum w;
          Ok (weights, newBalances, weightSum)) (weights, newBalances, 0)
    end;
  s ← updatePoolWeights c x weights weightSum s;
  normalizedWeights ← getNormalizedWeights c x s;
  Ok (emit (EvDeposit amounts newBalances normalizedWeights) s).

(** [withdrawTokens(tokenWithAmount)] *)
Definition withdrawTokens (c : Config) (x : Ctx)
    (tokenWithAmount : list TokenValue) (s : State) : result State :=
  s ← lockGuardianFees c x false s;
  poolTokens ← getPoolTokens c s;
  let yieldTokens := getYieldTokens c in
  let isWithdrawable := getWithdrawables c in
  holdings ← getHoldings c s;
  let weights := pool_getNormalizedWeights x s in
  amounts ← getValuesFromTokenWithValues c tokenWithAmount poolTokens;
  _ ← checkWithdrawAmount c s poolTokens yieldTokens isWithdrawable holdings
        amounts;
  '(oraclePrices, updatedAt) ← getOraclePrices c s;
  _ ← checkOracleStatus c x s updatedAt;
  balances ← for_loop (numPoolTokens c) (λ i balances,
      a ← get amounts i;
      if 0 <? a then
        t ← get poolTokens i;
        set balances i (balanceOf s t (this c))
      else Ok balances) (new_array (numTokens c));
  poolAmounts ← getPoolTokenValues c amounts;
  s ← withdrawFromPool c poolAmounts s;
  '(s, balances, weights, weightSum) ←
    for_loop (numPoolTokens c) (λ i '(s, balances, weights, weightSum),
      a ← get amounts i;
      '(s, balances, weights) ←
        (if 0 <? a then
           t ← get poolTokens i;
           b ← get balances i;
           received ← sub (balanceOf s t (this c)) b;
           balances ← set balances i received;
           s ← erc20_transfer t (this c) (owner s) received s;
           w ← get weights i;
           h ← get holdings i;
           d ← sub h a;
           p ← mul w d;
           w' ← div p h;
           weights ← set weights i w';
           Ok (s, balances, weights)
         else Ok (s, balances, weights));
      w ← get weights i;
      weightSum ← add weightSum w;
      Ok (s, balances, weights, weightSum)) (s, balances, weights, 0);
  let underlyingIndexes := getUnderlyingIndexes c in
  '(s, balances) ←
    for_loop (numYieldTokens c) (λ i '(s, balances),
      a ← get amounts (numPoolTokens c + i);
      if 0 <? a then
        wd ← get isWithdrawable i;
        if wd : bool then
          balances ← set balances (numPoolTokens c + i) a;
          y ← get yieldTokens i;
          s ← erc20_transfer y (this c) (owner s) a s;
          Ok (s, balances)
        else
          underlyingIndex ← get underlyingIndexes i;
          underlyingAsset ← get poolTokens underlyingIndex;
          y ← get yieldTokens i;
          price ← get oraclePrices underlyingIndex;
          '(s, withdrawn) ←
            withdrawUnderlyingAsset c y underlyingAsset a price
              underlyingIndex s;
          balances ← set balances (numPoolTokens c + i) withdrawn;
          s ← erc20_transfer underlyingAsset (this c) (owner s) withdrawn s;
          Ok (s, balances)
      else Ok (s, balances)) (s, balances);
  s ← updatePoolWeights c x weights weightSum s;
  normalizedWeights ← getNormalizedWeights c x s;
  Ok (emit (EvWithdraw amounts balances normalizedWeights) s).

(** [returnFunds()] *)
Definition returnFunds (c : Config) (s : State) : result (State * list Z) :=
  tokens ← getTokens c s;
  poolHoldings ← getPoolHoldings c s;
  s ← withdrawFromPool c poolHoldings s;
  for_loop (numTokens c) (λ i '(s, amounts),
    token ← get tokens i;
    fee ← get (guardiansFeeTotal s) i;
    amount ← sub (balanceOf s token (this c)) fee;
    s ← erc20_transfer token (this c) (owner s) amount s;
    amounts ← set amounts i amount;
    Ok (s, amounts)) (s, new_array (numTokens c)).

(** ** Weight engine *)

(** [getUnderlyingTotalWeights(underlyingIndexes, weights)] *)
Definition getUnderlyingTotalWeights (c : Config)
    (underlyingIndexes : list nat) (weights : list Z) : result (list Z) :=
  total ← tabulate (numPoolTokens c) 0 (λ i, get weights i);
  for_loop (numYieldTokens c) (λ i total,
    k ← get underlyingIndexes i;
    old ← get total k;
    w ← get weights (numPoolTokens c + i);
    new ← add old w;
    set total k new) total.

(** [calcAdjustmentAmounts]: [targetBalance] is declared outside the loop
    and keeps its last value on a slot whose target weight is zero. *)
Definition calcAdjustmentAmounts (c : Config) (underlyingIndexes : list nat)
    (poolHoldings underlyingBalances targetWeights oraclePrices : list Z)
  : result (list Z * list Z) :=
  total ← getUnderlyingTotalBalances c underlyingIndexes poolHoldings
            underlyingBalances;
  value ← getValue c total oraclePrices;
  '(depositAmounts, withdrawAmounts, _) ←
    for_loop (numYieldTokens c)
      (λ i '(depositAmounts, withdrawAmounts, targetBalance),
        tw ← get targetWeights (numPoolTokens c + i);
        targetBalance ←
          (if 0 <? tw then
             p ← mul value tw;
             k ← get underlyingIndexes i;
             price ← get oraclePrices k;
             div p price
           else Ok targetBalance);
        ub ← get underlyingBalances i;
        if ub <? targetBalance then
          d ← sub targetBalance ub;
          depositAmounts ← set depositAmounts i d;
          Ok (depositAmounts, withdrawAmounts, targetBalance)
        else
          d ← sub ub targetBalance;
          withdrawAmounts ← set withdrawAmounts i d;
          Ok (depositAmounts, withdrawAmounts, targetBalance))
      (new_array (numYieldTokens c), new_array (numYieldTokens c), 0);
  Ok (depositAmounts, withdrawAmounts).

(** [calcNecessaryAmounts(underlyingIndexes, poolHoldings, depositAmounts,
    balances)] *)
Definition calcNecessaryAmounts (c : Config) (x : Ctx) (s : State)
    (underlyingIndexes : list nat)
    (poolHoldings depositAmounts balances : list Z) : result (list Z) :=
  let poolWeights := pool_getNormalizedWeights x s in
  availableHoldings ← tabulate (numPoolTokens c) 0 (λ i,
      h ← get poolHoldings i;
      w ← get poolWeights i;
      d ← sub w MIN_WEIGHT;
      p ← mul h d;
      div p w);
  necessaryAmounts ← for_loop (numYieldTokens c) (λ i necessaryAmounts,
      d ← get depositAmounts i;
      if 0 <? d then
        k ← get underlyingIndexes i;
        old ← get necessaryAmounts k;
        new ← add old d;
        set necessaryAmounts k new
      else Ok necessaryAmounts) (new_array (numPoolTokens c));
  for_loop (numPoolTokens c) (λ i necessaryAmounts,
    n ← get necessaryAmounts i;
    b ← get balances i;
    if n <=? b then set necessaryAmounts i 0
    else
      a ← get availableHoldings i;
      t ← add a b;
      if t <? n then set necessaryAmounts i a
      else
        r ← sub n b;
        set necessaryAmounts i r) necessaryAmounts.

(** [withdrawNecessaryTokensFromPool(tokens, balances, necessaryAmounts)] *)
Definition withdrawNecessaryTokensFromPool (c : Config)
    (tokens : list address) (balances necessaryAmounts : list Z) (s : State)
  : result (State * list Z) :=
  newBalances ← tabulate (numPoolTokens c) 0 (λ i, get balances i);
  currentBalances ← for_loop (numPoolTokens c) (λ i currentBalances,
      n ← get necessaryAmounts i;
      if 0 <? n then
        t ← get tokens i;
        set currentBalances i (balanceOf s t (this c))
      else Ok currentBalances) (new_array (numPoolTokens c));
  s ← withdrawFromPool c necessaryAmounts s;
  newBalances ← for_loop (numPoolTokens c) (λ i newBalances,
      n ← get necessaryAmounts i;
      if 0 <? n then
        old ← get newBalances i;
        t ← get tokens i;
        cur ← get currentBalances i;
        d ← sub (balanceOf s t (this c)) cur;
        new ← add old d;
        set newBalances i new
      else Ok newBalances) newBalances;
  Ok (s, newBalances).

(** One iteration of the loop of [depositToYieldTokens] over the yield
    tokens: the requested amount of slot [i] is capped by [balances[i]], as
    the source writes it. *)
Definition depositToYieldTokens_step (c : Config)
    (poolTokens yieldTokens : list address) (underlyingIndexes : list nat)
    (depositAmounts oraclePrices : list Z) (i : nat) (st : State * list Z)
  : result (State * list Z) :=
  let '(s, balances) := st in
  underlyingIndex ← get underlyingIndexes i;
  d ← get depositAmounts i;
  b ← (if 0 <? d then get balances underlyingIndex else Ok 0);
  if (0 <? d) && (0 <? b) then
    y ← get yieldTokens i;
    t ← get poolTokens underlyingIndex;
    bi ← get balances i;
    price ← get oraclePrices underlyingIndex;
    '(s, depositedAmount) ←
      depositUnderlyingAsset c y t (Z.min d bi) price underlyingIndex s;
    old ← get balances underlyingIndex;
    new ← sub old depositedAmount;
    balances ← set balances underlyingIndex new;
    Ok (s, balances)
  else Ok (s, balances).

(** [depositToYieldTokens] *)
Definition depositToYieldTokens (c : Config) (x : Ctx)
    (poolTokens yieldTokens : list address) (underlyingIndexes : list nat)
    (poolHoldings depositAmounts balances oraclePrices : list Z) (s : State)
  : result State :=
  necessaryAmounts ← calcNecessaryAmounts c x s underlyingIndexes poolHoldings
                       depositAmounts balances;
  '(s, balances) ← withdrawNecessaryTokensFromPool c poolTokens balances
                     necessaryAmounts s;
  '(s, balances) ←
    for_loop (numYieldTokens c)
      (depositToYieldTokens_step c poolTokens yieldTokens underlyingIndexes
         depositAmounts oraclePrices) (s, balances);
  depositToPool c balances s.

(** One iteration of the loop of [withdrawFromYieldTokens]. *)
Definition withdrawFromYieldTokens_step (c : Config)
    (poolTokens yieldTokens : list address) (underlyingIndexes : list nat)
    (withdrawAmounts oraclePrices : list Z) (i : nat) (st : State * list Z)
  : result (State * list Z) :=
  let '(s, amounts) := st in
  wa ← get withdrawAmounts i;
  if 0 <? wa then
    underlyingIndex ← get underlyingIndexes i;
    old ← get amounts underlyingIndex;
    y ← get yieldTokens i;
    t ← get poolTokens underlyingIndex;
    price ← get oraclePrices underlyingIndex;
    '(s, withdrawn) ←
      withdrawUnderlyingAsset c y t wa price underlyingIndex s;
    new ← add old withdrawn;
    amounts ← set amounts underlyingIndex new;
    Ok (s, amounts)
  else Ok (s, amounts).

(** [withdrawFromYieldTokens] *)
Definition withdrawFromYieldTokens (c : Config)
    (poolTokens yieldTokens : list address) (underlyingIndexes : list nat)
    (withdrawAmounts oraclePrices : list Z) (s : State)
  : result (State * list Z) :=
  for_loop (numYieldTokens c)
    (withdrawFromYieldTokens_step c poolTokens yieldTokens underlyingIndexes
       withdrawAmounts oraclePrices) (s, new_array (numPoolTokens c)).

(** [adjustYieldTokens(poolTokens, underlyingIndexes, poolHoldings,
    targetWeights)] *)
Definition adjustYieldTokens (c : Config) (x : Ctx)
    (poolTokens : list address) (underlyingIndexes : list nat)
    (poolHoldings targetWeights : list Z) (s : State) : result State :=
  underlyingBalances ← getUnderlyingBalances c s;
  let yieldTokens := getYieldTokens c in
  '(oraclePrices, updatedAt) ← getOraclePrices c s;
  _ ← checkOracleStatus c x s updatedAt;
  '(depositAmounts, withdrawAmounts) ←
    calcAdjustmentAmounts c underlyingIndexes poolHoldings underlyingBalances
      targetWeights oraclePrices;
  '(s, balances) ←
    withdrawFromYieldTokens c poolTokens yieldTokens underlyingIndexes
      withdrawAmounts oraclePrices s;
  depositToYieldTokens c x poolTokens yieldTokens underlyingIndexes
    poolHoldings depositAmounts balances oraclePrices s.

(** [adjustPoolWeights(underlyingIndexes, poolHoldings, targetWeights)] *)
Definition adjustPoolWeights (c : Config) (x : Ctx)
    (underlyingIndexes : list nat) (poolHoldings targetWeights : list Z)
    (s : State) : result (State * list Z) :=
  targetPoolWeights ← getUnderlyingTotalWeights c underlyingIndexes
                        targetWeights;
  currentPoolHoldings ← getPoolHoldings c s;
  let poolWeights := pool_getNormalizedWeights x s in
  currentWeights ← getNormalizedWeights c x s;
  targetPoolWeights ← for_loop (numYieldTokens c) (λ i targetPoolWeights,
      k ← get underlyingIndexes i;
      old ← get targetPoolWeights k;
      w ← get currentWeights (numPoolTokens c + i);
      new ← sub old w;
      set targetPoolWeights k new) targetPoolWeights;
  '(newPoolWeights, weightSum, targetWeightSum) ←
    for_loop (numPoolTokens c)
      (λ i '(newPoolWeights, weightSum, targetWeightSum),
        pw ← get poolWeights i;
        ch ← get currentPoolHoldings i;
        p ← mul pw ch;
        h ← get poolHoldings i;
        w ← div p h;
        newPoolWeights ← set newPoolWeights i w;
        weightSum ← add weightSum w;
        t ← get targetPoolWeights i;
        targetWeightSum ← add targetWeightSum t;
        Ok (newPoolWeights, weightSum, targetWeightSum))
      (new_array (numPoolTokens c), 0, 0);
  s ← updatePoolWeights c x newPoolWeights weightSum s;
  targetPoolWeights ← normalizeWeights targetPoolWeights targetWeightSum;
  Ok (s, targetPoolWeights).

(** ** Entry points *)

(** [deposit(tokenWithAmount)] *)
Definition deposit (c : Config) (x : Ctx) (tokenWithAmount : list TokenValue)
    (s : State) : result State :=
  _ ← nonReentrant s;
  _ ← onlyOwner x s;
  _ ← whenInitialized s;
  _ ← whenNotFinalized s;
  depositTokensAndUpdateWeights c x tokenWithAmount DETERMINED s.

(** [depositRiskingArbitrage(tokenWithAmount)] *)
Definition depositRiskingArbitrage (c : Config) (x : Ctx)
    (tokenWithAmount : list TokenValue) (s : State) : result State :=
  _ ← nonReentrant s;
  _ ← onlyOwner x s;
  _ ← whenInitialized s;
  _ ← whenNotFinalized s;
  depositTokensAndUpdateWeights c x tokenWithAmount SPOT s.

(** [withdraw(tokenWithAmount)] *)
Definition withdraw (c : Config) (x : Ctx) (tokenWithAmount : list TokenValue)
    (s : State) : result State :=
  _ ← nonReentrant s;
  _ ← onlyOwner x s;
  _ ← whenInitialized s;
  _ ← whenNotFinalized s;
  withdrawTokens c x tokenWithAmount s.

(** [finalize()] *)
Definition finalize (c : Config) (x : Ctx) (s : State) : result State :=
  _ ← nonReentrant s;
  _ ← onlyOwner x s;
  _ ← whenInitialized s;
  _ ← whenNotFinalized s;
  let s := set_finalized true s in
  s ← lockGuardianFees c x true s;
  let s := setSwapEnabled false s in
  '(s, amounts) ← returnFunds c s;
  Ok (emit (EvFinalized (owner s) amounts) s).

(** [setGuardian(newGuardian)] *)
Definition setGuardian (c : Config) (x : Ctx) (newGuardian : address)
    (s : State) : result State :=
  _ ← nonReentrant s;
  _ ← onlyOwner x s;
  _ ← checkGuardianAddress s newGuardian;
  s ← (if initialized s && negb (finalized s)
       then lockGuardianFees c x false s else Ok s);
  let s := if (length (ledger s newGuardian) =? 0)%nat
           then set_guardiansFee
                  (<[newGuardian := new_array (numTokens c)]> (guardiansFee s)) s
           else s in
  let s := emit (EvGuardianChanged (guardian s) newGuardian) s in
  Ok (set_guardian newGuardian s).

(** [enableTradingWithOraclePrice()] *)
Definition enableTradingWithOraclePrice (c : Config) (x : Ctx) (s : State)
  : result State :=
  _ ← nonReentrant s;
  _ ← onlyGuardian x s;
  _ ← whenInitialized s;
  '(prices, updatedAt) ← getOraclePrices c s;
  _ ← checkOracleStatus c x s updatedAt;
  poolHoldings ← getPoolHoldings c s;
  numeraireAssetHolding ← get poolHoldings (numeraireAssetIndex c);
  weights ← set (new_array (numPoolTokens c)) (numeraireAssetIndex c) ONE;
  '(weights, weightSum) ←
    for_loop (numPoolTokens c) (λ i '(weights, weightSum),
      if decide (i = numeraireAssetIndex c) then Ok (weights, weightSum)
      else
        h ← get poolHoldings i;
        holdingsRatio ← mulDiv h ONE numeraireAssetHolding;
        p ← mul holdingsRatio ONE;
        price ← get prices i;
        w ← div p price;
        weights ← set weights i w;
        weightSum ← add weightSum w;
        Ok (weights, weightSum)) (weights, ONE);
  s ← updatePoolWeights c x weights weightSum s;
  let s := setSwapEnabled true s in
  Ok (emit (EvUpdateWeightsWithOraclePrice prices
              (pool_getNormalizedWeights x s)) s).

(** The schedule checks at the head of [updateWeightsGradually]; the result
    is the clamped start time. *)
Definition checkWeightChangeSchedule (x : Ctx) (startTime endTime : Z)
  : result Z :=
  _ ← require (negb (MAX_UINT32 <? startTime))
        (Mammon__WeightChangeStartTimeIsAboveMax startTime MAX_UINT32);
  _ ← require (negb (MAX_UINT32 <? endTime))
        (Mammon__WeightChangeEndTimeIsAboveMax endTime MAX_UINT32);
  let startTime := Z.max (block_timestamp x) startTime in
  _ ← require (negb (endTime <? startTime)) Mammon__WeightChangeEndBeforeStart;
  t ← add startTime MINIMUM_WEIGHT_CHANGE_DURATION;
  if endTime <? t then
    d ← sub endTime startTime;
    Err (Mammon__WeightChangeDurationIsBelowMin d
           MINIMUM_WEIGHT_CHANGE_DURATION)
  else Ok startTime.

(** The rebalancing steps of [updateWeightsGradually] between the schedule
    checks and the rate-limit check: the state after the yield and pool
    adjustments, the pool tokens and the target pool weights. *)
Definition rebalanceToTargets (c : Config) (x : Ctx)
    (tokenWithWeight : list TokenValue) (s : State)
  : result (State * list address * list Z * list Z) :=
  '(poolTokens, poolHoldings, _) ← getPoolTokensData c s;
  targetWeights ← getValuesFromTokenWithValues c tokenWithWeight poolTokens;
  _ ← checkWeights targetWeights;
  let underlyingIndexes := getUnderlyingIndexes c in
  s ← adjustYieldTokens c x poolTokens underlyingIndexes poolHoldings
        targetWeights s;
  '(s, targetPoolWeights) ←
    adjustPoolWeights c x underlyingIndexes poolHoldings targetWeights s;
  Ok (s, poolTokens, targetWeights, targetPoolWeights).

(** [updateWeightsGradually(tokenWithWeight, startTime, endTime)] *)
Definition updateWeightsGradually (c : Config) (x : Ctx)
    (tokenWithWeight : list TokenValue) (startTime endTime : Z) (s : State)
  : result State :=
  _ ← nonReentrant s;
  _ ← onlyGuardian x s;
  _ ← whenInitialized s;
  _ ← whenNotFinalized s;
  startTime ← checkWeightChangeSchedule x startTime endTime;
  '(s, poolTokens, targetWeights, targetPoolWeights) ←
    rebalanceToTargets c x tokenWithWeight s;
  _ ← checkWeightChangeRatio c x s poolTokens targetPoolWeights startTime
        endTime;
  s ← pool_updateWeightsGradually x startTime endTime poolTokens
        targetPoolWeights s;
  Ok (emit (EvUpdateWeightsGradually startTime endTime targetWeights) s).

(** The payout of [claimGuardianFees], after the fees of a calling guardian
    have been locked: every ledger entry of the caller is transferred and
    zeroed, and the row of a caller who is not the guardian is deleted. *)
Definition payGuardianFees (c : Config) (x : Ctx) (s : State)
  : result State :=
  _ ← require (negb (length (ledger s (msg_sender x)) =? 0)%nat)
        (Mammon__NoAvailableFeeForCaller (msg_sender x));
  tokens ← getTokens c s;
  let fees := ledger s (msg_sender x) in
  s ← for_loop (numTokens c) (λ i s,
      fee ← get fees i;
      oldTotal ← get (guardiansFeeTotal s) i;
      newTotal ← sub oldTotal fee;
      total ← set (guardiansFeeTotal s) i newTotal;
      let s := set_guardiansFeeTotal total s in
      row ← set (ledger s (msg_sender x)) i 0;
      let s := set_guardiansFee (<[msg_sender x := row]> (guardiansFee s)) s in
      t ← get tokens i;
      erc20_transfer t (this c) (msg_sender x) fee s) s;
  let s := if decide (msg_sender x ≠ guardian s)
           then set_guardiansFee (delete (msg_sender x) (guardiansFee s)) s
           else s in
  Ok (emit (EvDistributeGuardianFees (msg_sender x) fees) s).

(** [claimGuardianFees()] *)
Definition claimGuardianFees (c : Config) (x : Ctx) (s : State)
  : result State :=
  _ ← nonReentrant s;
  _ ← whenInitialized s;
  _ ← whenNotFinalized s;
  s ← (if decide (msg_sender x = guardian s)
       then lockGuardianFees c x false s else Ok s);
  payGuardianFees c x s.

(** A transaction either commits the state its call returns or, on a
    revert, leaves the state as it was. *)
Definition transact (call : State → result State) (s : State)
  : State * option Error :=
  match call s with
  | Ok s' => (s', None)
  | Err e => (s, Some e)
  end.

(** ** A sample deployment

    Two pool tokens (11 and 12, registered in the Balancer vault after the
    pool's own token 10) with weights 0.5/0.5 and 100 units each in the pool;
    token 11 is the numeraire, token 12 has an 8-decimal feed at price 1.
    Two yield tokens: 21 wraps token 11 and is directly withdrawable, 22 wraps
    token 12 and is not; the vault holds 10 shares of each, at a share price
    of 1.  The vault is 100, the Balancer vault 200, the owner 1 and the
    guardian 2.  The vault was created and funded at time 1000. *)
Definition ex_config (managementFee : Z) : Config :=
  {| this := 100%N;
     bVault := 200%N;
     oracleUnits := [0; 10 ^ 8];
     yieldTokenInfos :=
       [mkYieldToken 21%N 0 true; mkYieldToken 22%N 1 false];
     numeraireAssetIndex := 0;
     createdAt := 1000;
     minFeeDuration := 1000;
     minReliableVaultValue := ONE;
     minSignificantDepositValue := 20 * ONE;
     minYieldActionThreshold := ONE;
     maxOracleSpotDivergence := 11 * 10 ^ 17;
     maxOracleDelay := 18000;
     managementFee := managementFee |}.

Definition ex_wrapper (asset : address) : Wrapper :=
  {| w_asset := asset;
     w_paused := false;
     w_useMaxDepositAmount := false;
     w_maxDepositAmount := 0;
     w_useMaxWithdrawalAmount := false;
     w_maxWithdrawalAmount := 0;
     w_rate := ONE |}.

Definition ex_state : State :=
  {| initialized := true;
     finalized := false;
     oraclesEnabled := true;
     owner := 1%N;
     guardian := 2%N;
     lastFeeCheckpoint := 1000;
     guardiansFee := {[ 2%N := [0; 0; 0; 0] ]};
     guardiansFeeTotal := [0; 0; 0; 0];
     reentrancyEntered := false;
     erc20 :=
       list_to_map
         [((11%N, 200%N), 100 * ONE); ((12%N, 200%N), 100 * ONE);
          ((11%N, 1%N), 1000 * ONE); ((12%N, 1%N), 1000 * ONE);
          ((21%N, 1%N), 100 * ONE); ((22%N, 1%N), 100 * ONE);
          ((21%N, 100%N), 10 * ONE); ((22%N, 100%N), 10 * ONE);
          ((11%N, 21%N), 500 * ONE); ((12%N, 22%N), 500 * ONE)];
     bv_tokens := [10%N; 11%N; 12%N];
     bv_balances := [(2 ^ 100, 0); (100 * ONE, 0); (100 * ONE, 0)];
     bv_lastChangeBlock := 7;
     pool_startTime := 1000;
     pool_endTime := 1000;
     pool_startWeights := [5 * 10 ^ 17; 5 * 10 ^ 17];
     pool_endWeights := [5 * 10 ^ 17; 5 * 10 ^ 17];
     pool_swapFee := 10 ^ 12;
     pool_swapEnabled := true;
     wrappers := {[ 21%N := ex_wrapper 11%N; 22%N := ex_wrapper 12%N ]};
     oracleFeeds := [(0, 0); (10 ^ 8, 1400)];
     events := [] |}.

(** Calls by the owner and by the guardian at time 1500. *)
Definition ex_owner_call : Ctx :=
  {| msg_sender := 1%N; block_timestamp := 1500; block_number := 8 |}.
Definition ex_guardian_call : Ctx :=
  {| msg_sender := 2%N; block_timestamp := 1500; block_number := 8 |}.

(** At time 30000 the feed of the sample deployment, last updated at 1400,
    is older than the maximum delay of 18000. *)
Definition ex_late_guardian_call : Ctx :=
  {| msg_sender := 2%N; block_timestamp := 30000; block_number := 9 |}.

(** The sample deployment with both yield wrappers paused: their
    [maxDeposit] and [maxWithdraw] revert. *)
Definition ex_paused_wrapper (asset : address) : Wrapper :=
  {| w_asset := asset;
     w_paused := true;
     w_useMaxDepositAmount := false;
     w_maxDepositAmount := 0;
     w_useMaxWithdrawalAmount := false;
     w_maxWithdrawalAmount := 0;
     w_rate := ONE |}.

Definition ex_paused_state : State :=
  set_wrappers
    {[ 21%N := ex_paused_wrapper 11%N; 22%N := ex_paused_wrapper 12%N ]}
    ex_state.

Definition ex_values (a b c d : Z) : list TokenValue :=
  [mkTokenValue 11%N a; mkTokenValue 12%N b;
   mkTokenValue 21%N c; mkTokenValue 22%N d].

(** The same deployment without yield tokens, with the pool at weights
    [w0]/[w1]. *)
Definition ex_plain_config (managementFee : Z) : Config :=
  {| this := 100%N;
     bVault := 200%N;
     oracleUnits := [0; 10 ^ 8];
     yieldTokenInfos := [];
     numeraireAssetIndex := 0;
     createdAt := 1000;
     minFeeDuration := 1000;
     minReliableVaultValue := ONE;
     minSignificantDepositValue := 20 * ONE;
     minYieldActionThreshold := ONE;
     maxOracleSpotDivergence := 11 * 10 ^ 17;
     maxOracleDelay := 18000;
     managementFee := managementFee |}.

Definition ex_plain_state (w0 w1 : Z) : State :=
  {| initialized := true;
     finalized := false;
     oraclesEnabled := true;
     owner := 1%N;
     guardian := 2%N;
     lastFeeCheckpoint := 1000;
     guardiansFee := {[ 2%N := [0; 0] ]};
     guardiansFeeTotal := [0; 0];
     reentrancyEntered := false;
     erc20 :=
       list_to_map
         [((11%N, 200%N), 100 * ONE); ((12%N, 200%N), 100 * ONE);
          ((11%N, 1%N), 1000 * ONE); ((12%N, 1%N), 1000 * ONE)];
     bv_tokens := [10%N; 11%N; 12%N];
     bv_balances := [(2 ^ 100, 0); (100 * ONE, 0); (100 * ONE, 0)];
     bv_lastChangeBlock := 7;
     pool_startTime := 1000;
     pool_endTime := 1000;
     pool_startWeights := [w0; w1];
     pool_endWeights := [w0; w1];
     pool_swapFee := 10 ^ 12;
     pool_swapEnabled := true;
     wrappers := ∅;
     oracleFeeds := [(0, 0); (10 ^ 8, 1400)];
     events := [] |}.

Definition ex_plain_values (a b : Z) : list TokenValue :=
  [mkTokenValue 11%N a; mkTokenValue 12%N b].

(** A call by the owner at time 30000. *)
Definition ex_late_owner_call : Ctx :=
  {| msg_sender := 1%N; block_timestamp := 30000; block_number := 9 |}.

(** The deployment without yield tokens when the pool is left with one wei
    of the numeraire against [10^34] wei of token 12, whose feed answers 1
    (a price of [10^-8]). *)
Definition ex_thin_state : State :=
  set_oracleFeeds [(0, 0); (1, 1400)]
    (set_bv_balances [(2 ^ 100, 0); (1, 0); (10 ^ 34, 0)]
       (ex_plain_state (5 * 10 ^ 17) (5 * 10 ^ 17))).

(** A deployment with three pool tokens (11, the numeraire, 12 and 13, both
    with 8-decimal feeds) and no yield tokens.  The pool holds 100 units of
    token 11, [h12] of token 12 and [h13] of token 13 at weights
    0.34/0.33/0.33; the feeds answer a price of 1 and were last updated at
    [u12] and [u13]. *)
Definition ex_three_config : Config :=
  {| this := 100%N;
     bVault := 200%N;
     oracleUnits := [0; 10 ^ 8; 10 ^ 8];
     yieldTokenInfos := [];
     numeraireAssetIndex := 0;
     createdAt := 1000;
     minFeeDuration := 1000;
     minReliableVaultValue := ONE;
     minSignificantDepositValue := 20 * ONE;
     minYieldActionThreshold := ONE;
     maxOracleSpotDivergence := 11 * 10 ^ 17;
     maxOracleDelay := 18000;
     managementFee := 0 |}.

Definition ex_three_state (h12 h13 u12 u13 : Z) : State :=
  {| initialized := true;
     finalized := false;
     oraclesEnabled := true;
     owner := 1%N;
     guardian := 2%N;
     lastFeeCheckpoint := 1000;
     guardiansFee := {[ 2%N := [0; 0; 0] ]};
     guardiansFeeTotal := [0; 0; 0];
     reentrancyEntered := false;
     erc20 :=
       list_to_map
         [((11%N, 200%N), 100 * ONE); ((12%N, 200%N), h12);
          ((13%N, 200%N), h13);
          ((11%N, 1%N), 1000 * ONE); ((12%N, 1%N), 1000 * ONE);
          ((13%N, 1%N), 1000 * ONE)];
     bv_tokens := [10%N; 11%N; 12%N; 13%N];
     bv_balances := [(2 ^ 100, 0); (100 * ONE, 0); (h12, 0); (h13, 0)];
     bv_lastChangeBlock := 7;
     pool_startTime := 1000;
     pool_endTime := 1000;
     pool_startWeights := [34 * 10 ^ 16; 33 * 10 ^ 16; 33 * 10 ^ 16];
     pool_endWeights := [34 * 10 ^ 16; 33 * 10 ^ 16; 33 * 10 ^ 16];
     pool_swapFee := 10 ^ 12;
     pool_swapEnabled := true;
     wrappers := ∅;
     oracleFeeds := [(0, 0); (10 ^ 8, u12); (10 ^ 8, u13)];
     events := [] |}.

Definition ex_three_values (a b c : Z) : list TokenValue :=
  [mkTokenValue 11%N a; mkTokenValue 12%N b; mkTokenValue 13%N c].

(** ** The specification's wording of some steps *)

(** Section 4.3, step 1: limits on both times, clamping of the start,
    end-before-start, minimum duration. *)
Definition weightChangeScheduleSpec (now startTime endTime : Z) : result Z :=
  if MAX_UINT32 <? startTime then
    Err (Mammon__WeightChangeStartTimeIsAboveMax startTime MAX_UINT32)
  else if MAX_UINT32 <? endTime then
    Err (Mammon__WeightChangeEndTimeIsAboveMax endTime MAX_UINT32)
  else
    let start := Z.max now startTime in
    if endTime <? start then Err Mammon__WeightChangeEndBeforeStart
    else if endTime - start <? MINIMUM_WEIGHT_CHANGE_DURATION then
      Err (Mammon__WeightChangeDurationIsBelowMin (endTime - start)
             MINIMUM_WEIGHT_CHANGE_DURATION)
    else Ok start.

(** Section 4.4: the seconds elapsed since the last fee checkpoint, and the
    same plus the time remaining until [createdAt + minFeeDuration]. *)
Definition elapsedFeeIndex (x : Ctx) (s : State) : Z :=
  Z.max 0 (block_timestamp x - lastFeeCheckpoint s).

Definition guaranteedFeeIndex (c : Config) (x : Ctx) (s : State) : Z :=
  elapsedFeeIndex x s
  + Z.max 0 (createdAt c + minFeeDuration c - block_timestamp x).

(** The times of a call are unsigned and far from the end of the uint256
    range. *)
Definition timesInRange (c : Config) (x : Ctx) (s : State) : Prop :=
  0 ≤ lastFeeCheckpoint s ∧ 0 ≤ block_timestamp x ∧ 0 ≤ createdAt c ∧
  0 ≤ minFeeDuration c ∧
  block_timestamp x + createdAt c + minFeeDuration c ≤ MAX_UINT256.

(** Section 4.3, step 9: the change ratio [max(current,target) /
    min(current,target)] in fixed point. *)
Definition changeRatio (current target : Z) : Z :=
  ONE * Z.max current target / Z.min current target.

(** The failure of the rate-limit check: [WeightChangeRatioIsAboveMax] with
    an actual ratio above the maximum. *)
Definition isRatioAboveMax (maximumRatio : Z) (e : Error) : Prop :=
  ∃ token actual,
    e = Mammon__WeightChangeRatioIsAboveMax token actual maximumRatio
    ∧ maximumRatio < actual.

(** A call of [updateWeightsGradually] that gets as far as the rate-limit
    check: the modifiers and the schedule checks pass (with clamped start
    [start]) and the rebalancing steps succeed, leaving state [s1], the pool
    tokens and the target pool weights. *)
Definition reachesRateLimitCheck (c : Config) (x : Ctx)
    (tokenWithWeight : list TokenValue) (startTime endTime : Z) (s : State)
    (start : Z) (s1 : State) (poolTokens : list address)
    (targetWeights targetPoolWeights : list Z) : Prop :=
  reentrancyEntered s = false ∧ msg_sender x = guardian s ∧
  initialized s = true ∧ finalized s = false ∧
  checkWeightChangeSchedule x startTime endTime = Ok start ∧
  rebalanceToTargets c x tokenWithWeight s
  = Ok (s1, poolTokens, targetWeights, targetPoolWeights).

(** Section 4.2, the price selection: the divergence of a slot is the ratio
    [max(oracle, spot) / min(oracle, spot)] in fixed point. *)
Definition divergenceRatio (oraclePrice spotPrice : Z) : result Z :=
  mulDiv (Z.max oraclePrice spotPrice) ONE (Z.min oraclePrice spotPrice).

(** The divergence of slot [i] can be computed and is [r]. *)
Definition slotDivergence (oraclePrices spotPrices : list Z) (i : nat) (r : Z)
  : Prop :=
  ∃ o p, oraclePrices !! i = Some o ∧ spotPrices !! i = Some p ∧
         divergenceRatio o p = Ok r.

(** The reads at the start of [getDeterminedPrices] succeed, with the oracle
    prices and their timestamps, the spot prices and the value of the vault
    at the spot prices. *)
Definition pricesRead (c : Config) (x : Ctx) (s : State)
    (oraclePrices updatedAt spotPrices : list Z) (value : Z) : Prop :=
  ∃ poolHoldings underlyingBalances underlyingTotalBalances,
    getPoolHoldings c s = Ok poolHoldings ∧
    getOraclePrices c s = Ok (oraclePrices, updatedAt) ∧
    getSpotPrices c x s poolHoldings = Ok spotPrices ∧
    getUnderlyingBalances c s = Ok underlyingBalances ∧
    getUnderlyingTotalBalances c (getUnderlyingIndexes c) poolHoldings
      underlyingBalances = Ok underlyingTotalBalances ∧
    getValue c underlyingTotalBalances spotPrices = Ok value.

(** A deposit of [amounts] is priced at the oracle prices: the reads of
    [getDeterminedPrices] succeed and the vault is worth less than
    [minReliableVaultValue] at the spot prices, or the deposit is worth at
    least [minSignificantDepositValue] at them. *)
Definition oraclePriced (c : Config) (x : Ctx) (s : State) (amounts : list Z)
  : Prop :=
  ∃ oraclePrices updatedAt spotPrices value,
    pricesRead c x s oraclePrices updatedAt spotPrices value ∧
    (value < minReliableVaultValue c
     ∨ ∃ depositValue,
         getValue c amounts spotPrices = Ok depositValue ∧
         minSignificantDepositValue c ≤ depositValue).

(** Section 4.4, claiming: the state in which the payout of a claim starts.
    The modifiers pass and, for the current guardian, the fees accrued since
    the last checkpoint have been locked into the ledger first. *)
Definition claimStarts (c : Config) (x : Ctx) (s s1 : State) : Prop :=
  reentrancyEntered s = false ∧ initialized s = true ∧ finalized s = false ∧
  if decide (msg_sender x = guardian s)
  then lockGuardianFees c x false s = Ok s1
  else s1 = s.

(** The ledger row of [caller] has an entry for every token, and each entry
    is covered by the aggregate of outstanding fees and by the vault's
    balance of the token. *)
Definition ledgerCovered (c : Config) (caller : address)
    (tokens : list address) (s : State) : Prop :=
  length (ledger s caller) = numTokens c ∧
  length (guardiansFeeTotal s) = numTokens c ∧
  ∀ i t fee total,
    tokens !! i = Some t → ledger s caller !! i = Some fee →
    guardiansFeeTotal s !! i = Some total →
    fee ≤ total ∧ fee ≤ balanceOf s t (this c).

(** What a payout does to slot [i]: the entry of the ledger goes from the
    vault to the caller and leaves the aggregate of outstanding fees. *)
Definition slotPaid (c : Config) (caller : address) (tokens : list address)
    (s s' : State) (i : nat) : Prop :=
  ∃ t fee total,
    tokens !! i = Some t ∧ ledger s caller !! i = Some fee ∧
    guardiansFeeTotal s !! i = Some total ∧
    balanceOf s' t caller = balanceOf s t caller + fee ∧
    balanceOf s' t (this c) = balanceOf s t (this c) - fee ∧
    guardiansFeeTotal s' !! i = Some (total - fee).

(** The part of the state that the bookkeeping of fees, deposits and
    withdrawals never writes: the flags, the roles, the registered pool
    tokens, the swap fee, the wrappers and the oracle feeds. *)
Definition setup (s : State)
  : bool * bool * bool * address * address * bool * list address * Z * Z
    * gmap address Wrapper * list (Z * Z) :=
  (initialized s, finalized s, oraclesEnabled s, owner s, guardian s,
   reentrancyEntered s, bv_tokens s, bv_lastChangeBlock s, pool_swapFee s,
   wrappers s, oracleFeeds s).

(** The setup together with the fee books: what deposits and withdrawals
    leave alone once the fees are locked. *)
Definition books (s : State) :=
  (setup s, guardiansFee s, guardiansFeeTotal s, lastFeeCheckpoint s).

(** Section 6, the custody adapter: the cash and managed balances of a slot
    after an operation on [amount]. *)
Definition poolBalanceAfter (kind : PoolBalanceOpKind) (amount cash managed : Z)
  : Z * Z :=
  match kind with
  | WITHDRAW => (cash - amount, managed + amount)
  | DEPOSIT => (cash + amount, managed - amount)
  | UPDATE => (cash, amount)
  end.

(** Section 5, the deployment: the registered tokens and the yield tokens
    are pairwise distinct, the pool tokens are fully in cash between two
    calls of the vault, and every yield token wraps the pool token of its
    underlying index (checked at deployment). *)
Definition distinctTokens (c : Config) (s : State) : Prop :=
  NoDup (bv_tokens s ++ getYieldTokens c).

Definition poolInCash (c : Config) (s : State) : Prop :=
  ∀ i cash managed,
    (i < numPoolTokens c)%nat →
    bv_balances s !! (i + 1)%nat = Some (cash, managed) → managed = 0.

Definition wrappersOfPoolTokens (c : Config) (s : State) : Prop :=
  ∀ i yt w,
    yieldTokenInfos c !! i = Some yt →
    wrappers s !! yt_token yt = Some w →
    bv_tokens s !! (yt_underlyingIndex yt + 1)%nat = Some (w_asset w).

(** No fee accrues in a call: the management fee is zero, or the fees were
    last locked at a time not before the call's. *)
Definition feesSettled (c : Config) (x : Ctx) (s : State) : Prop :=
  managementFee c = 0 ∨ block_timestamp x ≤ lastFeeCheckpoint s.

(** Section 7, value conservation: the setting of a deposit by call [x]
    followed by a withdrawal by call [x'] of the same amounts (unsigned, as
    the ABI has them), with no fee accruing in either call, in a deployment
    as above whose owner is not the vault itself. *)
Definition roundTripSetting (c : Config) (x x' : Ctx)
    (tokenWithAmount : list TokenValue) (s : State) : Prop :=
  feesSettled c x s ∧ feesSettled c x' s ∧
  distinctTokens c s ∧ wrappersOfPoolTokens c s ∧ poolInCash c s ∧
  owner s ≠ this c ∧
  Forall (λ tv, 0 ≤ tv_value tv) tokenWithAmount.

(** The holdings [after] equal the holdings [before] at every pool token
    slot and at every slot of a directly withdrawable yield token. *)
Definition holdingsRestored (c : Config) (before after : list Z) : Prop :=
  (∀ i, (i < numPoolTokens c)%nat → after !! i = before !! i) ∧
  (∀ i yt,
     yieldTokenInfos c !! i = Some yt → yt_isWithdrawable yt = true →
     after !! (numPoolTokens c + i)%nat = before !! (numPoolTokens c + i)%nat).

(** Section 4.3, the yield adjustment: the notional value of an action on a
    yield slot is the raw amount when the slot's underlying asset is the
    numeraire, and the amount at the oracle price otherwise. *)
Definition actionValue (c : Config) (amount oraclePrice : Z)
    (underlyingIndex : nat) : Z :=
  if decide (underlyingIndex = numeraireAssetIndex c) then amount
  else amount * oraclePrice / ONE.

(** The product taken for that value fits a uint256. *)
Definition actionValueInRange (c : Config) (amount oraclePrice : Z)
    (underlyingIndex : nat) : Prop :=
  underlyingIndex = numeraireAssetIndex c ∨ amount * oraclePrice ≤ MAX_UINT256.

(** Section 3, the fixed-point base: the truncated quotients
    [weights[i] * ONE / weightSum] to which a normalization adds the rounding
    residue at index 0. *)
Definition truncatedQuotients (weights : list Z) (weightSum : Z) : list Z :=
  map (λ w, w * ONE / weightSum) weights.

(** * Properties *)

(** ** The error monad and checked arithmetic *)

Lemma bind_Ok {A B} (m : result A) (f : A → result B) (b : B) :
  m ≫= f = Ok b ↔ ∃ a, m = Ok a ∧ f a = Ok b.
Proof.
  destruct m as [a|e]; cbn; split.
  - intros H. exists a. auto.
  - intros (a' & Ha & H). congruence.
  - discriminate.
  - intros (a' & Ha & _). discriminate.
Qed.

Lemma bind_Err {A B} (m : result A) (f : A → result B) (e : Error) :
  m = Err e → m ≫= f = Err e.
Proof. intros ->. reflexivity. Qed.

Lemma bind_eq_Ok {A B} (m : result A) (f : A → result B) (a : A) :
  m = Ok a → m ≫= f = f a.
Proof. intros ->. reflexivity. Qed.

Lemma require_Ok (b : bool) (e : Error) (u : unit) :
  require b e = Ok u ↔ b = true.
Proof. destruct b, u; cbn; split; congruence. Qed.

Lemma add_Ok (a b r : Z) : add a b = Ok r ↔ r = a + b ∧ a + b ≤ MAX_UINT256.
Proof.
  unfold add. destruct (Z.leb_spec (a + b) MAX_UINT256); split;
    try (intros [= <-]; split; [reflexivity | lia]);
    try (intros [-> ?]; reflexivity); try discriminate; intros [? ?]; lia.
Qed.

Lemma sub_Ok (a b r : Z) : sub a b = Ok r ↔ r = a - b ∧ b ≤ a.
Proof.
  unfold sub. destruct (Z.leb_spec b a); split;
    try (intros [= <-]; split; [reflexivity | lia]);
    try (intros [-> ?]; reflexivity); try discriminate; intros [? ?]; lia.
Qed.

Lemma mul_Ok (a b r : Z) : mul a b = Ok r ↔ r = a * b ∧ a * b ≤ MAX_UINT256.
Proof.
  unfold mul. destruct (Z.leb_spec (a * b) MAX_UINT256); split;
    try (intros [= <-]; split; [reflexivity | lia]);
    try (intros [-> ?]; reflexivity); try discriminate; intros [? ?]; lia.
Qed.

Lemma div_Ok (a b r : Z) : div a b = Ok r ↔ r = a / b ∧ b ≠ 0.
Proof.
  unfold div. destruct (Z.eqb_spec b 0); split;
    try (intros [= <-]; split; [reflexivity | lia]);
    try (intros [-> ?]; reflexivity); try discriminate; intros [? ?]; lia.
Qed.

Lemma mulDiv_Ok (a b d r : Z) :
  mulDiv a b d = Ok r ↔ r = a * b / d ∧ a * b ≤ MAX_UINT256 ∧ d ≠ 0.
Proof.
  unfold mulDiv. rewrite bind_Ok. split.
  - intros (p & Hp & Hd). apply mul_Ok in Hp as [-> ?].
    apply div_Ok in Hd as [-> ?]. auto.
  - intros (-> & ? & ?). exists (a * b). split.
    + apply mul_Ok. auto.
    + apply div_Ok. auto.
Qed.

Lemma get_Ok {A} (l : list A) (i : nat) (v : A) :
  get l i = Ok v ↔ l !! i = Some v.
Proof. unfold get. destruct (l !! i); split; congruence. Qed.

Lemma set_Ok {A} (l l' : list A) (i : nat) (v : A) :
  set l i v = Ok l' ↔ (i < length l)%nat ∧ l' = <[i := v]> l.
Proof.
  unfold set. destruct (decide (i < length l)%nat); split.
  - intros [= <-]. auto.
  - intros [_ ->]. reflexivity.
  - discriminate.
  - intros [? _]. lia.
Qed.

(** Inversion of a successful run, one monadic step at a time. *)
Ltac ok_step :=
  match goal with
  | H : Ok _ = Ok _ |- _ => injection H as H; try subst
  | H : Err _ = Ok _ |- _ => discriminate H
  | H : (_ ≫= _) = Ok _ |- _ =>
      let a := fresh "v" in
      let Ha := fresh "Hv" in
      apply bind_Ok in H as (a & Ha & H)
  | H : require _ _ = Ok _ |- _ => apply require_Ok in H
  | H : add _ _ = Ok _ |- _ => apply add_Ok in H as [? H]
  | H : sub _ _ = Ok _ |- _ => apply sub_Ok in H as [? H]
  | H : mul _ _ = Ok _ |- _ => apply mul_Ok in H as [? H]
  | H : div _ _ = Ok _ |- _ => apply div_Ok in H as [? H]
  | H : mulDiv _ _ _ = Ok _ |- _ => apply mulDiv_Ok in H as (? & ? & H)
  | H : get _ _ = Ok _ |- _ => apply get_Ok in H
  | H : set _ _ _ = Ok _ |- _ => apply set_Ok in H as [? H]
  end.
Ltac ok_inv := repeat ok_step.

(** ** Loops *)

(** The invariant rule for [for_from]. *)
Lemma for_from_inv {St} (P : nat → St → Prop) (body : nat → St → result St)
    (count start : nat) (s s' : St) :
  P start s →
  (∀ i t t', (start ≤ i < start + count)%nat → P i t → body i t = Ok t' →
             P (S i) t') →
  for_from start count body s = Ok s' →
  P (start + count)%nat s'.
Proof.
  revert start s. induction count as [|n IH]; intros start s H0 Hstep Hrun.
  - cbn in Hrun. injection Hrun as <-. by rewrite Nat.add_0_r.
  - cbn in Hrun. apply bind_Ok in Hrun as (t & Hb & Hrun).
    replace (start + S n)%nat with (S start + n)%nat by lia.
    apply (IH (S start) t); [ | | exact Hrun].
    + apply (Hstep start s t); [lia | exact H0 | exact Hb].
    + intros i u u' Hi. apply Hstep. lia.
Qed.

Lemma for_loop_inv {St} (P : nat → St → Prop) (body : nat → St → result St)
    (n : nat) (s s' : St) :
  P O s →
  (∀ i t t', (i < n)%nat → P i t → body i t = Ok t' → P (S i) t') →
  for_loop n body s = Ok s' →
  P n s'.
Proof.
  intros H0 Hstep Hrun.
  apply (for_from_inv P body n 0 s s' H0); [ | exact Hrun].
  intros i t t' Hi. apply Hstep. lia.
Qed.

(** A loop whose body succeeds at every index succeeds. *)
Lemma for_from_total {St} (P : nat → St → Prop) (body : nat → St → result St)
    (count start : nat) (s : St) :
  P start s →
  (∀ i t, (start ≤ i < start + count)%nat → P i t →
          ∃ t', body i t = Ok t' ∧ P (S i) t') →
  ∃ s', for_from start count body s = Ok s' ∧ P (start + count)%nat s'.
Proof.
  revert start s. induction count as [|n IH]; intros start s H0 Hstep.
  - exists s. rewrite Nat.add_0_r. auto.
  - destruct (Hstep start s) as (t & Hb & Ht); [lia | exact H0 |].
    destruct (IH (S start) t Ht) as (s' & Hrun & Hs').
    + intros i u Hi. apply Hstep. lia.
    + exists s'. cbn. rewrite Hb. cbn.
      replace (start + S n)%nat with (S start + n)%nat by lia. auto.
Qed.

(** A loop stops at the first index whose body reverts. *)
Lemma for_from_first_Err {St} (P : nat → St → Prop)
    (body : nat → St → result St) (count start k : nat) (s : St) (e : Error) :
  (start ≤ k < start + count)%nat →
  P start s →
  (∀ i t, (start ≤ i < k)%nat → P i t →
          ∃ t', body i t = Ok t' ∧ P (S i) t') →
  (∀ t, P k t → body k t = Err e) →
  for_from start count body s = Err e.
Proof.
  revert start s. induction count as [|n IH]; intros start s Hk H0 Hstep Hfail.
  - lia.
  - cbn. destruct (decide (start = k)) as [->|Hne].
    + rewrite (Hfail s H0). reflexivity.
    + destruct (Hstep start s) as (t & Hb & Ht); [lia | exact H0 |].
      rewrite Hb. cbn. apply (IH (S start) t); [lia | exact Ht | | exact Hfail].
      intros i u Hi. apply Hstep. lia.
Qed.

Lemma tabulate_Ok {A} (n : nat) (d : A) (f : nat → result A) (l : list A) :
  tabulate n d f = Ok l →
  length l = n ∧ ∀ i, (i < n)%nat → ∃ v, f i = Ok v ∧ l !! i = Some v.
Proof.
  intros Hrun. unfold tabulate in Hrun.
  apply (for_loop_inv
           (λ i arr, length arr = n ∧
                     ∀ j, (j < i)%nat → ∃ v, f j = Ok v ∧ arr !! j = Some v))
    in Hrun.
  - exact Hrun.
  - split; [apply length_replicate | intros j Hj; lia].
  - intros i arr arr' Hi [Hlen Hpre] Hb. ok_inv. subst arr'. split.
    + by rewrite length_insert.
    + intros j Hj. destruct (decide (j = i)) as [->|Hne].
      * exists v. split; [exact Hv |]. by apply list_lookup_insert_eq.
      * destruct (Hpre j) as (w & Hw & Hl); [lia |].
        exists w. split; [exact Hw |]. by rewrite list_lookup_insert_ne.
Qed.

(** ** Sums *)

Lemma sumZ_app (l k : list Z) : sumZ (l ++ k) = sumZ l + sumZ k.
Proof.
  unfold sumZ. induction l as [|a l IH]; cbn; [reflexivity | rewrite IH; lia].
Qed.

Lemma sumZ_insert (l : list Z) (i : nat) (old v : Z) :
  l !! i = Some old → sumZ (<[i := v]> l) = sumZ l - old + v.
Proof.
  intros Hl. assert (Hi : (i < length l)%nat) by (by eapply lookup_lt_Some).
  assert (E : sumZ l = sumZ (take i l) + (old + sumZ (drop (S i) l))).
  { rewrite <- (take_drop_middle l i old Hl) at 1. by rewrite sumZ_app. }
  rewrite (insert_take_drop l i v Hi), sumZ_app, E.
  change (sumZ (v :: drop (S i) l)) with (v + sumZ (drop (S i) l)). lia.
Qed.

Lemma sumZ_replicate_0 (n : nat) : sumZ (replicate n 0) = 0.
Proof. unfold sumZ. induction n as [|n IH]; cbn; [reflexivity | exact IH]. Qed.

(** ** Weight vectors sum to ONE *)

(** A loop reverts with an error in [Q] when some iteration does so in every
    state and the iterations before it pass or revert with an error in [Q]. *)
Lemma for_from_Err {St} (P : nat → St → Prop) (Q : Error → Prop)
    (body : nat → St → result St) (count start i : nat) (s : St) :
  (start ≤ i < start + count)%nat →
  P start s →
  (∀ j t, (start ≤ j < i)%nat → P j t →
          (∃ t', body j t = Ok t' ∧ P (S j) t') ∨ ∃ e, body j t = Err e ∧ Q e) →
  (∀ t, P i t → ∃ e, body i t = Err e ∧ Q e) →
  ∃ e, for_from start count body s = Err e ∧ Q e.
Proof.
  revert start s. induction count as [|n IH]; intros start s Hi H0 Hpre Hfail.
  - lia.
  - cbn. destruct (decide (start = i)) as [->|Hne].
    + destruct (Hfail s H0) as (e & He & HQ). rewrite He. cbn. eauto.
    + destruct (Hpre start s) as [(t' & Hb & Ht') | (e & He & HQ)];
        [lia | exact H0 | | ].
      * rewrite Hb. cbn. apply IH; [lia | exact Ht' | | exact Hfail].
        intros j t Hj. apply Hpre. lia.
      * rewrite He. cbn. eauto.
Qed.

(** The error of a loop is the error of one of its iterations. *)
Lemma for_from_Err_inv {St} (Q : Error → Prop) (body : nat → St → result St)
    (count start : nat) (s : St) (e : Error) :
  (∀ j t e', body j t = Err e' → Q e') →
  for_from start count body s = Err e → Q e.
Proof.
  intros Hbody. revert start s. induction count as [|n IH]; intros start s H.
  - discriminate.
  - cbn in H. destruct (body start s) as [t|e'] eqn:Hb.
    + cbn in H. by eapply IH.
    + cbn in H. injection H as <-. by eapply Hbody.
Qed.

Lemma truncatedQuotients_lookup (weights : list Z) (weightSum : Z) (i : nat) :
  truncatedQuotients weights weightSum !! i
  = (λ w, w * ONE / weightSum) <$> weights !! i.
Proof. unfold truncatedQuotients. apply list_lookup_fmap. Qed.

(** What [normalizeWeights] returns: the truncated quotients, with the
    residue [ONE - sum of the quotients] added at index 0. *)
Lemma normalizeWeights_Ok (weights : list Z) (weightSum : Z) (nw : list Z) :
  normalizeWeights weights weightSum = Ok nw →
  sumZ nw = ONE ∧ length nw = length weights ∧
  ∃ w0, weights !! 0%nat = Some w0 ∧
        nw = <[0%nat := w0 * ONE / weightSum
                        + (ONE - sumZ (truncatedQuotients weights weightSum))]>
               (truncatedQuotients weights weightSum).
Proof.
  unfold normalizeWeights. intros H.
  apply bind_Ok in H as ([arr adj] & Hloop & H).
  apply (for_loop_inv
           (λ i '(arr, adj),
              length arr = length weights ∧ adj = sumZ (take i arr) ∧
              ∀ j w, (j < i)%nat → weights !! j = Some w →
                     arr !! j = Some (w * ONE / weightSum))) in Hloop.
  - destruct Hloop as (Hlen & Hadj & Hent).
    rewrite <- Hlen, firstn_all in Hadj.
    assert (Harr : arr = truncatedQuotients weights weightSum).
    { apply list_eq. intros j. rewrite truncatedQuotients_lookup.
      destruct (weights !! j) as [w|] eqn:Hw; cbn.
      - apply Hent; [by eapply lookup_lt_Some | exact Hw].
      - apply lookup_ge_None. apply lookup_ge_None in Hw. lia. }
    ok_inv. subst nw. split; [ | split].
    + rewrite (sumZ_insert arr 0 v _ Hv). lia.
    + by rewrite length_insert.
    + destruct (weights !! 0%nat) as [w0|] eqn:Hw0.
      * exists w0. split; [reflexivity |].
        assert (v = w0 * ONE / weightSum) as ->.
        { pose proof (Hent 0%nat w0) as Hq. rewrite Hv in Hq.
          assert (Some v = Some (w0 * ONE / weightSum)) as [= ->];
            [ | reflexivity].
          apply Hq; [ | exact Hw0]. by eapply lookup_lt_Some. }
        rewrite <- Harr. f_equal. lia.
      * apply lookup_ge_None in Hw0. apply lookup_lt_Some in Hv. lia.
  - split; [apply length_replicate | split; [reflexivity | intros; lia]].
  - intros i [a1 s1] [a2 s2] Hi (Hlen & Hadj & Hent) Hb.
    cbv beta iota in Hb. ok_inv. subst. split; [ | split].
    + by rewrite length_insert.
    + rewrite (take_S_r _ i (v * ONE / weightSum)).
      * rewrite sumZ_app, take_insert_ge by lia. cbn. lia.
      * by apply list_lookup_insert_eq.
    + intros j w Hj Hw. destruct (decide (j = i)) as [->|Hne].
      * rewrite list_lookup_insert_eq by done. congruence.
      * rewrite list_lookup_insert_ne by done. apply Hent; [lia | exact Hw].
Qed.

Lemma sumZ_take_zeros (l : list Z) (n : nat) :
  (∀ j, (j < n)%nat → (j < length l)%nat → l !! j = Some 0) →
  sumZ (take n l) = 0.
Proof.
  revert l. induction n as [|n IH]; intros l Hz.
  - by rewrite take_0.
  - destruct l as [|a l]; [reflexivity |].
    assert (a = 0) as ->.
    { assert (Some a = Some 0) as [= ->]; [ | reflexivity].
      apply (Hz 0%nat); cbn; lia. }
    cbn. change (foldr Z.add 0 (take n l)) with (sumZ (take n l)).
    rewrite IH; [reflexivity |].
    intros j Hj Hl. apply (Hz (S j)); cbn; lia.
Qed.

(** What [calcNormalizedWeights] returns: [numTokens] entries that sum to
    ONE; the entry of a yield token is the truncated share of its underlying
    balance in the value, the entry of a pool token the truncated share of
    its pool weight in what the yield tokens leave, and the residue is added
    at index 0. *)
Lemma calcNormalizedWeights_Ok (c : Config) (x : Ctx) (s : State) (value : Z)
    (oraclePrices : list Z) (underlyingIndexes : list nat)
    (underlyingBalances weights : list Z) :
  calcNormalizedWeights c x s value oraclePrices underlyingIndexes
    underlyingBalances = Ok weights →
  sumZ weights = ONE ∧ length weights = numTokens c ∧
  (∀ i, (i < numYieldTokens c)%nat → (0 < numPoolTokens c + i)%nat →
        ∃ ub k p,
          underlyingBalances !! i = Some ub ∧ underlyingIndexes !! i = Some k ∧
          oraclePrices !! k = Some p ∧
          weights !! (numPoolTokens c + i)%nat = Some (ub * p / value)) ∧
  (∀ i, (0 < i < numPoolTokens c)%nat →
        ∃ pw,
          pool_getNormalizedWeights x s !! i = Some pw ∧
          weights !! i
          = Some (pw * (ONE - sumZ (drop (numPoolTokens c) weights)) / ONE)).
Proof.
  unfold calcNormalizedWeights. intros H.
  apply bind_Ok in H as ([[w1 pws] ws1] & Hyield & H).
  apply bind_Ok in H as ([w2 ws2] & Hpool & H).
  (* yield slots: entries written so far add up to the running sum *)
  apply (for_loop_inv
           (λ i '(w, p, ws),
              length w = numTokens c ∧ ws = sumZ w ∧ p = ONE - ws ∧
              (∀ j, (j < numPoolTokens c ∨ numPoolTokens c + i ≤ j)%nat →
                    (j < numTokens c)%nat → w !! j = Some 0) ∧
              ∀ j, (j < i)%nat →
                   ∃ ub k pr,
                     underlyingBalances !! j = Some ub ∧
                     underlyingIndexes !! j = Some k ∧
                     oraclePrices !! k = Some pr ∧
                     w !! (numPoolTokens c + j)%nat = Some (ub * pr / value)))
    in Hyield.
  2: { split; [apply length_replicate | split; [ | split; [ | split]]].
       - unfold new_array. by rewrite sumZ_replicate_0.
       - lia.
       - intros j _ Hj. by apply lookup_replicate_2.
       - intros j Hj. lia. }
  2: { intros i [[a p] t] [[a' p'] t'] Hi (Hlen & Hsum & Hp & Hz & Hent) Hb.
       cbv beta iota in Hb. ok_inv. subst.
       assert (Hold : a !! (numPoolTokens c + i)%nat = Some 0)
         by (apply Hz; [lia | unfold numTokens; lia]).
       split; [ | split; [ | split; [ | split]]].
       - by rewrite length_insert.
       - rewrite (sumZ_insert a (numPoolTokens c + i) 0 _ Hold). lia.
       - lia.
       - intros j Hj Hjn. rewrite list_lookup_insert_ne by lia.
         apply Hz; [lia | exact Hjn].
       - intros j Hj. destruct (decide (j = i)) as [->|Hne].
         + exists v, v0, v1. rewrite list_lookup_insert_eq by lia. done.
         + destruct (Hent j) as (ub & k & pr & ? & ? & ? & Hl); [lia |].
           exists ub, k, pr. rewrite list_lookup_insert_ne by lia. done. }
  destruct Hyield as (Hlen1 & Hsum1 & Hpws & Hz1 & Hent1).
  assert (Hdrop1 : sumZ (drop (numPoolTokens c) w1) = ws1).
  { rewrite Hsum1. rewrite <- (take_drop (numPoolTokens c) w1) at 2.
    rewrite sumZ_app, sumZ_take_zeros; [lia |].
    intros j Hj Hl. apply Hz1; [lia | lia]. }
  (* pool slots *)
  apply (for_loop_inv
           (λ i '(w, ws),
              length w = numTokens c ∧ ws = sumZ w ∧
              (∀ j, (i ≤ j < numPoolTokens c)%nat → w !! j = Some 0) ∧
              drop (numPoolTokens c) w = drop (numPoolTokens c) w1 ∧
              ∀ j, (j < i)%nat →
                   ∃ pw, pool_getNormalizedWeights x s !! j = Some pw ∧
                         w !! j = Some (pw * pws / ONE))) in Hpool.
  2: { split; [exact Hlen1 | split; [exact Hsum1 | split; [ | split]]].
       - intros j Hj. apply Hz1; [lia | unfold numTokens; lia].
       - reflexivity.
       - intros j Hj. lia. }
  2: { intros i [a t] [a' t'] Hi (Hlen & Hsum & Hz & Hdr & Hent) Hb.
       cbv beta iota in Hb. ok_inv. subst.
       split; [ | split; [ | split; [ | split]]].
       - by rewrite length_insert.
       - rewrite (sumZ_insert a i 0); [lia | apply Hz; lia].
       - intros j Hj. rewrite list_lookup_insert_ne by lia. apply Hz. lia.
       - rewrite drop_insert_lt by lia. exact Hdr.
       - intros j Hj. destruct (decide (j = i)) as [->|Hne].
         + exists v.
           rewrite list_lookup_insert_eq by (unfold numTokens in *; lia).
           done.
         + destruct (Hent j) as (pw & ? & Hl); [lia |].
           exists pw. rewrite list_lookup_insert_ne by lia. done. }
  destruct Hpool as (Hlen2 & Hsum2 & _ & Hdr2 & Hent2).
  assert (Hfinal : ∃ t, weights = <[0%nat := t]> w2 ∧ sumZ weights = ONE).
  { destruct (ONE <? ws2); ok_inv; subst; eexists; (split; [reflexivity |]);
      rewrite (sumZ_insert w2 0 v0 _ Hv0); lia. }
  destruct Hfinal as (t & -> & Hone).
  split; [exact Hone | split; [by rewrite length_insert | split]].
  - intros i Hi Hpos. destruct (Hent1 i Hi) as (ub & k & pr & ? & ? & ? & Hl).
    exists ub, k, pr. rewrite list_lookup_insert_ne by lia.
    split; [done | split; [done | split; [done |]]].
    assert (Hlk : w2 !! (numPoolTokens c + i)%nat
                  = w1 !! (numPoolTokens c + i)%nat).
    { rewrite <- !lookup_drop, Hdr2. reflexivity. }
    by rewrite Hlk.
  - intros i Hi. destruct (Hent2 i) as (pw & ? & Hl); [lia |].
    exists pw. rewrite list_lookup_insert_ne by lia.
    split; [done |]. rewrite drop_insert_lt by lia.
    rewrite Hdr2, Hdrop1, Hl. by rewrite Hpws.
Qed.

Lemma getNormalizedWeights_Ok (c : Config) (x : Ctx) (s : State)
    (weights : list Z) :
  getNormalizedWeights c x s = Ok weights →
  sumZ weights = ONE ∧ length weights = numTokens c.
Proof.
  unfold getNormalizedWeights. intros H.
  apply bind_Ok in H as (poolHoldings & _ & H).
  apply bind_Ok in H as (underlyingBalances & _ & H).
  apply bind_Ok in H as ([oraclePrices updatedAt] & _ & H).
  apply bind_Ok in H as (total & _ & H).
  apply bind_Ok in H as (value & _ & H).
  apply calcNormalizedWeights_Ok in H as (? & ? & _). done.
Qed.

Lemma sumZ_nonneg (l : list Z) : Forall (λ w, 0 ≤ w) l → 0 ≤ sumZ l.
Proof.
  unfold sumZ. induction 1 as [|a l Ha _ IH]; cbn; [lia | lia].
Qed.

Lemma sumZ_take_le (l : list Z) (i : nat) :
  Forall (λ w, 0 ≤ w) l → sumZ (take i l) ≤ sumZ l.
Proof.
  intros Hl. rewrite <- (take_drop i l) at 2. rewrite sumZ_app.
  assert (0 ≤ sumZ (drop i l)); [ | lia].
  apply sumZ_nonneg. by apply Forall_drop.
Qed.

(** [normalizeWeights] succeeds on a non-empty array of weights whose
    products with ONE fit a uint256 and whose sum does not exceed the
    (positive) [weightSum] it is given. *)
Lemma normalizeWeights_total (weights : list Z) (weightSum : Z) :
  weights ≠ [] →
  0 < weightSum →
  Forall (λ w, 0 ≤ w) weights →
  sumZ weights ≤ weightSum →
  Forall (λ w, w * ONE ≤ MAX_UINT256) weights →
  ∃ nw, normalizeWeights weights weightSum = Ok nw.
Proof.
  intros Hne Hws Hpos Hsum Hmax.
  assert (HONE : 0 < ONE) by (unfold ONE; lia).
  assert (HM : 2 * ONE ≤ MAX_UINT256) by (unfold ONE, MAX_UINT256; lia).
  unfold normalizeWeights, for_loop.
  destruct (for_from_total
      (λ i '(arr, adj),
         length arr = length weights ∧ 0 ≤ adj ∧
         adj * weightSum ≤ ONE * sumZ (take i weights) ∧
         0 ≤ default 0 (arr !! 0%nat) ≤ adj)
      (λ i '(newWeights, adjustedSum),
         w ← get weights i;
         q ← mulDiv w ONE weightSum;
         newWeights ← set newWeights i q;
         adjustedSum ← add adjustedSum q;
         Ok (newWeights, adjustedSum))
      (length weights) 0 (new_array (length weights), 0))
    as ([arr adj] & Hrun & Hlen & Hadj0 & Hadj & Hnw0).
  - split; [apply length_replicate | split; [lia | split]].
    + rewrite take_0. change (sumZ []) with 0. lia.
    + unfold new_array. destruct (length weights); cbn; lia.
  - intros i [arr adj] Hi (Hlen & Hadj0 & Hadj & Hnw0).
    destruct (lookup_lt_is_Some_2 weights i) as [w Hw]; [lia |].
    assert (Hw0 : 0 ≤ w) by exact (Forall_lookup_1 _ _ _ _ Hpos Hw).
    assert (Hw1 : w * ONE ≤ MAX_UINT256)
      by exact (Forall_lookup_1 _ _ _ _ Hmax Hw).
    assert (Htake : sumZ (take (S i) weights) = sumZ (take i weights) + w).
    { rewrite (take_S_r _ _ _ Hw), sumZ_app. cbn. lia. }
    assert (Hle : sumZ (take (S i) weights) ≤ weightSum).
    { pose proof (sumZ_take_le weights (S i) Hpos). lia. }
    assert (Hpre : 0 ≤ sumZ (take i weights)).
    { apply sumZ_nonneg. by apply Forall_take. }
    assert (Hq : 0 ≤ w * ONE / weightSum ∧
                 w * ONE / weightSum * weightSum ≤ w * ONE).
    { split; [apply Z.div_pos; nia |].
      rewrite Z.mul_comm. apply Z.mul_div_le. lia. }
    assert (Hadj1 : (adj + w * ONE / weightSum) * weightSum
                    ≤ ONE * sumZ (take (S i) weights)) by nia.
    assert (Hbound : adj + w * ONE / weightSum ≤ ONE) by nia.
    exists (<[i := w * ONE / weightSum]> arr, adj + w * ONE / weightSum).
    split.
    + rewrite (proj2 (get_Ok _ _ _) Hw). cbn.
      rewrite (proj2 (mulDiv_Ok w ONE weightSum _))
        by (split; [reflexivity | split; [exact Hw1 | lia]]).
      cbn. rewrite (proj2 (set_Ok arr _ i _)) by (split; [lia | reflexivity]).
      cbn. rewrite (proj2 (add_Ok adj _ _)) by (split; [reflexivity | lia]).
      reflexivity.
    + split; [by rewrite length_insert | split; [lia | split; [exact Hadj1 |]]].
      destruct (decide (i = 0%nat)) as [->|Hne0].
      * rewrite list_lookup_insert_eq by lia. cbn.
        cbn in Hadj. unfold sumZ in Hadj. cbn in Hadj. nia.
      * rewrite list_lookup_insert_ne by done. lia.
  - assert (Hle : adj ≤ ONE).
    { change (0 + length weights)%nat with (length weights) in Hadj.
      rewrite firstn_all in Hadj. nia. }
    rewrite Hrun. cbn.
    destruct weights as [|w0 ws]; [done |].
    destruct arr as [|a0 arr]; [cbn in Hlen; lia |]. cbn in Hnw0.
    cbn. rewrite (proj2 (add_Ok a0 ONE _)) by (split; [reflexivity | lia]).
    cbn. rewrite (proj2 (sub_Ok (a0 + ONE) adj _))
      by (split; [reflexivity | lia]).
    cbn. eexists. unfold set. cbn. reflexivity.
Qed.

(** A weight whose product with ONE leaves the uint256 range makes
    [normalizeWeights] revert with the overflow panic. *)
Lemma normalizeWeights_overflow (weights : list Z) (weightSum : Z) (i : nat)
    (w : Z) :
  weightSum ≠ 0 → weights !! i = Some w → MAX_UINT256 < w * ONE →
  normalizeWeights weights weightSum = Err (Panic ArithmeticOverflow).
Proof.
  intros Hws Hw Hover. unfold normalizeWeights, for_loop.
  destruct (for_from_Err
      (λ _ '(arr, _), length arr = length weights)
      (λ e, e = Panic ArithmeticOverflow)
      (λ i '(newWeights, adjustedSum),
         w ← get weights i;
         q ← mulDiv w ONE weightSum;
         newWeights ← set newWeights i q;
         adjustedSum ← add adjustedSum q;
         Ok (newWeights, adjustedSum))
      (length weights) 0 i (new_array (length weights), 0))
    as (e & He & ->).
  - apply lookup_lt_Some in Hw. lia.
  - apply length_replicate.
  - intros j [arr adj] Hj Hlen.
    destruct (lookup_lt_is_Some_2 weights j) as [wj Hwj].
    { apply lookup_lt_Some in Hw. lia. }
    rewrite (proj2 (get_Ok _ _ _) Hwj). cbn. unfold mulDiv, mul.
    destruct (wj * ONE <=? MAX_UINT256); [ | right; eauto].
    cbn. unfold div. destruct (Z.eqb_spec weightSum 0); [done |]. cbn.
    rewrite (proj2 (set_Ok arr _ j _))
      by (split; [apply lookup_lt_Some in Hw; lia | reflexivity]).
    cbn. unfold add. destruct (_ <=? MAX_UINT256); [left | right; eauto].
    eexists. split; [reflexivity |]. cbn. by rewrite length_insert.
  - intros [arr adj] Hlen. rewrite (proj2 (get_Ok _ _ _) Hw). cbn.
    unfold mulDiv, mul. destruct (Z.leb_spec (w * ONE) MAX_UINT256); [lia |].
    cbn. eauto.
  - by rewrite He.
Qed.

(** [normalizeWeights] reverts with panics only. *)
Lemma normalizeWeights_Err (weights : list Z) (weightSum : Z) (e : Error) :
  normalizeWeights weights weightSum = Err e → ∃ p, e = Panic p.
Proof.
  unfold normalizeWeights, for_loop. intros H.
  destruct (for_from 0 (length weights) _ _) as [[arr adj]|e'] eqn:Hloop.
  - cbn in H. unfold get, add, sub, set in H.
    destruct (arr !! 0%nat); cbn in H; [ | injection H as <-; eauto].
    destruct (_ <=? MAX_UINT256); cbn in H; [ | injection H as <-; eauto].
    destruct (adj <=? _); cbn in H; [ | injection H as <-; eauto].
    destruct (decide _); [discriminate | injection H as <-; eauto].
  - cbn in H. injection H as <-.
    apply (for_from_Err_inv (λ e, ∃ p, e = Panic p)) in Hloop; [exact Hloop |].
    intros j [a t] e1 Hb. unfold get, mulDiv, mul, div, set, add in Hb.
    destruct (weights !! j); cbn in Hb; [ | injection Hb as <-; eauto].
    destruct (_ <=? MAX_UINT256); cbn in Hb; [ | injection Hb as <-; eauto].
    destruct (weightSum =? 0); cbn in Hb; [injection Hb as <-; eauto |].
    destruct (decide _); cbn in Hb; [ | injection Hb as <-; eauto].
    destruct (_ <=? MAX_UINT256); cbn in Hb; [discriminate |].
    injection Hb as <-. eauto.
Qed.

Lemma updatePoolWeights_Ok (c : Config) (x : Ctx) (weights : list Z)
    (weightSum : Z) (s s' : State) :
  updatePoolWeights c x weights weightSum s = Ok s' →
  normalizeWeights weights weightSum = Ok (pool_endWeights s') ∧
  pool_getNormalizedWeights x s' = pool_endWeights s' ∧
  s' = set_pool_schedule (block_timestamp x) (block_timestamp x)
         (pool_getNormalizedWeights x s) (pool_endWeights s') s.
Proof.
  unfold updatePoolWeights, pool_updateWeightsGradually. intros H.
  apply bind_Ok in H as (nw & Hnw & H).
  apply bind_Ok in H as (poolTokens & _ & H).
  repeat (apply bind_Ok in H as (? & _ & H)).
  injection H as <-. cbn. rewrite Z.max_id. split; [exact Hnw | split].
  - unfold pool_getNormalizedWeights. cbn. by rewrite Z.leb_refl.
  - reflexivity.
Qed.

(** The pool's own check of the sum never fires on what [updatePoolWeights]
    hands it. *)
Lemma updatePoolWeights_sum_check (c : Config) (x : Ctx) (weights : list Z)
    (weightSum : Z) (s : State) :
  updatePoolWeights c x weights weightSum s
  ≠ Err (ExternalRevert "NORMALIZED_WEIGHT_INVARIANT").
Proof.
  unfold updatePoolWeights. intros H.
  destruct (normalizeWeights weights weightSum) as [nw|e] eqn:Hnw.
  - apply normalizeWeights_Ok in Hnw as (Hsum & _).
    change (getPoolTokens c s
            ≫= (λ poolTokens,
                  pool_updateWeightsGradually x (block_timestamp x)
                    (block_timestamp x) poolTokens nw s)
            = Err (ExternalRevert "NORMALIZED_WEIGHT_INVARIANT")) in H.
    destruct (getPoolTokens c s) as [poolTokens|e] eqn:Hpt.
    + change (pool_updateWeightsGradually x (block_timestamp x)
                (block_timestamp x) poolTokens nw s
              = Err (ExternalRevert "NORMALIZED_WEIGHT_INVARIANT")) in H.
      unfold pool_updateWeightsGradually in H.
      destruct (bool_decide (poolTokens = _)); cbn in H; [ | discriminate].
      destruct (bool_decide (length nw = _)); cbn in H; [ | discriminate].
      destruct (forallb _ _); cbn in H; [ | discriminate].
      rewrite Hsum, Z.eqb_refl in H. cbn in H.
      destruct (_ <=? _); cbn in H; discriminate.
    + change (@Err State e
              = Err (ExternalRevert "NORMALIZED_WEIGHT_INVARIANT")) in H.
      injection H as ->.
      unfold getPoolTokens, bVault_getPoolTokens, tabulate, for_loop in Hpt.
      apply (for_from_Err_inv (λ e, ∃ p, e = Panic p)) in Hpt.
      * destruct Hpt as [p Hp]. discriminate.
      * intros j t e' Hb. unfold get, set in Hb.
        destruct (bv_tokens s !! _); cbn in Hb; [ | injection Hb as <-; eauto].
        destruct (decide _); [discriminate | injection Hb as <-; eauto].
  - change (@Err State e
            = Err (ExternalRevert "NORMALIZED_WEIGHT_INVARIANT")) in H.
    injection H as ->.
    apply normalizeWeights_Err in Hnw as [p Hp]. discriminate.
Qed.

(** C1 (amended).  Whenever [normalizeWeights] succeeds, the vector it
    returns sums to exactly ONE and consists of the truncated quotients
    [weights[i] * ONE / weightSum] with the rounding residue added at
    index 0.  Called with the non-zero sum of its (unsigned) weights, it
    succeeds when every product [weights[i] * ONE] fits a uint256, and it
    reverts with the overflow panic when one of them does not.  Whenever
    [calcNormalizedWeights] succeeds, the vector has [numTokens] entries
    summing to exactly ONE, all of them truncated quotients except the one at
    index 0; the vector of [getNormalizedWeights] has [numTokens] entries
    summing to exactly ONE.  The vector [updatePoolWeights] hands to the pool
    is the one of [normalizeWeights] and sums to exactly ONE: the pool's
    check of the sum never fires. *)
Theorem C1_normalized_weights_sum_to_ONE :
  (∀ weights weightSum nw,
     normalizeWeights weights weightSum = Ok nw →
     sumZ nw = ONE ∧ length nw = length weights ∧
     ∃ w0, weights !! 0%nat = Some w0 ∧
           nw = <[0%nat := w0 * ONE / weightSum
                           + (ONE - sumZ (truncatedQuotients weights
                                            weightSum))]>
                  (truncatedQuotients weights weightSum)) ∧
  (∀ weights,
     Forall (λ w, 0 ≤ w) weights → sumZ weights ≠ 0 →
     Forall (λ w, w * ONE ≤ MAX_UINT256) weights →
     ∃ nw, normalizeWeights weights (sumZ weights) = Ok nw ∧ sumZ nw = ONE) ∧
  (∀ weights weightSum i w,
     weightSum ≠ 0 → weights !! i = Some w → MAX_UINT256 < w * ONE →
     normalizeWeights weights weightSum = Err (Panic ArithmeticOverflow)) ∧
  (∀ c x s value oraclePrices underlyingIndexes underlyingBalances weights,
     calcNormalizedWeights c x s value oraclePrices underlyingIndexes
       underlyingBalances = Ok weights →
     sumZ weights = ONE ∧ length weights = numTokens c ∧
     (∀ i, (i < numYieldTokens c)%nat → (0 < numPoolTokens c + i)%nat →
           ∃ ub k p,
             underlyingBalances !! i = Some ub ∧
             underlyingIndexes !! i = Some k ∧ oraclePrices !! k = Some p ∧
             weights !! (numPoolTokens c + i)%nat = Some (ub * p / value)) ∧
     (∀ i, (0 < i < numPoolTokens c)%nat →
           ∃ pw,
             pool_getNormalizedWeights x s !! i = Some pw ∧
             weights !! i
             = Some (pw * (ONE - sumZ (drop (numPoolTokens c) weights))
                     / ONE))) ∧
  (∀ c x s weights,
     getNormalizedWeights c x s = Ok weights →
     sumZ weights = ONE ∧ length weights = numTokens c) ∧
  (∀ c x weights weightSum s s',
     updatePoolWeights c x weights weightSum s = Ok s' →
     ∃ nw, normalizeWeights weights weightSum = Ok nw ∧
           pool_getNormalizedWeights x s' = nw ∧ sumZ nw = ONE) ∧
  (∀ c x weights weightSum s,
     updatePoolWeights c x weights weightSum s
     ≠ Err (ExternalRevert "NORMALIZED_WEIGHT_INVARIANT")).
Proof.
  split; [ | split; [ | split; [ | split; [ | split; [ | split]]]]].
  - exact normalizeWeights_Ok.
  - intros weights Hpos Hsum Hmax.
    assert (Hne : weights ≠ []) by (intros ->; by apply Hsum).
    assert (H0 : 0 < sumZ weights).
    { pose proof (sumZ_nonneg weights Hpos). lia. }
    destruct (normalizeWeights_total weights (sumZ weights) Hne H0 Hpos
                ltac:(lia) Hmax) as [nw Hnw].
    exists nw. split; [exact Hnw |].
    exact (proj1 (normalizeWeights_Ok _ _ _ Hnw)).
  - exact normalizeWeights_overflow.
  - exact calcNormalizedWeights_Ok.
  - exact getNormalizedWeights_Ok.
  - intros c x weights weightSum s s' H.
    apply updatePoolWeights_Ok in H as (Hnw & -> & _).
    eexists. split; [exact Hnw | split; [reflexivity |]].
    exact (proj1 (normalizeWeights_Ok _ _ _ Hnw)).
  - exact updatePoolWeights_sum_check.
Qed.

Lemma C1_normalized_weights_witness :
  sumZ [333333333333333334; 333333333333333333; 333333333333333333] = ONE ∧
  (∃ nw, normalizeWeights [1; 2] (sumZ [1; 2]) = Ok nw ∧ sumZ nw = ONE) ∧
  normalizeWeights [ONE; 2 ^ 200] (ONE + 2 ^ 200)
  = Err (Panic ArithmeticOverflow) ∧
  sumZ [454545454545454546; 454545454545454546;
        45454545454545454; 45454545454545454] = ONE.
Proof.
  destruct C1_normalized_weights_sum_to_ONE as (H1 & H2 & H3 & _ & H5 & _).
  split; [ | split; [ | split]].
  - apply (H1 [1; 1; 1] 3). vm_compute. reflexivity.
  - apply (H2 [1; 2]).
    + repeat constructor; discriminate.
    + vm_compute. discriminate.
    + repeat constructor; vm_compute; discriminate.
  - apply (H3 [ONE; 2 ^ 200] (ONE + 2 ^ 200) 1%nat (2 ^ 200)).
    + vm_compute. discriminate.
    + reflexivity.
    + vm_compute. reflexivity.
  - apply (H5 (ex_config 0) ex_owner_call ex_state). vm_compute. reflexivity.
Defined.

(** C1, as stated, fails: the pool is left with one wei of the numeraire
    against [10^34] wei of the other token, whose feed answers a price of
    [10^-8].  [enableTradingWithOraclePrice] computes the weights ONE and
    [10^60] and passes them with their non-zero sum to [updatePoolWeights]
    and so to [normalizeWeights], where [10^60 * ONE] leaves the uint256
    range: the call reverts with the overflow panic and no vector is
    returned. *)
Lemma C1_counterexample :
  sumZ [ONE; 10 ^ 60] ≠ 0 ∧
  Forall (λ w, 0 ≤ w ≤ MAX_UINT256) [ONE; 10 ^ 60] ∧
  normalizeWeights [ONE; 10 ^ 60] (sumZ [ONE; 10 ^ 60])
  = Err (Panic ArithmeticOverflow) ∧
  updatePoolWeights (ex_plain_config 0) ex_guardian_call [ONE; 10 ^ 60]
    (sumZ [ONE; 10 ^ 60]) ex_thin_state
  = Err (Panic ArithmeticOverflow) ∧
  enableTradingWithOraclePrice (ex_plain_config 0) ex_guardian_call
    ex_thin_state
  = Err (Panic ArithmeticOverflow).
Proof.
  split; [vm_compute; discriminate |].
  split; [repeat constructor; vm_compute; discriminate |].
  split; [vm_compute; reflexivity |].
  split; vm_compute; reflexivity.
Qed.

(** ** Schedule validation of [updateWeightsGradually] *)

Lemma checkWeightChangeSchedule_spec (x : Ctx) (startTime endTime : Z) :
  checkWeightChangeSchedule x startTime endTime =
  weightChangeScheduleSpec (block_timestamp x) startTime endTime.
Proof.
  unfold checkWeightChangeSchedule, weightChangeScheduleSpec.
  destruct (Z.ltb_spec MAX_UINT32 startTime) as [Hs|Hs]; [reflexivity |].
  destruct (Z.ltb_spec MAX_UINT32 endTime) as [He|He]; [reflexivity |].
  cbn. set (start := Z.max (block_timestamp x) startTime).
  destruct (Z.ltb_spec endTime start) as [Hes|Hes]; [reflexivity |].
  cbn. unfold add.
  assert (Hle : start + MINIMUM_WEIGHT_CHANGE_DURATION ≤ MAX_UINT256).
  { unfold MAX_UINT32, MINIMUM_WEIGHT_CHANGE_DURATION, MAX_UINT256 in *. lia. }
  apply Z.leb_le in Hle. rewrite Hle. cbn.
  destruct (Z.ltb_spec endTime (start + MINIMUM_WEIGHT_CHANGE_DURATION));
    destruct (Z.ltb_spec (endTime - start) MINIMUM_WEIGHT_CHANGE_DURATION);
    try lia.
  - unfold sub. apply Z.leb_le in Hes. by rewrite Hes.
  - reflexivity.
Qed.

Lemma checkWeightChangeSchedule_Ok (x : Ctx) (startTime endTime start : Z) :
  checkWeightChangeSchedule x startTime endTime = Ok start →
  start = Z.max (block_timestamp x) startTime ∧
  start + MINIMUM_WEIGHT_CHANGE_DURATION ≤ endTime ∧ endTime ≤ MAX_UINT32.
Proof.
  rewrite checkWeightChangeSchedule_spec. unfold weightChangeScheduleSpec.
  destruct (Z.ltb_spec MAX_UINT32 startTime); [discriminate |].
  destruct (Z.ltb_spec MAX_UINT32 endTime); [discriminate |].
  cbn. destruct (Z.ltb_spec endTime (Z.max (block_timestamp x) startTime));
    [discriminate |].
  destruct (Z.ltb_spec (endTime - Z.max (block_timestamp x) startTime)
              MINIMUM_WEIGHT_CHANGE_DURATION); [discriminate |].
  intros [= <-]. lia.
Qed.

(** C9.  The schedule checks of [updateWeightsGradually] are exactly those
    of the specification: both times are limited to [2^32 - 1] (start first),
    the start is clamped to [max(now, startTime)], a clamped start after the
    end fails with [WeightChangeEndBeforeStart], a window shorter than the
    minimum duration fails with [WeightChangeDurationIsBelowMin], and a
    guardian's call on an initialized, unfinalized vault fails with the
    error of these checks before anything else is done. *)
Theorem C9_schedule_validation :
  (∀ x startTime endTime,
     checkWeightChangeSchedule x startTime endTime =
     weightChangeScheduleSpec (block_timestamp x) startTime endTime) ∧
  (∀ c x tokenWithWeight startTime endTime s e,
     reentrancyEntered s = false → msg_sender x = guardian s →
     initialized s = true → finalized s = false →
     weightChangeScheduleSpec (block_timestamp x) startTime endTime = Err e →
     updateWeightsGradually c x tokenWithWeight startTime endTime s = Err e).
Proof.
  split; [exact checkWeightChangeSchedule_spec |].
  intros c x tv startTime endTime s e Hre Hg Hi Hf Hspec.
  unfold updateWeightsGradually, nonReentrant, onlyGuardian, whenInitialized,
    whenNotFinalized.
  rewrite Hre, Hi, Hf, (bool_decide_eq_true_2 _ Hg). cbn.
  by rewrite checkWeightChangeSchedule_spec, Hspec.
Qed.

Lemma C9_schedule_validation_witness :
  updateWeightsGradually (ex_config 0) ex_guardian_call
    (ex_values (4 * 10 ^ 17) (4 * 10 ^ 17) (10 ^ 17) (10 ^ 17)) 1400 10000
    ex_state
  = Err (Mammon__WeightChangeDurationIsBelowMin 8500 14400).
Proof.
  apply (proj2 C9_schedule_validation); reflexivity.
Defined.

Lemma updateWeightsGradually_checked (c : Config) (x : Ctx)
    (tokenWithWeight : list TokenValue) (startTime endTime start : Z)
    (s : State) :
  reentrancyEntered s = false → msg_sender x = guardian s →
  initialized s = true → finalized s = false →
  checkWeightChangeSchedule x startTime endTime = Ok start →
  updateWeightsGradually c x tokenWithWeight startTime endTime s =
  ('(s1, poolTokens, targetWeights, targetPoolWeights) ←
     rebalanceToTargets c x tokenWithWeight s;
   _ ← checkWeightChangeRatio c x s1 poolTokens targetPoolWeights start
         endTime;
   s2 ← pool_updateWeightsGradually x start endTime poolTokens
          targetPoolWeights s1;
   Ok (emit (EvUpdateWeightsGradually start endTime targetWeights) s2)).
Proof.
  intros Hre Hg Hi Hf Hsched.
  unfold updateWeightsGradually, nonReentrant, onlyGuardian, whenInitialized,
    whenNotFinalized.
  rewrite Hre, Hi, Hf, (bool_decide_eq_true_2 _ Hg), Hsched. reflexivity.
Qed.

(** ** The rate-limit check *)

Lemma getPoolTokensData_Ok (c : Config) (s : State)
    (poolTokens : list address) (poolHoldings : list Z) (blk : Z) :
  getPoolTokensData c s = Ok (poolTokens, poolHoldings, blk) →
  length poolTokens = numPoolTokens c ∧ length poolHoldings = numPoolTokens c ∧
  ∀ i, (i < numPoolTokens c)%nat →
       poolTokens !! i = bv_tokens s !! (i + 1)%nat ∧
       poolHoldings !! i
       = (λ b, fst b + snd b) <$> bv_balances s !! (i + 1)%nat.
Proof.
  unfold getPoolTokensData, bVault_getPoolTokens. intros H.
  apply bind_Ok in H as ([pt ph] & Hloop & H). injection H as -> -> _.
  apply (for_loop_inv
           (λ i '(pt, ph),
              length pt = numPoolTokens c ∧ length ph = numPoolTokens c ∧
              ∀ j, (j < i)%nat →
                   pt !! j = bv_tokens s !! (j + 1)%nat ∧
                   ph !! j = (λ b, fst b + snd b) <$>
                             bv_balances s !! (j + 1)%nat)) in Hloop.
  - exact Hloop.
  - repeat split; try apply length_replicate; lia.
  - intros i [a b] [a' b'] Hi (Ha & Hb & Hpre) Hbody.
    cbv beta iota in Hbody. ok_inv. subst.
    rewrite !length_insert. split; [done | split; [done |]].
    intros j Hj. destruct (decide (j = i)) as [->|Hne].
    + rewrite !list_lookup_insert_eq by lia.
      rewrite list_lookup_fmap in Hv1. by rewrite Hv, Hv1.
    + rewrite !list_lookup_insert_ne by done. apply Hpre. lia.
Qed.

Lemma rebalanceToTargets_Ok (c : Config) (x : Ctx)
    (tokenWithWeight : list TokenValue) (s s1 : State)
    (poolTokens : list address) (targetWeights targetPoolWeights : list Z) :
  rebalanceToTargets c x tokenWithWeight s
  = Ok (s1, poolTokens, targetWeights, targetPoolWeights) →
  length poolTokens = numPoolTokens c.
Proof.
  unfold rebalanceToTargets. intros H.
  apply bind_Ok in H as ([[pt ph] blk] & Hdata & H).
  apply getPoolTokensData_Ok in Hdata as (Hlen & _).
  repeat (apply bind_Ok in H as (? & _ & H)).
  destruct x3 as [s' tpw]. by injection H as _ <- _ _.
Qed.

Lemma getWeightChangeRatio_pos (weight targetWeight : Z) :
  0 < weight ≤ ONE → 0 < targetWeight ≤ ONE →
  getWeightChangeRatio weight targetWeight
  = Ok (changeRatio weight targetWeight).
Proof.
  intros Hw Ht. unfold getWeightChangeRatio, changeRatio.
  assert (HM : ONE * ONE ≤ MAX_UINT256) by (vm_compute; discriminate).
  assert (H0 : 0 < ONE) by reflexivity.
  destruct (Z.ltb_spec targetWeight weight).
  - rewrite Z.max_l, Z.min_r by lia. apply mulDiv_Ok. repeat split; nia.
  - rewrite Z.max_r, Z.min_l by lia. apply mulDiv_Ok. repeat split; nia.
Qed.

Lemma getWeightChangeRatio_zero (weight targetWeight : Z) :
  0 ≤ weight ≤ ONE → 0 ≤ targetWeight ≤ ONE →
  weight = 0 ∨ targetWeight = 0 →
  getWeightChangeRatio weight targetWeight = Err (Panic DivisionByZero).
Proof.
  intros Hw Ht Hz. unfold getWeightChangeRatio, mulDiv, mul.
  assert (HM : ONE * ONE ≤ MAX_UINT256) by (vm_compute; discriminate).
  assert (H0 : 0 < ONE) by reflexivity.
  destruct (Z.ltb_spec targetWeight weight).
  - assert (targetWeight = 0) as -> by lia.
    destruct (Z.leb_spec (ONE * weight) MAX_UINT256); [reflexivity | nia].
  - assert (weight = 0) as -> by lia.
    destruct (Z.leb_spec (ONE * targetWeight) MAX_UINT256); [reflexivity | nia].
Qed.

(** A loop over [unit] whose bodies, up to an index that reverts, either
    pass or revert with an error in [Q], reverts with an error in [Q]. *)
Lemma for_from_unit_Err (Q : Error → Prop) (body : nat → unit → result unit)
    (count start i : nat) :
  (start ≤ i < start + count)%nat →
  (∀ j, (start ≤ j ≤ i)%nat →
        body j tt = Ok tt ∨ ∃ e, body j tt = Err e ∧ Q e) →
  (∃ e, body i tt = Err e) →
  ∃ e, for_from start count body tt = Err e ∧ Q e.
Proof.
  revert start. induction count as [|n IH]; intros start Hi Hall Hfail; [lia |].
  cbn. destruct (Hall start) as [Hok | (e & He & HQ)]; [lia | | ].
  - rewrite Hok. cbn. destruct (decide (start = i)) as [->|Hne].
    + destruct Hfail as [e He]. congruence.
    + apply IH; [lia | | exact Hfail]. intros j Hj. apply Hall. lia.
  - rewrite He. cbn. eauto.
Qed.

(** A loop over [unit] whose bodies all pass or revert with an error in [Q]
    passes or reverts with an error in [Q]. *)
Lemma for_from_unit_cases (Q : Error → Prop) (body : nat → unit → result unit)
    (count start : nat) :
  (∀ j, (start ≤ j < start + count)%nat →
        body j tt = Ok tt ∨ ∃ e, body j tt = Err e ∧ Q e) →
  for_from start count body tt = Ok tt
  ∨ ∃ e, for_from start count body tt = Err e ∧ Q e.
Proof.
  revert start. induction count as [|n IH]; intros start Hall; [by left |].
  cbn. destruct (Hall start) as [Hok | (e & He & HQ)]; [lia | | ].
  - rewrite Hok. cbn. apply IH. intros j Hj. apply Hall. lia.
  - rewrite He. cbn. eauto.
Qed.

(** One iteration of the rate-limit loop on positive weights. *)
Lemma checkWeightChangeRatio_step (poolTokens : list address)
    (current target : list Z) (maximumRatio : Z) (j : nat)
    (token : address) (cw tw : Z) :
  poolTokens !! j = Some token →
  current !! j = Some cw → target !! j = Some tw →
  0 < cw ≤ ONE → 0 < tw ≤ ONE →
  (cw0 ← get current j;
   tw0 ← get target j;
   r ← getWeightChangeRatio cw0 tw0;
   if maximumRatio <? r then
     t ← get poolTokens j;
     Err (Mammon__WeightChangeRatioIsAboveMax t r maximumRatio)
   else Ok tt)
  = if maximumRatio <? changeRatio cw tw
    then Err (Mammon__WeightChangeRatioIsAboveMax token (changeRatio cw tw)
                maximumRatio)
    else Ok tt.
Proof.
  intros Ht Hc Hg Hcw Htw.
  rewrite (proj2 (get_Ok _ _ _) Hc). cbn.
  rewrite (proj2 (get_Ok _ _ _) Hg). cbn.
  rewrite (getWeightChangeRatio_pos _ _ Hcw Htw). cbn.
  destruct (maximumRatio <? changeRatio cw tw); [ | reflexivity].
  by rewrite (proj2 (get_Ok _ _ _) Ht).
Qed.

Lemma checkWeightChangeRatio_unfold (c : Config) (x : Ctx) (s : State)
    (poolTokens : list address) (target : list Z) (start endTime : Z) :
  0 ≤ start ≤ endTime ≤ MAX_UINT32 →
  checkWeightChangeRatio c x s poolTokens target start endTime =
  for_from 0 (numPoolTokens c) (λ i _,
    cw ← get (pool_getNormalizedWeights x s) i;
    tw ← get target i;
    r ← getWeightChangeRatio cw tw;
    if MAX_WEIGHT_CHANGE_RATIO * (endTime - start) <? r then
      t ← get poolTokens i;
      Err (Mammon__WeightChangeRatioIsAboveMax t r
             (MAX_WEIGHT_CHANGE_RATIO * (endTime - start)))
    else Ok tt) tt.
Proof.
  intros Ht. unfold checkWeightChangeRatio.
  rewrite (proj2 (sub_Ok endTime start (endTime - start)))
    by (split; [reflexivity | lia]).
  cbn. rewrite (proj2 (mul_Ok MAX_WEIGHT_CHANGE_RATIO (endTime - start)
                         (MAX_WEIGHT_CHANGE_RATIO * (endTime - start)))).
  - reflexivity.
  - split; [reflexivity |].
    assert (H1 : MAX_WEIGHT_CHANGE_RATIO * MAX_UINT32 ≤ MAX_UINT256)
      by (vm_compute; discriminate).
    assert (H2 : 0 ≤ MAX_WEIGHT_CHANGE_RATIO) by (vm_compute; discriminate).
    assert (H3 : 0 ≤ MAX_UINT32) by (vm_compute; discriminate).
    assert (H4 : MAX_WEIGHT_CHANGE_RATIO * (endTime - start)
                 ≤ MAX_WEIGHT_CHANGE_RATIO * MAX_UINT32).
    { apply Z.mul_le_mono_nonneg_l; [exact H2 |].
      (* the window starts at a non-negative time *)
      lia. }
    lia.
Qed.

Lemma checkWeightChangeRatio_exceeds (c : Config) (x : Ctx) (s : State)
    (poolTokens : list address) (target : list Z) (start endTime : Z)
    (i : nat) :
  0 ≤ start ≤ endTime ≤ MAX_UINT32 →
  length poolTokens = numPoolTokens c →
  (i < numPoolTokens c)%nat →
  (∀ j, (j ≤ i)%nat →
        ∃ cw tw, pool_getNormalizedWeights x s !! j = Some cw ∧
                 target !! j = Some tw ∧ 0 < cw ≤ ONE ∧ 0 < tw ≤ ONE) →
  (∃ cw tw, pool_getNormalizedWeights x s !! i = Some cw ∧
            target !! i = Some tw ∧
            MAX_WEIGHT_CHANGE_RATIO * (endTime - start) < changeRatio cw tw) →
  ∃ e, checkWeightChangeRatio c x s poolTokens target start endTime = Err e ∧
       isRatioAboveMax (MAX_WEIGHT_CHANGE_RATIO * (endTime - start)) e.
Proof.
  intros Ht Hlen Hi Hpos (cw & tw & Hc & Hg & Hgt).
  rewrite checkWeightChangeRatio_unfold by exact Ht.
  apply (for_from_unit_Err _ _ _ _ i); [lia | | ].
  - intros j Hj. destruct (Hpos j) as (cj & tj & Hcj & Htj & Hcp & Htp); [lia |].
    destruct (lookup_lt_is_Some_2 poolTokens j) as [tok Htok]; [lia |].
    rewrite (checkWeightChangeRatio_step _ _ _ _ j tok cj tj) by assumption.
    destruct (Z.ltb_spec (MAX_WEIGHT_CHANGE_RATIO * (endTime - start))
                (changeRatio cj tj)); [right | by left].
    eexists. split; [reflexivity |]. by exists tok, (changeRatio cj tj).
  - destruct (Hpos i) as (ci & ti & Hci & Hti & Hcp & Htp); [lia |].
    destruct (lookup_lt_is_Some_2 poolTokens i) as [tok Htok]; [lia |].
    rewrite (checkWeightChangeRatio_step _ _ _ _ i tok ci ti) by assumption.
    assert (ci = cw) as -> by congruence. assert (ti = tw) as -> by congruence.
    apply Z.ltb_lt in Hgt. rewrite Hgt. eauto.
Qed.

Lemma checkWeightChangeRatio_zero_weight (c : Config) (x : Ctx) (s : State)
    (poolTokens : list address) (target : list Z) (start endTime : Z)
    (k : nat) (cw tw : Z) :
  0 ≤ start ≤ endTime ≤ MAX_UINT32 →
  length poolTokens = numPoolTokens c →
  (k < numPoolTokens c)%nat →
  (∀ j, (j < k)%nat →
        ∃ cj tj, pool_getNormalizedWeights x s !! j = Some cj ∧
                 target !! j = Some tj ∧ 0 < cj ≤ ONE ∧ 0 < tj ≤ ONE ∧
                 changeRatio cj tj
                 ≤ MAX_WEIGHT_CHANGE_RATIO * (endTime - start)) →
  pool_getNormalizedWeights x s !! k = Some cw → target !! k = Some tw →
  0 ≤ cw ≤ ONE → 0 ≤ tw ≤ ONE → cw = 0 ∨ tw = 0 →
  checkWeightChangeRatio c x s poolTokens target start endTime
  = Err (Panic DivisionByZero).
Proof.
  intros Ht Hlen Hk Hpre Hc Hg Hcw Htw Hz.
  rewrite checkWeightChangeRatio_unfold by exact Ht.
  apply (for_from_first_Err (λ _ _, True) _ _ _ k); [lia | done | | ].
  - intros j [] Hj _.
    destruct (Hpre j) as (cj & tj & Hcj & Htj & Hcp & Htp & Hle); [lia |].
    destruct (lookup_lt_is_Some_2 poolTokens j) as [tok Htok]; [lia |].
    rewrite (checkWeightChangeRatio_step _ _ _ _ j tok cj tj) by assumption.
    apply Z.ltb_ge in Hle. rewrite Hle. eauto.
  - intros [] _.
    rewrite (proj2 (get_Ok _ _ _) Hc). cbn.
    rewrite (proj2 (get_Ok _ _ _) Hg). cbn.
    by rewrite (getWeightChangeRatio_zero _ _ Hcw Htw Hz).
Qed.

Lemma checkWeightChangeRatio_positive (c : Config) (x : Ctx) (s : State)
    (poolTokens : list address) (target : list Z) (start endTime : Z) :
  0 ≤ start ≤ endTime ≤ MAX_UINT32 →
  length poolTokens = numPoolTokens c →
  (∀ j, (j < numPoolTokens c)%nat →
        ∃ cw tw, pool_getNormalizedWeights x s !! j = Some cw ∧
                 target !! j = Some tw ∧ 0 < cw ≤ ONE ∧ 0 < tw ≤ ONE) →
  checkWeightChangeRatio c x s poolTokens target start endTime = Ok tt
  ∨ ∃ e, checkWeightChangeRatio c x s poolTokens target start endTime = Err e
         ∧ isRatioAboveMax (MAX_WEIGHT_CHANGE_RATIO * (endTime - start)) e.
Proof.
  intros Ht Hlen Hpos.
  rewrite checkWeightChangeRatio_unfold by exact Ht.
  apply for_from_unit_cases.
  intros j Hj. destruct (Hpos j) as (cj & tj & Hcj & Htj & Hcp & Htp); [lia |].
  destruct (lookup_lt_is_Some_2 poolTokens j) as [tok Htok]; [lia |].
  rewrite (checkWeightChangeRatio_step _ _ _ _ j tok cj tj) by assumption.
  destruct (Z.ltb_spec (MAX_WEIGHT_CHANGE_RATIO * (endTime - start))
              (changeRatio cj tj)); [right | by left].
  eexists. split; [reflexivity |]. by exists tok, (changeRatio cj tj).
Qed.

Lemma reachesRateLimitCheck_run (c : Config) (x : Ctx)
    (tokenWithWeight : list TokenValue) (startTime endTime : Z) (s : State)
    (start : Z) (s1 : State) (poolTokens : list address)
    (targetWeights targetPoolWeights : list Z) :
  0 ≤ block_timestamp x →
  reachesRateLimitCheck c x tokenWithWeight startTime endTime s start s1
    poolTokens targetWeights targetPoolWeights →
  0 ≤ start ≤ endTime ≤ MAX_UINT32 ∧ length poolTokens = numPoolTokens c ∧
  updateWeightsGradually c x tokenWithWeight startTime endTime s =
  (_ ← checkWeightChangeRatio c x s1 poolTokens targetPoolWeights start
         endTime;
   s2 ← pool_updateWeightsGradually x start endTime poolTokens
          targetPoolWeights s1;
   Ok (emit (EvUpdateWeightsGradually start endTime targetWeights) s2)).
Proof.
  intros Hnow (Hre & Hg & Hi & Hf & Hsched & Hreb).
  rewrite (updateWeightsGradually_checked c x _ _ _ start s Hre Hg Hi Hf Hsched).
  rewrite Hreb. cbn.
  apply checkWeightChangeSchedule_Ok in Hsched as (-> & Hdur & Hend).
  apply rebalanceToTargets_Ok in Hreb.
  assert (0 < MINIMUM_WEIGHT_CHANGE_DURATION) by reflexivity.
  split; [lia | split; [exact Hreb | reflexivity]].
Qed.

(** Discharges [reachesRateLimitCheck] on a concrete call by evaluation. *)
Ltac solve_reach :=
  unfold reachesRateLimitCheck;
  split; [reflexivity | split; [reflexivity | split; [reflexivity |
  split; [reflexivity | split; vm_compute; reflexivity]]]].

(** C5 (amended).  In a call of [updateWeightsGradually] that reaches the
    rate-limit check, if the change ratio of some pool token exceeds
    [MAX_WEIGHT_CHANGE_RATIO * (endTime - start)] and the pool tokens up to
    that one have non-zero current and target weights, the call fails with
    [WeightChangeRatioIsAboveMax] and the transaction leaves the state as it
    was. *)
Theorem C5_rate_limit_rejection (c : Config) (x : Ctx)
    (tokenWithWeight : list TokenValue) (startTime endTime : Z) (s : State)
    (start : Z) (s1 : State) (poolTokens : list address)
    (targetWeights targetPoolWeights : list Z) (i : nat) :
  0 ≤ block_timestamp x →
  reachesRateLimitCheck c x tokenWithWeight startTime endTime s start s1
    poolTokens targetWeights targetPoolWeights →
  (i < numPoolTokens c)%nat →
  (∀ j, (j ≤ i)%nat →
        ∃ cw tw, pool_getNormalizedWeights x s1 !! j = Some cw ∧
                 targetPoolWeights !! j = Some tw ∧
                 0 < cw ≤ ONE ∧ 0 < tw ≤ ONE) →
  (∃ cw tw, pool_getNormalizedWeights x s1 !! i = Some cw ∧
            targetPoolWeights !! i = Some tw ∧
            MAX_WEIGHT_CHANGE_RATIO * (endTime - start) < changeRatio cw tw) →
  ∃ e, isRatioAboveMax (MAX_WEIGHT_CHANGE_RATIO * (endTime - start)) e ∧
       updateWeightsGradually c x tokenWithWeight startTime endTime s = Err e ∧
       transact (updateWeightsGradually c x tokenWithWeight startTime endTime) s
       = (s, Some e).
Proof.
  intros Hnow Hreach Hi Hpos Hex.
  destruct (reachesRateLimitCheck_run _ _ _ _ _ _ _ _ _ _ _ Hnow Hreach)
    as (Ht & Hlen & Hrun).
  destruct (checkWeightChangeRatio_exceeds c x s1 poolTokens targetPoolWeights
              start endTime i Ht Hlen Hi Hpos Hex) as (e & He & HQ).
  exists e. split; [exact HQ |].
  assert (Hcall : updateWeightsGradually c x tokenWithWeight startTime endTime s
                  = Err e) by (by rewrite Hrun, He).
  split; [exact Hcall |]. unfold transact. by rewrite Hcall.
Qed.

Lemma C5_rate_limit_rejection_witness :
  ∃ e, isRatioAboveMax (MAX_WEIGHT_CHANGE_RATIO * (15900 - 1500)) e ∧
       updateWeightsGradually (ex_plain_config 0) ex_guardian_call
         (ex_plain_values (4 * 10 ^ 16) (96 * 10 ^ 16)) 1500 15900
         (ex_plain_state (95 * 10 ^ 16) (5 * 10 ^ 16)) = Err e ∧
       transact (updateWeightsGradually (ex_plain_config 0) ex_guardian_call
                   (ex_plain_values (4 * 10 ^ 16) (96 * 10 ^ 16)) 1500 15900)
         (ex_plain_state (95 * 10 ^ 16) (5 * 10 ^ 16))
       = (ex_plain_state (95 * 10 ^ 16) (5 * 10 ^ 16), Some e).
Proof.
  eapply (C5_rate_limit_rejection (ex_plain_config 0) ex_guardian_call
            (ex_plain_values (4 * 10 ^ 16) (96 * 10 ^ 16)) 1500 15900
            (ex_plain_state (95 * 10 ^ 16) (5 * 10 ^ 16)) 1500 _ _ _ _ 0).
  - vm_compute. discriminate.
  - solve_reach.
  - vm_compute. lia.
  - intros j Hj. assert (j = 0%nat) as -> by lia.
    exists (95 * 10 ^ 16), (4 * 10 ^ 16).
    repeat split; vm_compute; congruence.
  - exists (95 * 10 ^ 16), (4 * 10 ^ 16). repeat split; vm_compute; congruence.
Defined.

(** C5, as stated, fails: the pool is at 0.95/0.05 and the targets are
    0/1 over the minimum window.  The ratio of the second token (20) exceeds
    the maximum (14.4), but the loop meets the first token's zero target
    before and the call aborts with a division-by-zero panic instead of
    [WeightChangeRatioIsAboveMax]. *)
Lemma C5_counterexample :
  MAX_WEIGHT_CHANGE_RATIO * (15900 - 1500) < changeRatio (5 * 10 ^ 16) ONE ∧
  (∃ s1 poolTokens targetWeights,
     reachesRateLimitCheck (ex_plain_config 0) ex_guardian_call
       (ex_plain_values 0 ONE) 1500 15900
       (ex_plain_state (95 * 10 ^ 16) (5 * 10 ^ 16)) 1500 s1 poolTokens
       targetWeights [0; ONE] ∧
     pool_getNormalizedWeights ex_guardian_call s1
     = [95 * 10 ^ 16; 5 * 10 ^ 16]) ∧
  updateWeightsGradually (ex_plain_config 0) ex_guardian_call
    (ex_plain_values 0 ONE) 1500 15900
    (ex_plain_state (95 * 10 ^ 16) (5 * 10 ^ 16))
  = Err (Panic DivisionByZero).
Proof.
  split; [vm_compute; reflexivity | split].
  - eexists _, _, _. split.
    + solve_reach.
    + vm_compute. reflexivity.
  - vm_compute. reflexivity.
Qed.

(** C10 (amended).  [getWeightChangeRatio] divides by the smaller weight: on
    normalized weights it panics with a division by zero exactly when one of
    them is zero, and returns the change ratio otherwise.  In a call of
    [updateWeightsGradually] that reaches the rate-limit check, if a pool
    token has a zero current or target weight and every pool token before it
    has non-zero weights within the limit, the call aborts with the
    division-by-zero panic (no typed error) and the state is left as it was;
    when all current and target pool weights are non-zero the check passes or
    fails with [WeightChangeRatioIsAboveMax], never with that panic. *)
Theorem C10_zero_weight_panics :
  (∀ weight targetWeight,
     0 ≤ weight ≤ ONE → 0 ≤ targetWeight ≤ ONE →
     weight = 0 ∨ targetWeight = 0 →
     getWeightChangeRatio weight targetWeight = Err (Panic DivisionByZero)) ∧
  (∀ weight targetWeight,
     0 < weight ≤ ONE → 0 < targetWeight ≤ ONE →
     getWeightChangeRatio weight targetWeight
     = Ok (changeRatio weight targetWeight)) ∧
  (∀ c x tokenWithWeight startTime endTime s start s1 poolTokens
     targetWeights targetPoolWeights k cw tw,
     0 ≤ block_timestamp x →
     reachesRateLimitCheck c x tokenWithWeight startTime endTime s start s1
       poolTokens targetWeights targetPoolWeights →
     (k < numPoolTokens c)%nat →
     (∀ j, (j < k)%nat →
           ∃ cj tj, pool_getNormalizedWeights x s1 !! j = Some cj ∧
                    targetPoolWeights !! j = Some tj ∧
                    0 < cj ≤ ONE ∧ 0 < tj ≤ ONE ∧
                    changeRatio cj tj
                    ≤ MAX_WEIGHT_CHANGE_RATIO * (endTime - start)) →
     pool_getNormalizedWeights x s1 !! k = Some cw →
     targetPoolWeights !! k = Some tw →
     0 ≤ cw ≤ ONE → 0 ≤ tw ≤ ONE → cw = 0 ∨ tw = 0 →
     updateWeightsGradually c x tokenWithWeight startTime endTime s
     = Err (Panic DivisionByZero) ∧
     transact (updateWeightsGradually c x tokenWithWeight startTime endTime) s
     = (s, Some (Panic DivisionByZero))) ∧
  (∀ c x tokenWithWeight startTime endTime s start s1 poolTokens
     targetWeights targetPoolWeights,
     0 ≤ block_timestamp x →
     reachesRateLimitCheck c x tokenWithWeight startTime endTime s start s1
       poolTokens targetWeights targetPoolWeights →
     (∀ j, (j < numPoolTokens c)%nat →
           ∃ cw tw, pool_getNormalizedWeights x s1 !! j = Some cw ∧
                    targetPoolWeights !! j = Some tw ∧
                    0 < cw ≤ ONE ∧ 0 < tw ≤ ONE) →
     checkWeightChangeRatio c x s1 poolTokens targetPoolWeights start endTime
     = Ok tt
     ∨ ∃ e, checkWeightChangeRatio c x s1 poolTokens targetPoolWeights start
              endTime = Err e
            ∧ isRatioAboveMax (MAX_WEIGHT_CHANGE_RATIO * (endTime - start)) e).
Proof.
  split; [exact getWeightChangeRatio_zero | split;
    [exact getWeightChangeRatio_pos | split]].
  - intros c x tv startTime endTime s start s1 poolTokens targetWeights
      targetPoolWeights k cw tw Hnow Hreach Hk Hpre Hc Hg Hcw Htw Hz.
    destruct (reachesRateLimitCheck_run _ _ _ _ _ _ _ _ _ _ _ Hnow Hreach)
      as (Ht & Hlen & Hrun).
    pose proof (checkWeightChangeRatio_zero_weight c x s1 poolTokens
                  targetPoolWeights start endTime k cw tw Ht Hlen Hk Hpre Hc
                  Hg Hcw Htw Hz) as He.
    assert (Hcall : updateWeightsGradually c x tv startTime endTime s
                    = Err (Panic DivisionByZero)) by (by rewrite Hrun, He).
    split; [exact Hcall |]. unfold transact. by rewrite Hcall.
  - intros c x tv startTime endTime s start s1 poolTokens targetWeights
      targetPoolWeights Hnow Hreach Hpos.
    destruct (reachesRateLimitCheck_run _ _ _ _ _ _ _ _ _ _ _ Hnow Hreach)
      as (Ht & Hlen & _).
    by apply checkWeightChangeRatio_positive.
Qed.

Lemma C10_zero_weight_panics_witness :
  getWeightChangeRatio (5 * 10 ^ 17) 0 = Err (Panic DivisionByZero) ∧
  getWeightChangeRatio (5 * 10 ^ 17) (7 * 10 ^ 17)
  = Ok (changeRatio (5 * 10 ^ 17) (7 * 10 ^ 17)) ∧
  updateWeightsGradually (ex_plain_config 0) ex_guardian_call
    (ex_plain_values ONE 0) 1500 15900
    (ex_plain_state (5 * 10 ^ 17) (5 * 10 ^ 17))
  = Err (Panic DivisionByZero).
Proof.
  destruct C10_zero_weight_panics as (H1 & H2 & H3 & _).
  split; [ | split].
  - apply H1; [vm_compute | vm_compute | right; reflexivity];
      split; discriminate.
  - apply H2; vm_compute; split; congruence.
  - clear H1 H2.
    assert (Hreach : ∃ s1 poolTokens targetWeights,
               reachesRateLimitCheck (ex_plain_config 0) ex_guardian_call
                 (ex_plain_values ONE 0) 1500 15900
                 (ex_plain_state (5 * 10 ^ 17) (5 * 10 ^ 17)) 1500 s1
                 poolTokens targetWeights [ONE; 0] ∧
               pool_getNormalizedWeights ex_guardian_call s1
               = [5 * 10 ^ 17; 5 * 10 ^ 17]).
    { eexists _, _, _. split; [solve_reach | vm_compute; reflexivity]. }
    destruct Hreach as (s1 & poolTokens & targetWeights & Hreach & Hcur).
    apply (proj1 (H3 (ex_plain_config 0) ex_guardian_call
                    (ex_plain_values ONE 0) 1500 15900
                    (ex_plain_state (5 * 10 ^ 17) (5 * 10 ^ 17)) 1500
                    s1 poolTokens targetWeights [ONE; 0] 1%nat
                    (5 * 10 ^ 17) 0
                    ltac:(vm_compute; intros H; discriminate H)
                    Hreach
                    ltac:(vm_compute; lia)
                    ltac:(intros j Hj; assert (j = 0%nat) as -> by lia;
                          exists (5 * 10 ^ 17), ONE; rewrite Hcur;
                          repeat split; vm_compute; congruence)
                    ltac:(rewrite Hcur; reflexivity)
                    ltac:(reflexivity)
                    ltac:(vm_compute; split; intros H; discriminate H)
                    ltac:(vm_compute; split; intros H; discriminate H)
                    ltac:(right; reflexivity))).
Defined.

(** C10, as stated, fails: the pool is at 0.05/0.95 and the targets are
    1/0.  The second token's target weight is zero, but the first token's
    change ratio (20) already exceeds the maximum (14.4), so the call fails
    with the typed error [WeightChangeRatioIsAboveMax] and never divides by
    zero. *)
Lemma C10_counterexample :
  (∃ s1 poolTokens targetWeights,
     reachesRateLimitCheck (ex_plain_config 0) ex_guardian_call
       (ex_plain_values ONE 0) 1500 15900
       (ex_plain_state (5 * 10 ^ 16) (95 * 10 ^ 16)) 1500 s1 poolTokens
       targetWeights [ONE; 0]) ∧
  updateWeightsGradually (ex_plain_config 0) ex_guardian_call
    (ex_plain_values ONE 0) 1500 15900
    (ex_plain_state (5 * 10 ^ 16) (95 * 10 ^ 16))
  = Err (Mammon__WeightChangeRatioIsAboveMax 11 (20 * ONE) (144 * 10 ^ 17)).
Proof.
  split.
  - eexists _, _, _. solve_reach.
  - vm_compute. reflexivity.
Qed.

(** ** The fee index *)

Lemma getFeeIndex_spec (c : Config) (x : Ctx) (s : State) :
  timesInRange c x s →
  getFeeIndex c x s false = Ok (elapsedFeeIndex x s) ∧
  getFeeIndex c x s true = Ok (guaranteedFeeIndex c x s).
Proof.
  intros (Hl & Hn & Hc & Hm & Hmax).
  unfold getFeeIndex, guaranteedFeeIndex, elapsedFeeIndex, sub, add.
  destruct (Z.ltb_spec (lastFeeCheckpoint s) (block_timestamp x)) as [Hlt|Hge].
  - destruct (Z.leb_spec (lastFeeCheckpoint s) (block_timestamp x)); [ | lia].
    cbn. rewrite Z.max_r by lia. split; [reflexivity |].
    destruct (Z.leb_spec (createdAt c + minFeeDuration c) MAX_UINT256); [ | lia].
    cbn.
    destruct (Z.ltb_spec (block_timestamp x) (createdAt c + minFeeDuration c)).
    + destruct (Z.leb_spec (block_timestamp x)
                  (createdAt c + minFeeDuration c)); [ | lia].
      cbn. rewrite Z.max_r by lia.
      destruct (Z.leb_spec
                  (block_timestamp x - lastFeeCheckpoint s
                   + (createdAt c + minFeeDuration c - block_timestamp x))
                  MAX_UINT256); [reflexivity | lia].
    + rewrite Z.max_l by lia. by rewrite Z.add_0_r.
  - cbn. rewrite Z.max_l by lia. split; [reflexivity |].
    destruct (Z.leb_spec (createdAt c + minFeeDuration c) MAX_UINT256); [ | lia].
    cbn.
    destruct (Z.ltb_spec (block_timestamp x) (createdAt c + minFeeDuration c)).
    + destruct (Z.leb_spec (block_timestamp x)
                  (createdAt c + minFeeDuration c)); [ | lia].
      cbn. rewrite Z.max_r by lia.
      destruct (Z.leb_spec
                  (0 + (createdAt c + minFeeDuration c - block_timestamp x))
                  MAX_UINT256); [reflexivity | lia].
    + by rewrite Z.max_l by lia.
Qed.

Lemma lockGuardianFees_index (c : Config) (x : Ctx) (flag : bool) (s : State) :
  timesInRange c x s → managementFee c ≠ 0 →
  lockGuardianFees c x flag s =
  let feeIndex := if flag then guaranteedFeeIndex c x s
                  else elapsedFeeIndex x s in
  if feeIndex =? 0 then Ok s else accrueGuardianFees c x feeIndex s.
Proof.
  intros Ht Hfee. unfold lockGuardianFees.
  destruct (Z.eqb_spec (managementFee c) 0); [done |].
  destruct (getFeeIndex_spec c x s Ht) as [Hf Hg].
  destruct flag; [rewrite Hg | rewrite Hf]; reflexivity.
Qed.

(** C4 (amended).  [getFeeIndex] returns the seconds elapsed since the last
    fee checkpoint (0 when none), plus, when [lockGuaranteedFee] is set, the
    time remaining until [createdAt + minFeeDuration] when that point is in
    the future.  The flag is set by [finalize] only: a guardian change and
    an explicit claim accrue fees for the elapsed seconds alone.  With
    [minFeeDuration = 1000], a checkpoint at [createdAt] and a call at
    [createdAt + 500], the index is 1000 with the flag and 500 without. *)
Theorem C4_fee_index :
  (∀ c x s,
     timesInRange c x s →
     getFeeIndex c x s false = Ok (elapsedFeeIndex x s) ∧
     getFeeIndex c x s true = Ok (guaranteedFeeIndex c x s)) ∧
  (∀ c x s,
     timesInRange c x s → managementFee c ≠ 0 →
     reentrancyEntered s = false → msg_sender x = owner s →
     initialized s = true → finalized s = false →
     finalize c x s =
     (s1 ← (if guaranteedFeeIndex c x s =? 0 then Ok (set_finalized true s)
            else accrueGuardianFees c x (guaranteedFeeIndex c x s)
                   (set_finalized true s));
      '(s2, amounts) ← returnFunds c (setSwapEnabled false s1);
      Ok (emit (EvFinalized (owner s2) amounts) s2))) ∧
  (∀ c x newGuardian s,
     timesInRange c x s → managementFee c ≠ 0 →
     reentrancyEntered s = false → msg_sender x = owner s →
     initialized s = true → finalized s = false →
     newGuardian ≠ 0%N → newGuardian ≠ owner s →
     setGuardian c x newGuardian s =
     (s1 ← (if elapsedFeeIndex x s =? 0 then Ok s
            else accrueGuardianFees c x (elapsedFeeIndex x s) s);
      let s2 := if (length (ledger s1 newGuardian) =? 0)%nat
                then set_guardiansFee
                       (<[newGuardian := new_array (numTokens c)]>
                          (guardiansFee s1)) s1
                else s1 in
      Ok (set_guardian newGuardian
            (emit (EvGuardianChanged (guardian s2) newGuardian) s2)))) ∧
  (∀ c x s,
     timesInRange c x s → managementFee c ≠ 0 →
     reentrancyEntered s = false → msg_sender x = guardian s →
     initialized s = true → finalized s = false →
     claimGuardianFees c x s =
     (s1 ← (if elapsedFeeIndex x s =? 0 then Ok s
            else accrueGuardianFees c x (elapsedFeeIndex x s) s);
      payGuardianFees c x s1)) ∧
  (∀ c x s,
     minFeeDuration c = 1000 → lastFeeCheckpoint s = createdAt c →
     block_timestamp x = createdAt c + 500 →
     guaranteedFeeIndex c x s = 1000 ∧ elapsedFeeIndex x s = 500).
Proof.
  split; [exact getFeeIndex_spec | split; [ | split; [ | split]]].
  - intros c x s Ht Hfee Hre Ho Hi Hf.
    unfold finalize, nonReentrant, onlyOwner, whenInitialized,
      whenNotFinalized.
    rewrite Hre, Hi, Hf, (bool_decide_eq_true_2 _ Ho). cbn.
    rewrite (lockGuardianFees_index c x true (set_finalized true s))
      by assumption.
    reflexivity.
  - intros c x g s Ht Hfee Hre Ho Hi Hf Hg0 Hgo.
    unfold setGuardian, nonReentrant, onlyOwner, checkGuardianAddress.
    rewrite Hre, Hi, Hf, (bool_decide_eq_true_2 _ Ho),
      (bool_decide_eq_false_2 _ Hg0), (bool_decide_eq_false_2 _ Hgo). cbn.
    rewrite (lockGuardianFees_index c x false s) by assumption.
    reflexivity.
  - intros c x s Ht Hfee Hre Hg Hi Hf.
    unfold claimGuardianFees, nonReentrant, whenInitialized, whenNotFinalized.
    rewrite Hre, Hi, Hf. cbn.
    destruct (decide (msg_sender x = guardian s)); [ | done].
    rewrite (lockGuardianFees_index c x false s) by assumption.
    reflexivity.
  - intros c x s Hm Hl Hn.
    unfold guaranteedFeeIndex, elapsedFeeIndex. rewrite Hm, Hl, Hn. lia.
Qed.

Lemma C4_fee_index_witness :
  getFeeIndex (ex_config MAX_MANAGEMENT_FEE) ex_owner_call ex_state true
  = Ok 1000 ∧
  getFeeIndex (ex_config MAX_MANAGEMENT_FEE) ex_owner_call ex_state false
  = Ok 500.
Proof.
  destruct C4_fee_index as (H1 & _ & _ & _ & H5).
  destruct (H1 (ex_config MAX_MANAGEMENT_FEE) ex_owner_call ex_state)
    as [Hf Ht].
  - repeat split; vm_compute; discriminate.
  - destruct (H5 (ex_config MAX_MANAGEMENT_FEE) ex_owner_call ex_state)
      as [Hg He]; try reflexivity.
    rewrite Ht, Hf, Hg, He. split; reflexivity.
Defined.

(** C4, as stated, fails: at [createdAt + 500] with [minFeeDuration = 1000]
    and the checkpoint at [createdAt], locking with the flag set credits the
    fees of 1000 seconds, but a guardian change and a claim by the guardian
    credit and pay the fees of 500 seconds: they do not set the flag. *)
Lemma C4_counterexample :
  (s' ← lockGuardianFees (ex_config MAX_MANAGEMENT_FEE) ex_owner_call true
         ex_state;
   Ok (guardiansFeeTotal s'))
  = Ok [10 ^ 14; 10 ^ 14; 10 ^ 13; 10 ^ 13] ∧
  (s' ← setGuardian (ex_config MAX_MANAGEMENT_FEE) ex_owner_call 3%N ex_state;
   Ok (guardiansFeeTotal s'))
  = Ok [5 * 10 ^ 13; 5 * 10 ^ 13; 5 * 10 ^ 12; 5 * 10 ^ 12] ∧
  (s' ← claimGuardianFees (ex_config MAX_MANAGEMENT_FEE) ex_guardian_call
         ex_state;
   Ok (head (events s')))
  = Ok (Some (EvDistributeGuardianFees 2%N
                [5 * 10 ^ 13; 5 * 10 ^ 13; 5 * 10 ^ 12; 5 * 10 ^ 12])).
Proof. repeat split; vm_compute; reflexivity. Qed.

(** ** ERC-20 balances *)

Lemma balanceOf_set_erc20 (e : gmap (address * address) Z) (s : State)
    (token holder : address) :
  balanceOf (set_erc20 e s) token holder = default 0 (e !! (token, holder)).
Proof. reflexivity. Qed.

Lemma balanceOf_credit (token holder : address) (amount : Z) (s : State)
    (token' holder' : address) :
  balanceOf (erc20_credit token holder amount s) token' holder'
  = balanceOf s token' holder'
    + (if decide ((token', holder') = (token, holder)) then amount else 0).
Proof.
  unfold erc20_credit. rewrite balanceOf_set_erc20.
  destruct (decide ((token', holder') = (token, holder))) as [[= -> ->]|Hne].
  - rewrite lookup_insert_eq. cbn. lia.
  - rewrite lookup_insert_ne by congruence. unfold balanceOf. lia.
Qed.

Lemma erc20_debit_Ok (token holder : address) (amount : Z) (s s' : State) :
  erc20_debit token holder amount s = Ok s' →
  amount ≤ balanceOf s token holder ∧
  s' = set_erc20
         (<[(token, holder) := balanceOf s token holder - amount]> (erc20 s)) s.
Proof.
  unfold erc20_debit. intros H. apply bind_Ok in H as ([] & Hreq & H).
  apply require_Ok, Z.leb_le in Hreq. by injection H as <-.
Qed.

Lemma balanceOf_debit (token holder : address) (amount : Z) (s s' : State)
    (token' holder' : address) :
  erc20_debit token holder amount s = Ok s' →
  balanceOf s' token' holder'
  = balanceOf s token' holder'
    - (if decide ((token', holder') = (token, holder)) then amount else 0).
Proof.
  intros H. apply erc20_debit_Ok in H as [_ ->]. rewrite balanceOf_set_erc20.
  destruct (decide ((token', holder') = (token, holder))) as [[= -> ->]|Hne].
  - rewrite lookup_insert_eq. cbn. lia.
  - rewrite lookup_insert_ne by congruence. unfold balanceOf. lia.
Qed.

(** A transfer that succeeds moves exactly [amount] and changes nothing but
    the balances of the token. *)
Lemma erc20_transfer_Ok (token from to : address) (amount : Z) (s s' : State) :
  erc20_transfer token from to amount s = Ok s' →
  amount ≤ balanceOf s token from ∧
  s' = set_erc20 (erc20 s') s ∧
  ∀ token' holder,
    balanceOf s' token' holder
    = balanceOf s token' holder
      - (if decide ((token', holder) = (token, from)) then amount else 0)
      + (if decide ((token', holder) = (token, to)) then amount else 0).
Proof.
  unfold erc20_transfer. intros H. apply bind_Ok in H as (s1 & Hd & H).
  injection H as <-. split; [by apply erc20_debit_Ok in Hd as [? _] |].
  split.
  - apply erc20_debit_Ok in Hd as [_ ->]. reflexivity.
  - intros token' holder. rewrite balanceOf_credit.
    by rewrite (balanceOf_debit _ _ _ _ _ _ _ Hd).
Qed.

Lemma erc20_transfer_total (token from to : address) (amount : Z) (s : State) :
  amount ≤ balanceOf s token from →
  ∃ s', erc20_transfer token from to amount s = Ok s'.
Proof.
  intros H. unfold erc20_transfer, erc20_debit.
  apply Z.leb_le in H. rewrite H. cbn. eauto.
Qed.

(** ** What the bookkeeping leaves alone *)

Lemma setup_oracleFeeds (s s' : State) :
  setup s' = setup s → oracleFeeds s' = oracleFeeds s.
Proof. unfold setup. congruence. Qed.

Lemma setup_oraclesEnabled (s s' : State) :
  setup s' = setup s → oraclesEnabled s' = oraclesEnabled s.
Proof. unfold setup. congruence. Qed.

Lemma setup_owner (s s' : State) : setup s' = setup s → owner s' = owner s.
Proof. unfold setup. congruence. Qed.

Lemma setup_guardian (s s' : State) :
  setup s' = setup s → guardian s' = guardian s.
Proof. unfold setup. congruence. Qed.

Lemma setup_bv_tokens (s s' : State) :
  setup s' = setup s → bv_tokens s' = bv_tokens s.
Proof. unfold setup. congruence. Qed.

Lemma setup_wrappers (s s' : State) :
  setup s' = setup s → wrappers s' = wrappers s.
Proof. unfold setup. congruence. Qed.

Lemma erc20_transfer_setup (token from to : address) (amount : Z)
    (s s' : State) :
  erc20_transfer token from to amount s = Ok s' → setup s' = setup s.
Proof.
  intros H. apply erc20_transfer_Ok in H as (_ & Hs & _). by rewrite Hs.
Qed.

Lemma for_from_setup (body : nat → State → result State) (count start : nat)
    (s s' : State) :
  (∀ i t t', body i t = Ok t' → setup t' = setup t) →
  for_from start count body s = Ok s' → setup s' = setup s.
Proof.
  intros Hbody Hrun.
  apply (for_from_inv (λ _ t, setup t = setup s) body count start s s');
    [reflexivity | | exact Hrun].
  intros i t t' _ Ht Hb. rewrite <- Ht. by eapply Hbody.
Qed.

Lemma bVault_applyOp_setup (c : Config) (op : PoolBalanceOp) (s s' : State) :
  bVault_applyOp c op s = Ok s' → setup s' = setup s.
Proof.
  unfold bVault_applyOp. intros H.
  destruct (index_of (op_token op) (bv_tokens s)) as [k|]; [ | discriminate].
  apply bind_Ok in H as ([cash managed] & _ & H).
  destruct (op_kind op).
  - apply bind_Ok in H as (cash' & _ & H).
    apply bind_Ok in H as (managed' & _ & H).
    by apply erc20_transfer_setup in H.
  - apply bind_Ok in H as (managed' & _ & H).
    apply bind_Ok in H as (cash' & _ & H).
    by apply erc20_transfer_setup in H.
  - by injection H as <-.
Qed.

Lemma bVault_managePoolBalance_setup (c : Config) (ops : list PoolBalanceOp)
    (s s' : State) :
  bVault_managePoolBalance c ops s = Ok s' → setup s' = setup s.
Proof.
  revert s. induction ops as [|op ops IH]; intros s H; cbn in H.
  - by injection H as <-.
  - apply bind_Ok in H as (s1 & Hop & H).
    apply bVault_applyOp_setup in Hop. apply IH in H. congruence.
Qed.

Lemma updatePoolBalance_setup (c : Config) (amounts : list Z)
    (kind : PoolBalanceOpKind) (s s' : State) :
  updatePoolBalance c amounts kind s = Ok s' → setup s' = setup s.
Proof.
  unfold updatePoolBalance. intros H.
  apply bind_Ok in H as (poolTokens & _ & H).
  apply bind_Ok in H as (ops & _ & H).
  by apply bVault_managePoolBalance_setup in H.
Qed.

Lemma depositToPool_setup (c : Config) (amounts : list Z) (s s' : State) :
  depositToPool c amounts s = Ok s' → setup s' = setup s.
Proof.
  unfold depositToPool. intros H. apply bind_Ok in H as (s1 & H1 & H).
  apply updatePoolBalance_setup in H1, H. congruence.
Qed.

Lemma withdrawFromPool_setup (c : Config) (amounts : list Z) (s s' : State) :
  withdrawFromPool c amounts s = Ok s' → setup s' = setup s.
Proof.
  unfold withdrawFromPool. intros H. apply bind_Ok in H as (s1 & H1 & H).
  apply updatePoolBalance_setup in H1, H. congruence.
Qed.

Lemma creditFee_setup (i : nat) (fee : Z) (s s' : State) :
  creditFee i fee s = Ok s' → setup s' = setup s.
Proof.
  unfold creditFee. intros H.
  apply bind_Ok in H as (old & _ & H). apply bind_Ok in H as (new & _ & H).
  apply bind_Ok in H as (row & _ & H).
  apply bind_Ok in H as (oldTotal & _ & H).
  apply bind_Ok in H as (newTotal & _ & H).
  apply bind_Ok in H as (total & _ & H). by injection H as <-.
Qed.

Lemma accrueGuardianFees_setup (c : Config) (x : Ctx) (feeIndex : Z)
    (s s' : State) :
  accrueGuardianFees c x feeIndex s = Ok s' → setup s' = setup s.
Proof.
  unfold accrueGuardianFees. intros H.
  apply bind_Ok in H as (poolTokens & _ & H).
  apply bind_Ok in H as (holdings & _ & H).
  apply bind_Ok in H as ([newFees balances] & _ & H).
  apply bind_Ok in H as (s1 & H1 & H).
  apply bind_Ok in H as (s2 & H2 & H).
  apply withdrawFromPool_setup in H1.
  apply for_from_setup in H2.
  2: { intros i t t' Hb. apply bind_Ok in Hb as (? & _ & Hb).
       apply bind_Ok in Hb as (? & _ & Hb).
       apply bind_Ok in Hb as (? & _ & Hb). by apply creditFee_setup in Hb. }
  apply for_from_setup in H.
  2: { intros i t t' Hb. do 4 apply bind_Ok in Hb as (? & _ & Hb).
       by apply creditFee_setup in Hb. }
  rewrite H, H2, H1. reflexivity.
Qed.

Lemma lockGuardianFees_setup (c : Config) (x : Ctx) (flag : bool)
    (s s' : State) :
  lockGuardianFees c x flag s = Ok s' → setup s' = setup s.
Proof.
  unfold lockGuardianFees. intros H.
  destruct (managementFee c =? 0); [by injection H as <- |].
  apply bind_Ok in H as (feeIndex & _ & H).
  destruct (feeIndex =? 0); [by injection H as <- |].
  by apply accrueGuardianFees_setup in H.
Qed.

(** ** The token list and the values of a request *)

Lemma getPoolTokens_Ok (c : Config) (s : State) (poolTokens : list address) :
  getPoolTokens c s = Ok poolTokens →
  length poolTokens = numPoolTokens c ∧
  ∀ i, (i < numPoolTokens c)%nat →
       ∃ t, bv_tokens s !! (i + 1)%nat = Some t ∧ poolTokens !! i = Some t.
Proof.
  unfold getPoolTokens, bVault_getPoolTokens. intros H.
  apply tabulate_Ok in H as [Hlen Hall]. split; [exact Hlen |].
  intros i Hi. destruct (Hall i Hi) as (t & Ht & Hl).
  apply get_Ok in Ht. eauto.
Qed.

Lemma getTokens_Ok (c : Config) (s : State) (tokens : list address) :
  getTokens c s = Ok tokens →
  length tokens = numTokens c ∧
  (∀ i, (i < numPoolTokens c)%nat →
        ∃ t, bv_tokens s !! (i + 1)%nat = Some t ∧ tokens !! i = Some t) ∧
  (∀ i, (i < numYieldTokens c)%nat →
        ∃ y, getYieldTokens c !! i = Some y ∧
             tokens !! (numPoolTokens c + i)%nat = Some y).
Proof.
  unfold getTokens. intros H.
  apply bind_Ok in H as (poolTokens & Hpt & H).
  apply getPoolTokens_Ok in Hpt as [Hlen Hpt].
  apply bind_Ok in H as (tokens1 & Hl1 & Hl2).
  apply (for_loop_inv
           (λ i (tk : list address),
              length tk = numTokens c ∧
              ∀ j, (j < i)%nat → tk !! j = poolTokens !! j)) in Hl1.
  2: { split; [apply length_replicate | intros; lia]. }
  2: { intros i tk tk' Hi [Hlen' Hpre] Hb. ok_inv. subst tk'.
       rewrite length_insert. split; [done |].
       intros j Hj. destruct (decide (j = i)) as [->|Hne].
       - rewrite list_lookup_insert_eq by lia. done.
       - rewrite list_lookup_insert_ne by done. apply Hpre. lia. }
  destruct Hl1 as [Hlen1 Hpool].
  apply (for_loop_inv
           (λ i (tk : list address),
              length tk = numTokens c ∧
              (∀ j, (j < numPoolTokens c)%nat → tk !! j = poolTokens !! j) ∧
              ∀ j, (j < i)%nat →
                   tk !! (numPoolTokens c + j)%nat = getYieldTokens c !! j))
    in Hl2.
  2: { split; [done | split; [done | intros; lia]]. }
  2: { intros i tk tk' Hi (Hlen' & Hp & Hpre) Hb. ok_inv. subst tk'.
       rewrite length_insert. split; [done | split].
       - intros j Hj. rewrite list_lookup_insert_ne by lia. by apply Hp.
       - intros j Hj. destruct (decide (j = i)) as [->|Hne].
         + rewrite list_lookup_insert_eq by (unfold numTokens in *; lia). done.
         + rewrite list_lookup_insert_ne by lia. apply Hpre. lia. }
  destruct Hl2 as (Hlen2 & Hp2 & Hy2). split; [done | split].
  - intros i Hi. destruct (Hpt i Hi) as (t & Ht & Hl).
    exists t. split; [done |]. by rewrite Hp2.
  - intros i Hi.
    destruct (lookup_lt_is_Some_2 (getYieldTokens c) i) as [y Hy].
    { unfold getYieldTokens. rewrite length_map. exact Hi. }
    exists y. split; [done |]. by rewrite Hy2.
Qed.

(** The values [getValuesFromTokenWithValues] returns are those of the
    request, in its order. *)
Lemma getValuesFromTokenWithValues_Ok (c : Config)
    (tokenWithValues : list TokenValue) (poolTokens : list address)
    (values : list Z) :
  getValuesFromTokenWithValues c tokenWithValues poolTokens = Ok values →
  values = map tv_value tokenWithValues ∧
  length tokenWithValues = numTokens c.
Proof.
  unfold getValuesFromTokenWithValues. intros H.
  apply bind_Ok in H as ([] & Hlen & H).
  apply require_Ok, bool_decide_eq_true in Hlen.
  apply bind_Ok in H as (values1 & Hl1 & Hl2).
  apply (for_loop_inv
           (λ i (v : list Z),
              length v = numTokens c ∧
              ∀ j, (j < i)%nat →
                   v !! j = tv_value <$> tokenWithValues !! j)) in Hl1.
  2: { split; [apply length_replicate | intros; lia]. }
  2: { intros i v v' Hi [Hlen' Hpre] Hb. ok_inv. subst v'.
       rewrite length_insert. split; [done |].
       intros j Hj. destruct (decide (j = i)) as [->|Hne].
       - rewrite list_lookup_insert_eq by lia. by rewrite Hv.
       - rewrite list_lookup_insert_ne by done. apply Hpre. lia. }
  destruct Hl1 as [Hlen1 Hpool].
  apply (for_loop_inv
           (λ i (v : list Z),
              length v = numTokens c ∧
              ∀ j, (j < numPoolTokens c + i)%nat →
                   v !! j = tv_value <$> tokenWithValues !! j)) in Hl2.
  2: { split; [done |]. intros j Hj. apply Hpool. lia. }
  2: { intros i v v' Hi [Hlen' Hpre] Hb. ok_inv. subst v'.
       rewrite length_insert. split; [done |].
       intros j Hj. destruct (decide (j = numPoolTokens c + i)%nat)
         as [->|Hne].
       - rewrite list_lookup_insert_eq by (unfold numTokens in *; lia).
         by rewrite Hv.
       - rewrite list_lookup_insert_ne by done. apply Hpre. lia. }
  destruct Hl2 as [Hlen2 Hall]. split; [ | done].
  apply list_eq. intros j.
  change (map tv_value tokenWithValues) with (tv_value <$> tokenWithValues).
  rewrite list_lookup_fmap.
  destruct (decide (j < numTokens c)%nat) as [Hj|Hj].
  - apply Hall. unfold numTokens in Hj. lia.
  - rewrite (proj2 (lookup_ge_None values j)) by lia.
    by rewrite (proj2 (lookup_ge_None tokenWithValues j)) by lia.
Qed.

(** ** The price selection of deposits *)

Lemma for_from_unit_Ok (body : nat → unit → result unit) (count start : nat) :
  for_from start count body tt = Ok tt →
  ∀ i, (start ≤ i < start + count)%nat → body i tt = Ok tt.
Proof.
  revert start. induction count as [|n IH]; intros start Hrun i Hi; [lia |].
  cbn in Hrun. apply bind_Ok in Hrun as ([] & Hb & Hrun).
  destruct (decide (i = start)) as [->|Hne]; [exact Hb |].
  apply (IH (S start) Hrun). lia.
Qed.

Lemma for_from_unit_all_Ok (body : nat → unit → result unit)
    (count start : nat) :
  (∀ j, (start ≤ j < start + count)%nat → body j tt = Ok tt) →
  for_from start count body tt = Ok tt.
Proof.
  revert start. induction count as [|n IH]; intros start Hall; [done |].
  cbn. rewrite Hall by lia. cbn. apply IH. intros j Hj. apply Hall. lia.
Qed.

(** The ternary of the source computes [max / min]. *)
Lemma divergenceRatio_code (o p : Z) :
  (if p <? o then mulDiv o ONE p else mulDiv p ONE o) = divergenceRatio o p.
Proof.
  unfold divergenceRatio. destruct (Z.ltb_spec p o).
  - by rewrite Z.max_l, Z.min_r by lia.
  - by rewrite Z.max_r, Z.min_l by lia.
Qed.

Lemma checkDivergence_step (c : Config) (oraclePrices spotPrices : list Z)
    (i : nat) (r : Z) :
  i ≠ numeraireAssetIndex c →
  slotDivergence oraclePrices spotPrices i r →
  (if decide (i = numeraireAssetIndex c) then Ok tt
   else
     o ← get oraclePrices i;
     p ← get spotPrices i;
     ratio ← (if p <? o then mulDiv o ONE p else mulDiv p ONE o);
     require (negb (maxOracleSpotDivergence c <? ratio))
       (Mammon__OracleSpotPriceDivergenceExceedsMax i ratio
          (maxOracleSpotDivergence c)))
  = require (negb (maxOracleSpotDivergence c <? r))
      (Mammon__OracleSpotPriceDivergenceExceedsMax i r
         (maxOracleSpotDivergence c)).
Proof.
  intros Hn (o & p & Ho & Hp & Hr).
  destruct (decide (i = numeraireAssetIndex c)); [done |].
  rewrite (proj2 (get_Ok _ _ _) Ho), (proj2 (get_Ok _ _ _) Hp). cbn.
  by rewrite divergenceRatio_code, Hr.
Qed.

Lemma checkDivergence_within (c : Config) (oraclePrices spotPrices : list Z) :
  (∀ j, (j < numPoolTokens c)%nat → j ≠ numeraireAssetIndex c →
        ∃ r, slotDivergence oraclePrices spotPrices j r ∧
             r ≤ maxOracleSpotDivergence c) →
  checkDivergence c oraclePrices spotPrices = Ok tt.
Proof.
  intros Hall. unfold checkDivergence, for_loop.
  apply for_from_unit_all_Ok. intros j Hj. cbv beta.
  pose proof (decide (j = numeraireAssetIndex c)) as [Hn|Hn].
  { by rewrite decide_True. }
  destruct (Hall j) as (r & Hr & Hle); [lia | done |].
  rewrite (checkDivergence_step c _ _ j r Hn Hr).
  apply require_Ok, negb_true_iff, Z.ltb_ge. lia.
Qed.

Lemma checkDivergence_exceeds (c : Config) (oraclePrices spotPrices : list Z)
    (i : nat) (r : Z) :
  (i < numPoolTokens c)%nat → i ≠ numeraireAssetIndex c →
  (∀ j, (j < i)%nat → j ≠ numeraireAssetIndex c →
        ∃ rj, slotDivergence oraclePrices spotPrices j rj) →
  slotDivergence oraclePrices spotPrices i r →
  maxOracleSpotDivergence c < r →
  ∃ k rk, checkDivergence c oraclePrices spotPrices
          = Err (Mammon__OracleSpotPriceDivergenceExceedsMax k rk
                   (maxOracleSpotDivergence c))
          ∧ (k ≤ i)%nat ∧ k ≠ numeraireAssetIndex c
          ∧ slotDivergence oraclePrices spotPrices k rk
          ∧ maxOracleSpotDivergence c < rk.
Proof.
  intros Hi Hn Hpre Hr Hgt. unfold checkDivergence, for_loop.
  destruct (for_from_unit_Err
      (λ e, ∃ k rk, e = Mammon__OracleSpotPriceDivergenceExceedsMax k rk
                          (maxOracleSpotDivergence c)
                    ∧ (k ≤ i)%nat ∧ k ≠ numeraireAssetIndex c
                    ∧ slotDivergence oraclePrices spotPrices k rk
                    ∧ maxOracleSpotDivergence c < rk)
      (λ i _,
         if decide (i = numeraireAssetIndex c) then Ok tt
         else
           o ← get oraclePrices i;
           p ← get spotPrices i;
           ratio ← (if p <? o then mulDiv o ONE p else mulDiv p ONE o);
           require (negb (maxOracleSpotDivergence c <? ratio))
             (Mammon__OracleSpotPriceDivergenceExceedsMax i ratio
                (maxOracleSpotDivergence c)))
      (numPoolTokens c) 0 i) as (e & He & k & rk & -> & Hk);
    [lia | | | by eauto].
  - intros j Hj. cbv beta.
    pose proof (decide (j = numeraireAssetIndex c)) as [Hjn|Hjn].
    { left. by rewrite decide_True. }
    assert (Hrj : ∃ rj, slotDivergence oraclePrices spotPrices j rj).
    { destruct (decide (j = i)) as [->|Hne]; [by eauto |].
      apply Hpre; [lia | done]. }
    destruct Hrj as [rj Hrj].
    rewrite (checkDivergence_step c _ _ j rj Hjn Hrj).
    destruct (Z.ltb_spec (maxOracleSpotDivergence c) rj); [right | by left].
    eexists. split; [reflexivity |]. exists j, rj.
    repeat split; [lia | done | done | done].
  - cbv beta. rewrite (checkDivergence_step c _ _ i r Hn Hr).
    apply Z.ltb_lt in Hgt. rewrite Hgt. cbn. eauto.
Qed.

Lemma getDeterminedPrices_read (c : Config) (x : Ctx) (s : State)
    (amounts oraclePrices updatedAt spotPrices : list Z) (value : Z) :
  pricesRead c x s oraclePrices updatedAt spotPrices value →
  getDeterminedPrices c x s amounts =
  if value <? minReliableVaultValue c then
    _ ← checkOracleStatus c x s updatedAt;
    Ok (oraclePrices, ORACLE)
  else
    _ ← checkDivergence c oraclePrices spotPrices;
    depositValue ← getValue c amounts spotPrices;
    if depositValue <? minSignificantDepositValue c then
      Ok (spotPrices, SPOT)
    else
      _ ← checkOracleStatus c x s updatedAt;
      Ok (oraclePrices, ORACLE).
Proof.
  intros (ph & ub & utb & Hph & Hop & Hsp & Hub & Hutb & Hval).
  unfold getDeterminedPrices.
  rewrite Hph. cbn. rewrite Hop. cbn. rewrite Hsp. cbn. rewrite Hub. cbn.
  rewrite Hutb. cbn. rewrite Hval. reflexivity.
Qed.

Lemma checkDivergence_Ok (c : Config) (oraclePrices spotPrices : list Z) :
  checkDivergence c oraclePrices spotPrices = Ok tt →
  ∀ j, (j < numPoolTokens c)%nat → j ≠ numeraireAssetIndex c →
       ∃ r, slotDivergence oraclePrices spotPrices j r ∧
            r ≤ maxOracleSpotDivergence c.
Proof.
  unfold checkDivergence, for_loop. intros Hrun j Hj Hn.
  pose proof (for_from_unit_Ok _ _ _ Hrun j ltac:(lia)) as Hb.
  cbv beta in Hb. rewrite decide_False in Hb by done.
  apply bind_Ok in Hb as (o & Ho & Hb). apply get_Ok in Ho.
  apply bind_Ok in Hb as (p & Hp & Hb). apply get_Ok in Hp.
  apply bind_Ok in Hb as (r & Hr & Hb). rewrite divergenceRatio_code in Hr.
  apply require_Ok, negb_true_iff, Z.ltb_ge in Hb.
  exists r. split; [by exists o, p | exact Hb].
Qed.

Lemma checkDivergence_ratio_Err (c : Config) (oraclePrices spotPrices : list Z)
    (i : nat) (o p : Z) (e : Error) :
  (i < numPoolTokens c)%nat → i ≠ numeraireAssetIndex c →
  (∀ j, (j < i)%nat → j ≠ numeraireAssetIndex c →
        ∃ r, slotDivergence oraclePrices spotPrices j r ∧
             r ≤ maxOracleSpotDivergence c) →
  oraclePrices !! i = Some o → spotPrices !! i = Some p →
  divergenceRatio o p = Err e →
  checkDivergence c oraclePrices spotPrices = Err e.
Proof.
  intros Hi Hn Hpre Ho Hp He. unfold checkDivergence, for_loop.
  apply (for_from_first_Err (λ _ _, True) _ (numPoolTokens c) 0 i tt);
    [lia | done | | ].
  - intros j [] Hj _. exists tt. split; [ | done].
    pose proof (decide (j = numeraireAssetIndex c)) as [Hjn|Hjn].
    { by rewrite decide_True. }
    destruct (Hpre j) as (r & Hr & Hle); [lia | done |].
    rewrite (checkDivergence_step c _ _ j r Hjn Hr).
    apply require_Ok, negb_true_iff, Z.ltb_ge. lia.
  - intros [] _. rewrite decide_False by done.
    rewrite (proj2 (get_Ok _ _ _) Ho), (proj2 (get_Ok _ _ _) Hp). cbn.
    by rewrite divergenceRatio_code, He.
Qed.

(** C2 (amended).  Once its reads have succeeded, [getDeterminedPrices]
    decides as follows.  Below [minReliableVaultValue] the result is that of
    the staleness check followed by the oracle prices, whatever the
    divergence of the prices.  Otherwise a non-numeraire pool slot whose
    ratio [max(oracle, spot) / min(oracle, spot)] exceeds
    [maxOracleSpotDivergence] makes it fail with
    [OracleSpotPriceDivergenceExceedsMax] (for the first such slot), provided
    the ratios of the non-numeraire slots before it can be computed; a slot
    whose ratio cannot be computed (a zero price, a product beyond uint256),
    met after slots within the limit, makes it fail with the panic of that
    ratio; and it can only succeed when every ratio is within the limit.
    With all ratios within the limit, a deposit worth less than
    [minSignificantDepositValue] at the spot prices gets the spot prices,
    whatever the state of the oracles, and any other deposit gets the result
    of the staleness check followed by the oracle prices. *)
Theorem C2_determined_prices (c : Config) (x : Ctx) (s : State)
    (amounts oraclePrices updatedAt spotPrices : list Z) (value : Z) :
  pricesRead c x s oraclePrices updatedAt spotPrices value →
  (value < minReliableVaultValue c →
   getDeterminedPrices c x s amounts =
   (_ ← checkOracleStatus c x s updatedAt; Ok (oraclePrices, ORACLE))) ∧
  (minReliableVaultValue c ≤ value →
   (∀ i r,
      (i < numPoolTokens c)%nat → i ≠ numeraireAssetIndex c →
      (∀ j, (j < i)%nat → j ≠ numeraireAssetIndex c →
            ∃ rj, slotDivergence oraclePrices spotPrices j rj) →
      slotDivergence oraclePrices spotPrices i r →
      maxOracleSpotDivergence c < r →
      ∃ k rk, getDeterminedPrices c x s amounts
              = Err (Mammon__OracleSpotPriceDivergenceExceedsMax k rk
                       (maxOracleSpotDivergence c))
              ∧ (k ≤ i)%nat ∧ k ≠ numeraireAssetIndex c
              ∧ slotDivergence oraclePrices spotPrices k rk
              ∧ maxOracleSpotDivergence c < rk) ∧
   (∀ i o p e,
      (i < numPoolTokens c)%nat → i ≠ numeraireAssetIndex c →
      (∀ j, (j < i)%nat → j ≠ numeraireAssetIndex c →
            ∃ r, slotDivergence oraclePrices spotPrices j r ∧
                 r ≤ maxOracleSpotDivergence c) →
      oraclePrices !! i = Some o → spotPrices !! i = Some p →
      divergenceRatio o p = Err e →
      getDeterminedPrices c x s amounts = Err e) ∧
   (∀ prices priceType,
      getDeterminedPrices c x s amounts = Ok (prices, priceType) →
      ∀ j, (j < numPoolTokens c)%nat → j ≠ numeraireAssetIndex c →
           ∃ r, slotDivergence oraclePrices spotPrices j r ∧
                r ≤ maxOracleSpotDivergence c) ∧
   ((∀ j, (j < numPoolTokens c)%nat → j ≠ numeraireAssetIndex c →
          ∃ r, slotDivergence oraclePrices spotPrices j r ∧
               r ≤ maxOracleSpotDivergence c) →
    ∀ depositValue,
      getValue c amounts spotPrices = Ok depositValue →
      (depositValue < minSignificantDepositValue c →
       getDeterminedPrices c x s amounts = Ok (spotPrices, SPOT)) ∧
      (minSignificantDepositValue c ≤ depositValue →
       getDeterminedPrices c x s amounts =
       (_ ← checkOracleStatus c x s updatedAt; Ok (oraclePrices, ORACLE))))).
Proof.
  intros Hread.
  rewrite (getDeterminedPrices_read c x s amounts _ _ _ _ Hread).
  split.
  - intros Hlow. apply Z.ltb_lt in Hlow. by rewrite Hlow.
  - intros Hhigh. apply Z.ltb_ge in Hhigh. rewrite Hhigh.
    split; [ | split; [ | split]].
    + intros i r Hi Hn Hpre Hr Hgt.
      destruct (checkDivergence_exceeds c oraclePrices spotPrices i r Hi Hn
                  Hpre Hr Hgt) as (k & rk & He & Hk).
      exists k, rk. by rewrite He.
    + intros i o p e Hi Hn Hpre Ho Hp He.
      by rewrite (checkDivergence_ratio_Err c oraclePrices spotPrices i o p e
                    Hi Hn Hpre Ho Hp He).
    + intros prices priceType Hrun.
      apply bind_Ok in Hrun as ([] & Hdiv & _).
      by apply checkDivergence_Ok.
    + intros Hall depositValue Hdep.
      rewrite (checkDivergence_within c _ _ Hall), Hdep. cbn. split.
      * intros Hlt. apply Z.ltb_lt in Hlt. by rewrite Hlt.
      * intros Hge. apply Z.ltb_ge in Hge. by rewrite Hge.
Qed.

Lemma C2_determined_prices_witness :
  getDeterminedPrices (ex_config 0) ex_late_guardian_call ex_state
    [ONE; ONE; ONE; 5 * 10 ^ 17]
  = Ok ([ONE; 1000001000001000001], SPOT).
Proof.
  assert (Hread : pricesRead (ex_config 0) ex_late_guardian_call ex_state
                    [ONE; ONE] [0; 1400] [ONE; 1000001000001000001]
                    220000110000110000110).
  { eexists _, _, _.
    split; [vm_compute; reflexivity |]. split; [vm_compute; reflexivity |].
    split; [vm_compute; reflexivity |]. split; [vm_compute; reflexivity |].
    split; [vm_compute; reflexivity |]. vm_compute. reflexivity. }
  assert (Hall : ∀ j, (j < numPoolTokens (ex_config 0))%nat →
                      j ≠ numeraireAssetIndex (ex_config 0) →
                      ∃ r, slotDivergence [ONE; ONE]
                             [ONE; 1000001000001000001] j r ∧
                           r ≤ maxOracleSpotDivergence (ex_config 0)).
  { intros j Hj Hn. change (j < 2)%nat in Hj. change (j ≠ 0%nat) in Hn.
    assert (j = 1%nat) as -> by lia.
    exists 1000001000001000001. split.
    - exists ONE, 1000001000001000001.
      split; [reflexivity | split; [reflexivity | vm_compute; reflexivity]].
    - vm_compute. discriminate. }
  assert (Hdep : getValue (ex_config 0) [ONE; ONE; ONE; 5 * 10 ^ 17]
                   [ONE; 1000001000001000001] = Ok 2000001000001000001)
    by (vm_compute; reflexivity).
  assert (Hhigh : minReliableVaultValue (ex_config 0) ≤ 220000110000110000110)
    by (vm_compute; discriminate).
  assert (Hlt : 2000001000001000001 < minSignificantDepositValue (ex_config 0))
    by (vm_compute; reflexivity).
  exact (proj1 (proj2 (proj2 (proj2 (proj2 (C2_determined_prices (ex_config 0)
           ex_late_guardian_call ex_state [ONE; ONE; ONE; 5 * 10 ^ 17]
           [ONE; ONE] [0; 1400] [ONE; 1000001000001000001]
           220000110000110000110 Hread) Hhigh))) Hall 2000001000001000001
           Hdep) Hlt).
Defined.

(** C2, as stated, fails: three pool tokens, the vault worth more than
    [minReliableVaultValue].  The pool holds so much of token 12 that its
    spot price truncates to zero, and the spot price of token 13 is 1.94
    against an oracle price of 1: the ratio of slot 2 exceeds the maximum
    of 1.1, but the loop meets slot 1 first, where the ratio divides by the
    zero spot price, and the call aborts with a division-by-zero panic, not
    with [OracleSpotPriceDivergenceExceedsMax]. *)
Lemma C2_counterexample :
  pricesRead ex_three_config ex_owner_call
    (ex_three_state (10 ^ 40) (50 * ONE) 1400 1400)
    [ONE; ONE; ONE] [0; 1400; 1400] [ONE; 0; 1941178411766647060]
    197058920588332353000 ∧
  minReliableVaultValue ex_three_config ≤ 197058920588332353000 ∧
  slotDivergence [ONE; ONE; ONE] [ONE; 0; 1941178411766647060] 2
    1941178411766647060 ∧
  maxOracleSpotDivergence ex_three_config < 1941178411766647060 ∧
  getDeterminedPrices ex_three_config ex_owner_call
    (ex_three_state (10 ^ 40) (50 * ONE) 1400 1400) [ONE; ONE; ONE]
  = Err (Panic DivisionByZero) ∧
  deposit ex_three_config ex_owner_call (ex_three_values ONE ONE ONE)
    (ex_three_state (10 ^ 40) (50 * ONE) 1400 1400)
  = Err (Panic DivisionByZero).
Proof.
  split.
  { eexists _, _, _.
    split; [vm_compute; reflexivity |]. split; [vm_compute; reflexivity |].
    split; [vm_compute; reflexivity |]. split; [vm_compute; reflexivity |].
    split; [vm_compute; reflexivity |]. vm_compute. reflexivity. }
  split; [vm_compute; discriminate |].
  split.
  { exists ONE, 1941178411766647060.
    split; [reflexivity | split; [reflexivity | vm_compute; reflexivity]]. }
  split; [vm_compute; reflexivity |].
  split; vm_compute; reflexivity.
Qed.

(** ** The oracle staleness gate *)

Lemma checkOracleStatus_disabled (c : Config) (x : Ctx) (s : State)
    (updatedAt : list Z) :
  oraclesEnabled s = false →
  checkOracleStatus c x s updatedAt = Err Mammon__OraclesAreDisabled.
Proof. intros H. unfold checkOracleStatus. by rewrite H. Qed.

(** With a stale slot the check cannot pass. *)
Lemma checkOracleStatus_stale_fails (c : Config) (x : Ctx) (s : State)
    (updatedAt : list Z) (i : nat) (u : Z) :
  (i < numOracles c)%nat → i ≠ numeraireAssetIndex c →
  updatedAt !! i = Some u → maxOracleDelay c < block_timestamp x - u →
  ∃ e, checkOracleStatus c x s updatedAt = Err e.
Proof.
  intros Hi Hn Hu Hstale.
  destruct (checkOracleStatus c x s updatedAt) as [[]|e] eqn:Hrun; [ | eauto].
  exfalso. unfold checkOracleStatus in Hrun.
  apply bind_Ok in Hrun as (_ & _ & Hrun).
  pose proof (for_from_unit_Ok _ _ _ Hrun i ltac:(lia)) as Hb.
  cbv beta in Hb.
  destruct (decide (i = numeraireAssetIndex c)); [done |].
  rewrite (proj2 (get_Ok _ _ _) Hu) in Hb. cbn in Hb.
  apply bind_Ok in Hb as (d & Hd & Hb). apply sub_Ok in Hd as [-> _].
  apply require_Ok, negb_true_iff, Z.ltb_ge in Hb. lia.
Qed.

(** When the slots before a stale one carry timestamps that are not in the
    future, the check fails with [OracleIsDelayedBeyondMax]. *)
Lemma checkOracleStatus_stale (c : Config) (x : Ctx) (s : State)
    (updatedAt : list Z) (i : nat) (u : Z) :
  oraclesEnabled s = true → 0 ≤ maxOracleDelay c →
  (i < numOracles c)%nat → i ≠ numeraireAssetIndex c →
  updatedAt !! i = Some u → maxOracleDelay c < block_timestamp x - u →
  (∀ j, (j < i)%nat → j ≠ numeraireAssetIndex c →
        ∃ v, updatedAt !! j = Some v ∧ v ≤ block_timestamp x) →
  ∃ k d, checkOracleStatus c x s updatedAt
         = Err (Mammon__OracleIsDelayedBeyondMax k d (maxOracleDelay c))
         ∧ maxOracleDelay c < d ∧ (k ≤ i)%nat ∧ k ≠ numeraireAssetIndex c
         ∧ updatedAt !! k = Some (block_timestamp x - d).
Proof.
  intros Hen Hmax Hi Hn Hu Hstale Hpast.
  unfold checkOracleStatus. rewrite Hen. cbn.
  destruct (for_from_unit_Err
      (λ e, ∃ k d, e = Mammon__OracleIsDelayedBeyondMax k d (maxOracleDelay c)
                   ∧ maxOracleDelay c < d ∧ (k ≤ i)%nat
                   ∧ k ≠ numeraireAssetIndex c
                   ∧ updatedAt !! k = Some (block_timestamp x - d))
      (λ i _,
         if decide (i = numeraireAssetIndex c) then Ok tt
         else
           u ← get updatedAt i;
           delay ← sub (block_timestamp x) u;
           require (negb (maxOracleDelay c <? delay))
             (Mammon__OracleIsDelayedBeyondMax i delay (maxOracleDelay c)))
      (numOracles c) 0 i) as (e & He & k & d & -> & Hd); [lia | | | by eauto].
  - intros j Hj. destruct (decide (j = numeraireAssetIndex c)); [by left |].
    assert (Hv : ∃ v, updatedAt !! j = Some v ∧ v ≤ block_timestamp x).
    { destruct (decide (j = i)) as [->|Hne].
      - exists u. split; [exact Hu | lia].
      - apply Hpast; [lia | done]. }
    destruct Hv as (v & Hv & Hle).
    rewrite (proj2 (get_Ok _ _ _) Hv). cbn.
    rewrite (proj2 (sub_Ok (block_timestamp x) v (block_timestamp x - v)))
      by (split; [reflexivity | exact Hle]).
    cbn. destruct (Z.ltb_spec (maxOracleDelay c) (block_timestamp x - v));
      [right | by left].
    eexists. split; [reflexivity |]. exists j, (block_timestamp x - v).
    repeat split; [done | lia | done |]. rewrite Hv. f_equal. lia.
  - destruct (decide (i = numeraireAssetIndex c)); [done |].
    rewrite (proj2 (get_Ok _ _ _) Hu). cbn.
    rewrite (proj2 (sub_Ok (block_timestamp x) u (block_timestamp x - u)))
      by (split; [reflexivity | lia]).
    cbn. apply Z.ltb_lt in Hstale. rewrite Hstale. cbn. eauto.
Qed.

(** A timestamp in the future, met before any stale slot, makes the checked
    subtraction of the delay underflow. *)
Lemma checkOracleStatus_future (c : Config) (x : Ctx) (s : State)
    (updatedAt : list Z) (i : nat) (u : Z) :
  oraclesEnabled s = true →
  (i < numOracles c)%nat → i ≠ numeraireAssetIndex c →
  updatedAt !! i = Some u → block_timestamp x < u →
  (∀ j, (j < i)%nat → j ≠ numeraireAssetIndex c →
        ∃ v, updatedAt !! j = Some v ∧ v ≤ block_timestamp x ∧
             block_timestamp x - v ≤ maxOracleDelay c) →
  checkOracleStatus c x s updatedAt = Err (Panic ArithmeticOverflow).
Proof.
  intros Hen Hi Hn Hu Hfut Hpre.
  unfold checkOracleStatus, for_loop. rewrite Hen. cbn.
  apply (for_from_first_Err (λ _ _, True) _ (numOracles c) 0 i tt);
    [lia | done | | ].
  - intros j [] Hj _. exists tt. split; [ | done].
    destruct (decide (j = numeraireAssetIndex c)); [done |].
    destruct (Hpre j) as (v & Hv & Hle & Hfresh); [lia | done |].
    rewrite (proj2 (get_Ok _ _ _) Hv). cbn.
    rewrite (proj2 (sub_Ok (block_timestamp x) v (block_timestamp x - v)))
      by (split; [reflexivity | exact Hle]).
    cbn. apply require_Ok, negb_true_iff, Z.ltb_ge. exact Hfresh.
  - intros [] _. destruct (decide (i = numeraireAssetIndex c)); [done |].
    rewrite (proj2 (get_Ok _ _ _) Hu). cbn. unfold sub.
    destruct (Z.leb_spec u (block_timestamp x)); [lia | reflexivity].
Qed.

Lemma getOraclePrices_Ok (c : Config) (s : State) (prices updatedAt : list Z) :
  getOraclePrices c s = Ok (prices, updatedAt) →
  length prices = numOracles c ∧ length updatedAt = numOracles c ∧
  (prices !! numeraireAssetIndex c = Some ONE
   ∨ (numOracles c ≤ numeraireAssetIndex c)%nat) ∧
  ∀ i, (i < numOracles c)%nat → i ≠ numeraireAssetIndex c →
       ∃ answer u, oracleFeeds s !! i = Some (answer, u) ∧ 0 < answer ∧
                   updatedAt !! i = Some u.
Proof.
  unfold getOraclePrices. intros H.
  apply bind_Ok in H as (units & _ & H).
  apply (for_loop_inv
           (λ n '(p, ua),
              length p = numOracles c ∧ length ua = numOracles c ∧
              (p !! numeraireAssetIndex c = Some ONE
               ∨ (n ≤ numeraireAssetIndex c)%nat) ∧
              ∀ i, (i < n)%nat → i ≠ numeraireAssetIndex c →
                   ∃ answer u, oracleFeeds s !! i = Some (answer, u) ∧
                               0 < answer ∧ ua !! i = Some u)) in H.
  - exact H.
  - unfold new_array. rewrite !length_replicate.
    repeat split; [right; lia | intros; lia].
  - intros n [p ua] [p' ua'] Hn (Hp & Hua & Hnum & Hpre) Hb.
    cbv beta iota in Hb.
    destruct (decide (n = numeraireAssetIndex c)) as [->|Hne].
    + ok_inv. subst. rewrite length_insert.
      repeat split; [done | done | | ].
      * left. by apply list_lookup_insert_eq.
      * intros i Hi Hine. apply Hpre; [lia | done].
    + apply bind_Ok in Hb as ([answer u] & Hfeed & Hb).
      unfold oracle_latestRoundData in Hfeed.
      destruct (oracleFeeds s !! n) as [r|] eqn:Hr; [ | discriminate].
      injection Hfeed as ->.
      apply bind_Ok in Hb as (ua1 & Hset & Hb). apply set_Ok in Hset as [? ->].
      apply bind_Ok in Hb as ([] & Hpos & Hb).
      apply require_Ok, Z.ltb_lt in Hpos.
      apply bind_Ok in Hb as (p1 & Hset & Hb). apply set_Ok in Hset as [? ->].
      apply bind_Ok in Hb as (unit & _ & Hb).
      assert (Hres : p' = <[n := answer]> p ∧ ua' = <[n := u]> ua
                     ∨ ∃ q, p' = <[n := q]> (<[n := answer]> p)
                            ∧ ua' = <[n := u]> ua).
      { destruct (unit =? ONE).
        - left. by injection Hb as <- <-.
        - right. ok_inv. subst. eauto. }
      assert (Hua' : ua' = <[n := u]> ua) by (destruct Hres as [[_ ?]|(? & _ & ?)]; done).
      assert (Hp' : length p' = numOracles c ∧
                    p' !! numeraireAssetIndex c = p !! numeraireAssetIndex c).
      { destruct Hres as [[-> _]|(q & -> & _)];
          rewrite ?length_insert, ?list_lookup_insert_ne by done; done. }
      destruct Hp' as [Hlp Hlk]. rewrite Hua', length_insert.
      repeat split; [done | done | | ].
      * rewrite Hlk. destruct Hnum as [?|?]; [by left | right; lia].
      * intros i Hi Hine. destruct (decide (i = n)) as [->|Hin].
        -- exists answer, u. rewrite list_lookup_insert_eq by lia. done.
        -- destruct (Hpre i) as (a & v & Hf & Ha & Hv); [lia | done |].
           exists a, v. by rewrite list_lookup_insert_ne.
Qed.

Lemma enableTradingWithOraclePrice_stale (c : Config) (x : Ctx) (s : State)
    (i : nat) (answer u : Z) :
  (i < numOracles c)%nat → i ≠ numeraireAssetIndex c →
  oracleFeeds s !! i = Some (answer, u) →
  maxOracleDelay c < block_timestamp x - u →
  ∃ e, enableTradingWithOraclePrice c x s = Err e.
Proof.
  intros Hi Hn Hfeed Hstale.
  destruct (enableTradingWithOraclePrice c x s) as [s'|e] eqn:Hrun; [ | eauto].
  exfalso. unfold enableTradingWithOraclePrice in Hrun.
  do 3 apply bind_Ok in Hrun as (_ & _ & Hrun).
  apply bind_Ok in Hrun as ([prices updatedAt] & Hprices & Hrun).
  apply bind_Ok in Hrun as ([] & Hcheck & _).
  apply getOraclePrices_Ok in Hprices as (_ & _ & _ & Hua).
  destruct (Hua i Hi Hn) as (a & v & Hf & _ & Hv).
  assert (v = u) as -> by congruence.
  destruct (checkOracleStatus_stale_fails c x s updatedAt i u Hi Hn Hv Hstale)
    as [e He].
  congruence.
Qed.

(** With a stale feed [getDeterminedPrices] fails or selects the spot
    prices. *)
Lemma getDeterminedPrices_stale (c : Config) (x : Ctx) (s : State)
    (amounts : list Z) (i : nat) (answer u : Z) :
  (i < numOracles c)%nat → i ≠ numeraireAssetIndex c →
  oracleFeeds s !! i = Some (answer, u) →
  maxOracleDelay c < block_timestamp x - u →
  ∀ prices priceType,
    getDeterminedPrices c x s amounts = Ok (prices, priceType) →
    priceType = SPOT.
Proof.
  intros Hi Hn Hfeed Hstale prices priceType Hrun.
  unfold getDeterminedPrices in Hrun.
  apply bind_Ok in Hrun as (poolHoldings & _ & Hrun).
  apply bind_Ok in Hrun as ([oraclePrices updatedAt] & Hprices & Hrun).
  apply getOraclePrices_Ok in Hprices as (_ & _ & _ & Hua).
  destruct (Hua i Hi Hn) as (a & v & Hf & _ & Hv).
  assert (v = u) as -> by congruence.
  destruct (checkOracleStatus_stale_fails c x s updatedAt i u Hi Hn Hv Hstale)
    as [e He].
  do 4 apply bind_Ok in Hrun as (? & _ & Hrun).
  destruct (_ <? minReliableVaultValue c).
  - apply bind_Ok in Hrun as (? & Hcheck & _). congruence.
  - do 2 apply bind_Ok in Hrun as (? & _ & Hrun).
    destruct (_ <? minSignificantDepositValue c); [by injection Hrun |].
    apply bind_Ok in Hrun as (? & Hcheck & _). congruence.
Qed.

(** With a stale feed the price selection of an oracle-priced deposit
    fails. *)
Lemma getDeterminedPrices_oraclePriced_stale (c : Config) (x : Ctx)
    (s : State) (amounts : list Z) (i : nat) (answer u : Z) :
  (i < numOracles c)%nat → i ≠ numeraireAssetIndex c →
  oracleFeeds s !! i = Some (answer, u) →
  maxOracleDelay c < block_timestamp x - u →
  oraclePriced c x s amounts →
  ∃ e, getDeterminedPrices c x s amounts = Err e.
Proof.
  intros Hi Hn Hfeed Hstale (op & ua & sp & value & Hread & Hcase).
  rewrite (getDeterminedPrices_read c x s amounts _ _ _ _ Hread).
  destruct Hread as (ph & ub & utb & _ & Hop & _).
  apply getOraclePrices_Ok in Hop as (_ & _ & _ & Hua).
  destruct (Hua i Hi Hn) as (a & v & Hf & _ & Hv).
  assert (v = u) as -> by congruence.
  destruct (checkOracleStatus_stale_fails c x s ua i u Hi Hn Hv Hstale)
    as [e He].
  destruct (value <? minReliableVaultValue c) eqn:Hlow.
  - rewrite He. cbn. eauto.
  - destruct Hcase as [Hlt | (dv & Hdv & Hge)].
    { apply Z.ltb_ge in Hlow. lia. }
    destruct (checkDivergence c op sp) as [[]|e'] eqn:Hdiv; cbn; [ | eauto].
    rewrite Hdv. cbn. apply Z.ltb_ge in Hge. rewrite Hge, He. cbn. eauto.
Qed.

(** A deposit that succeeds has locked the fees and determined its
    prices. *)
Lemma deposit_Ok (c : Config) (x : Ctx) (tokenWithAmount : list TokenValue)
    (s s' : State) :
  deposit c x tokenWithAmount s = Ok s' →
  ∃ s1 prices priceType,
    lockGuardianFees c x false s = Ok s1 ∧
    getDeterminedPrices c x s1 (map tv_value tokenWithAmount)
    = Ok (prices, priceType).
Proof.
  unfold deposit, depositTokensAndUpdateWeights. intros H.
  do 4 apply bind_Ok in H as (_ & _ & H).
  apply bind_Ok in H as (s1 & Hlock & H).
  apply bind_Ok in H as ([[poolTokens poolHoldings] blk] & _ & H).
  apply bind_Ok in H as (amounts & Hamounts & H).
  apply getValuesFromTokenWithValues_Ok in Hamounts as [-> _].
  apply bind_Ok in H as ([prices priceType] & Hprices & _).
  by exists s1, prices, priceType.
Qed.

Lemma deposit_stale (c : Config) (x : Ctx) (tokenWithAmount : list TokenValue)
    (s s' : State) (i : nat) (answer u : Z) :
  (i < numOracles c)%nat → i ≠ numeraireAssetIndex c →
  oracleFeeds s !! i = Some (answer, u) →
  maxOracleDelay c < block_timestamp x - u →
  deposit c x tokenWithAmount s = Ok s' →
  ∃ s1 prices,
    lockGuardianFees c x false s = Ok s1 ∧
    getDeterminedPrices c x s1 (map tv_value tokenWithAmount)
    = Ok (prices, SPOT).
Proof.
  intros Hi Hn Hfeed Hstale H.
  apply deposit_Ok in H as (s1 & prices & priceType & Hlock & Hprices).
  exists s1, prices. split; [exact Hlock |].
  pose proof (setup_oracleFeeds _ _ (lockGuardianFees_setup _ _ _ _ _ Hlock))
    as Hfeeds.
  rewrite <- Hfeeds in Hfeed.
  by rewrite <- (getDeterminedPrices_stale c x s1 _ i answer u Hi Hn Hfeed
                   Hstale _ _ Hprices).
Qed.

Lemma deposit_oraclePriced_stale (c : Config) (x : Ctx)
    (tokenWithAmount : list TokenValue) (s s1 : State) (i : nat)
    (answer u : Z) :
  (i < numOracles c)%nat → i ≠ numeraireAssetIndex c →
  oracleFeeds s !! i = Some (answer, u) →
  maxOracleDelay c < block_timestamp x - u →
  lockGuardianFees c x false s = Ok s1 →
  oraclePriced c x s1 (map tv_value tokenWithAmount) →
  ∃ e, deposit c x tokenWithAmount s = Err e.
Proof.
  intros Hi Hn Hfeed Hstale Hlock Hpriced.
  pose proof (setup_oracleFeeds _ _ (lockGuardianFees_setup _ _ _ _ _ Hlock))
    as Hfeeds.
  rewrite <- Hfeeds in Hfeed.
  destruct (getDeterminedPrices_oraclePriced_stale c x s1 _ i answer u Hi Hn
              Hfeed Hstale Hpriced) as [e He].
  destruct (deposit c x tokenWithAmount s) as [s'|e'] eqn:Hdep; [ | eauto].
  apply deposit_Ok in Hdep as (s1' & prices & priceType & Hlock' & Hprices).
  congruence.
Qed.

(** C7 (amended).  [checkOracleStatus] fails with [OraclesAreDisabled]
    whenever the oracles are disabled.  Otherwise it fails with
    [OracleIsDelayedBeyondMax] whenever [now - updatedAt[i] > maxOracleDelay]
    for a non-numeraire slot, provided the non-numeraire slots before it
    carry timestamps that are not later than now; a timestamp later than now
    at a non-numeraire slot, with the slots before it fresh, makes it abort
    with an arithmetic panic instead.  With a feed older than
    [maxOracleDelay] at a non-numeraire slot, whatever the feeds' answers,
    [checkOracleStatus] fails on the feeds' timestamps,
    [enableTradingWithOraclePrice] fails, [getDeterminedPrices] can only
    select the spot prices, a deposit can only succeed with the spot prices,
    and every oracle-priced deposit fails. *)
Theorem C7_oracle_staleness_gate :
  (∀ c x s updatedAt,
     oraclesEnabled s = false →
     checkOracleStatus c x s updatedAt = Err Mammon__OraclesAreDisabled) ∧
  (∀ c x s updatedAt i u,
     oraclesEnabled s = true → 0 ≤ maxOracleDelay c →
     (i < numOracles c)%nat → i ≠ numeraireAssetIndex c →
     updatedAt !! i = Some u → maxOracleDelay c < block_timestamp x - u →
     (∀ j, (j < i)%nat → j ≠ numeraireAssetIndex c →
           ∃ v, updatedAt !! j = Some v ∧ v ≤ block_timestamp x) →
     ∃ k d, checkOracleStatus c x s updatedAt
            = Err (Mammon__OracleIsDelayedBeyondMax k d (maxOracleDelay c))
            ∧ maxOracleDelay c < d ∧ (k ≤ i)%nat ∧ k ≠ numeraireAssetIndex c
            ∧ updatedAt !! k = Some (block_timestamp x - d)) ∧
  (∀ c x s updatedAt i u,
     oraclesEnabled s = true →
     (i < numOracles c)%nat → i ≠ numeraireAssetIndex c →
     updatedAt !! i = Some u → block_timestamp x < u →
     (∀ j, (j < i)%nat → j ≠ numeraireAssetIndex c →
           ∃ v, updatedAt !! j = Some v ∧ v ≤ block_timestamp x ∧
                block_timestamp x - v ≤ maxOracleDelay c) →
     checkOracleStatus c x s updatedAt = Err (Panic ArithmeticOverflow)) ∧
  (∀ c x s i answer u,
     (i < numOracles c)%nat → i ≠ numeraireAssetIndex c →
     oracleFeeds s !! i = Some (answer, u) →
     maxOracleDelay c < block_timestamp x - u →
     (∀ updatedAt, updatedAt !! i = Some u →
                   ∃ e, checkOracleStatus c x s updatedAt = Err e) ∧
     (∃ e, enableTradingWithOraclePrice c x s = Err e) ∧
     (∀ amounts prices priceType,
        getDeterminedPrices c x s amounts = Ok (prices, priceType) →
        priceType = SPOT) ∧
     (∀ tokenWithAmount s',
        deposit c x tokenWithAmount s = Ok s' →
        ∃ s1 prices,
          lockGuardianFees c x false s = Ok s1 ∧
          getDeterminedPrices c x s1 (map tv_value tokenWithAmount)
          = Ok (prices, SPOT)) ∧
     (∀ tokenWithAmount s1,
        lockGuardianFees c x false s = Ok s1 →
        oraclePriced c x s1 (map tv_value tokenWithAmount) →
        ∃ e, deposit c x tokenWithAmount s = Err e)).
Proof.
  split; [exact checkOracleStatus_disabled | split; [ | split]].
  - exact checkOracleStatus_stale.
  - exact checkOracleStatus_future.
  - intros c x s i answer u Hi Hn Hfeed Hstale.
    split; [ | split; [ | split; [ | split]]].
    + intros updatedAt Hu. by eapply checkOracleStatus_stale_fails.
    + by eapply enableTradingWithOraclePrice_stale.
    + intros amounts prices priceType. by eapply getDeterminedPrices_stale.
    + intros tokenWithAmount s'. by eapply deposit_stale.
    + intros tokenWithAmount s1. by eapply deposit_oraclePriced_stale.
Qed.

Lemma C7_oracle_staleness_gate_witness :
  (∃ k d, checkOracleStatus (ex_config 0) ex_late_guardian_call ex_state
            [0; 1400]
          = Err (Mammon__OracleIsDelayedBeyondMax k d 18000)
          ∧ 18000 < d ∧ (k ≤ 1)%nat ∧ k ≠ 0%nat
          ∧ [0; 1400] !! k = Some (30000 - d)) ∧
  (∃ e, enableTradingWithOraclePrice (ex_config 0) ex_late_guardian_call
          ex_state = Err e) ∧
  (∃ e, deposit (ex_config 0) ex_late_owner_call
          (ex_values (30 * ONE) ONE ONE (5 * 10 ^ 17)) ex_state = Err e).
Proof.
  destruct C7_oracle_staleness_gate as (_ & H2 & _ & H4). split; [ | split].
  - apply (H2 (ex_config 0) ex_late_guardian_call ex_state [0; 1400] 1%nat
             1400).
    + reflexivity.
    + vm_compute. discriminate.
    + vm_compute. lia.
    + discriminate.
    + reflexivity.
    + reflexivity.
    + intros j Hj Hn. change (j ≠ 0%nat) in Hn. lia.
  - assert (Hi : (1 < numOracles (ex_config 0))%nat) by (vm_compute; lia).
    assert (Hn : 1%nat ≠ numeraireAssetIndex (ex_config 0)) by discriminate.
    assert (Hfeed : oracleFeeds ex_state !! 1%nat = Some (10 ^ 8, 1400))
      by reflexivity.
    assert (Hstale : maxOracleDelay (ex_config 0)
                     < block_timestamp ex_late_guardian_call - 1400)
      by reflexivity.
    exact (proj1 (proj2 (H4 (ex_config 0) ex_late_guardian_call ex_state
                           1%nat (10 ^ 8) 1400 Hi Hn Hfeed Hstale))).
  - assert (Hi : (1 < numOracles (ex_config 0))%nat) by (vm_compute; lia).
    assert (Hn : 1%nat ≠ numeraireAssetIndex (ex_config 0)) by discriminate.
    assert (Hfeed : oracleFeeds ex_state !! 1%nat = Some (10 ^ 8, 1400))
      by reflexivity.
    assert (Hstale : maxOracleDelay (ex_config 0)
                     < block_timestamp ex_late_owner_call - 1400)
      by reflexivity.
    assert (Hlock : lockGuardianFees (ex_config 0) ex_late_owner_call false
                      ex_state = Ok ex_state) by reflexivity.
    assert (Hpriced : oraclePriced (ex_config 0) ex_late_owner_call ex_state
                        (map tv_value
                           (ex_values (30 * ONE) ONE ONE (5 * 10 ^ 17)))).
    { exists [ONE; ONE], [0; 1400], [ONE; 1000001000001000001],
        220000110000110000110.
      split.
      - eexists _, _, _.
        split; [vm_compute; reflexivity |].
        split; [vm_compute; reflexivity |].
        split; [vm_compute; reflexivity |].
        split; [vm_compute; reflexivity |].
        split; [vm_compute; reflexivity |]. vm_compute. reflexivity.
      - right. exists 31000001000001000001.
        split; [vm_compute; reflexivity | vm_compute; discriminate]. }
    exact (proj2 (proj2 (proj2 (proj2
             (H4 (ex_config 0) ex_late_owner_call ex_state 1%nat (10 ^ 8)
                1400 Hi Hn Hfeed Hstale))))
             (ex_values (30 * ONE) ONE ONE (5 * 10 ^ 17)) ex_state Hlock
             Hpriced).
Defined.

(** C7, as stated, fails: three oracles, the numeraire at slot 0, at time
    30000 with a maximum delay of 18000.  The feed of slot 2 was last updated
    at 1400 and is stale, but the feed of slot 1 reports the timestamp 30001:
    the checked subtraction [now - updatedAt[1]] underflows and
    [checkOracleStatus], and with it [enableTradingWithOraclePrice], aborts
    with an arithmetic panic, not with [OracleIsDelayedBeyondMax]. *)
Lemma C7_counterexample :
  oraclesEnabled (ex_three_state (100 * ONE) (100 * ONE) 30001 1400) = true ∧
  getOraclePrices ex_three_config
    (ex_three_state (100 * ONE) (100 * ONE) 30001 1400)
  = Ok ([ONE; ONE; ONE], [0; 30001; 1400]) ∧
  (2 < numOracles ex_three_config)%nat ∧
  2%nat ≠ numeraireAssetIndex ex_three_config ∧
  maxOracleDelay ex_three_config
  < block_timestamp ex_late_guardian_call - 1400 ∧
  checkOracleStatus ex_three_config ex_late_guardian_call
    (ex_three_state (100 * ONE) (100 * ONE) 30001 1400) [0; 30001; 1400]
  = Err (Panic ArithmeticOverflow) ∧
  enableTradingWithOraclePrice ex_three_config ex_late_guardian_call
    (ex_three_state (100 * ONE) (100 * ONE) 30001 1400)
  = Err (Panic ArithmeticOverflow).
Proof.
  split; [reflexivity |]. split; [vm_compute; reflexivity |].
  split; [vm_compute; lia |]. split; [discriminate |].
  split; [reflexivity |]. split; vm_compute; reflexivity.
Qed.

(** ** Dust threshold and absorbed wrapper failures *)

Lemma belowYieldActionThreshold_spec (c : Config) (amount oraclePrice : Z)
    (underlyingIndex : nat) :
  actionValueInRange c amount oraclePrice underlyingIndex →
  belowYieldActionThreshold c amount oraclePrice underlyingIndex
  = Ok (actionValue c amount oraclePrice underlyingIndex
        <? minYieldActionThreshold c).
Proof.
  unfold actionValueInRange, belowYieldActionThreshold, actionValue.
  intros Hr. destruct (decide (underlyingIndex = numeraireAssetIndex c));
    [reflexivity |].
  destruct Hr as [?|Hr]; [done |].
  assert (HONE : ONE ≠ 0) by discriminate.
  by rewrite (proj2 (mulDiv_Ok amount oraclePrice ONE _)
                (conj eq_refl (conj Hr HONE))).
Qed.

Lemma depositUnderlyingAsset_dust (c : Config) (y t : address)
    (amount price : Z) (k : nat) (s : State) :
  actionValueInRange c amount price k →
  actionValue c amount price k < minYieldActionThreshold c →
  depositUnderlyingAsset c y t amount price k s = Ok (s, 0).
Proof.
  intros Hr Hlt. unfold depositUnderlyingAsset.
  rewrite (belowYieldActionThreshold_spec c amount price k Hr). cbn.
  apply Z.ltb_lt in Hlt. by rewrite Hlt.
Qed.

Lemma withdrawUnderlyingAsset_dust (c : Config) (y t : address)
    (amount price : Z) (k : nat) (s : State) :
  actionValueInRange c amount price k →
  actionValue c amount price k < minYieldActionThreshold c →
  withdrawUnderlyingAsset c y t amount price k s = Ok (s, 0).
Proof.
  intros Hr Hlt. unfold withdrawUnderlyingAsset.
  rewrite (belowYieldActionThreshold_spec c amount price k Hr). cbn.
  apply Z.ltb_lt in Hlt. by rewrite Hlt.
Qed.

Lemma depositUnderlyingAsset_above (c : Config) (y t : address)
    (amount price : Z) (k : nat) (s : State) (w : Wrapper) :
  actionValueInRange c amount price k →
  minYieldActionThreshold c ≤ actionValue c amount price k →
  wrappers s !! y = Some w →
  depositUnderlyingAsset c y t amount price k s =
  match wrapper_maxDeposit w with
  | Err _ => Ok (s, 0)
  | Ok maxDepositAmount =>
      if maxDepositAmount =? 0 then Ok (s, 0)
      else
        s' ← wrapper_deposit y (Z.min amount maxDepositAmount) (this c)
               (this c) s;
        Ok (s', Z.min amount maxDepositAmount)
  end.
Proof.
  intros Hr Hge Hw. unfold depositUnderlyingAsset.
  rewrite (belowYieldActionThreshold_spec c amount price k Hr). cbn.
  apply Z.ltb_ge in Hge. rewrite Hge.
  unfold wrapper_at at 1. rewrite Hw. reflexivity.
Qed.

Lemma withdrawUnderlyingAsset_above (c : Config) (y t : address)
    (amount price : Z) (k : nat) (s : State) (w : Wrapper) :
  actionValueInRange c amount price k →
  minYieldActionThreshold c ≤ actionValue c amount price k →
  wrappers s !! y = Some w →
  withdrawUnderlyingAsset c y t amount price k s =
  match wrapper_maxWithdraw s y w (this c) with
  | Err _ => Ok (s, 0)
  | Ok maxWithdrawalAmount =>
      if maxWithdrawalAmount =? 0 then Ok (s, 0)
      else
        s' ← wrapper_withdraw y (Z.min amount maxWithdrawalAmount) (this c)
               (this c) s;
        withdrawn ← sub (balanceOf s' t (this c)) (balanceOf s t (this c));
        Ok (s', withdrawn)
  end.
Proof.
  intros Hr Hge Hw. unfold withdrawUnderlyingAsset.
  rewrite (belowYieldActionThreshold_spec c amount price k Hr). cbn.
  apply Z.ltb_ge in Hge. rewrite Hge.
  unfold wrapper_at at 1. rewrite Hw. reflexivity.
Qed.

(** An iteration whose withdrawal returns 0 without touching the state
    leaves the state and the amounts as they were. *)
Lemma withdrawFromYieldTokens_step_absorbed (c : Config)
    (poolTokens yieldTokens : list address) (underlyingIndexes : list nat)
    (withdrawAmounts oraclePrices : list Z) (i : nat) (s : State)
    (amounts : list Z) (wa : Z) (k : nat) (old : Z) (y t : address)
    (price : Z) :
  withdrawAmounts !! i = Some wa → underlyingIndexes !! i = Some k →
  amounts !! k = Some old → old ≤ MAX_UINT256 →
  yieldTokens !! i = Some y → poolTokens !! k = Some t →
  oraclePrices !! k = Some price →
  withdrawUnderlyingAsset c y t wa price k s = Ok (s, 0) →
  withdrawFromYieldTokens_step c poolTokens yieldTokens underlyingIndexes
    withdrawAmounts oraclePrices i (s, amounts) = Ok (s, amounts).
Proof.
  intros Hwa Hk Hold Hmax Hy Ht Hp Hcall.
  unfold withdrawFromYieldTokens_step.
  rewrite (proj2 (get_Ok _ _ _) Hwa). cbn.
  destruct (0 <? wa); [ | reflexivity].
  rewrite (proj2 (get_Ok _ _ _) Hk). cbn.
  rewrite (proj2 (get_Ok _ _ _) Hold). cbn.
  rewrite (proj2 (get_Ok _ _ _) Hy). cbn.
  rewrite (proj2 (get_Ok _ _ _) Ht). cbn.
  rewrite (proj2 (get_Ok _ _ _) Hp). cbn.
  rewrite Hcall. cbn.
  rewrite (proj2 (add_Ok old 0 old)) by (split; lia). cbn.
  rewrite (proj2 (set_Ok amounts (<[k := old]> amounts) k old))
    by (split; [by eapply lookup_lt_Some | reflexivity]).
  cbn. by rewrite list_insert_id.
Qed.

Lemma depositToYieldTokens_step_absorbed (c : Config)
    (poolTokens yieldTokens : list address) (underlyingIndexes : list nat)
    (depositAmounts oraclePrices : list Z) (i : nat) (s : State)
    (balances : list Z) (d : Z) (k : nat) (b bi : Z) (y t : address)
    (price : Z) :
  underlyingIndexes !! i = Some k → depositAmounts !! i = Some d →
  balances !! k = Some b → 0 ≤ b →
  yieldTokens !! i = Some y → poolTokens !! k = Some t →
  balances !! i = Some bi → oraclePrices !! k = Some price →
  depositUnderlyingAsset c y t (Z.min d bi) price k s = Ok (s, 0) →
  depositToYieldTokens_step c poolTokens yieldTokens underlyingIndexes
    depositAmounts oraclePrices i (s, balances) = Ok (s, balances).
Proof.
  intros Hk Hd Hb Hb0 Hy Ht Hbi Hp Hcall.
  unfold depositToYieldTokens_step.
  rewrite (proj2 (get_Ok _ _ _) Hk). cbn.
  rewrite (proj2 (get_Ok _ _ _) Hd). cbn.
  destruct (0 <? d); [ | reflexivity]. cbv iota.
  rewrite (proj2 (get_Ok _ _ _) Hb). cbn.
  destruct (0 <? b); [ | reflexivity]. cbn.
  rewrite (proj2 (get_Ok _ _ _) Hy). cbn.
  rewrite (proj2 (get_Ok _ _ _) Ht). cbn.
  rewrite (proj2 (get_Ok _ _ _) Hbi). cbn.
  rewrite (proj2 (get_Ok _ _ _) Hp). cbn.
  rewrite Hcall. cbn.
  rewrite (proj2 (sub_Ok b 0 b)) by (split; lia). cbn.
  rewrite (proj2 (set_Ok balances (<[k := b]> balances) k b))
    by (split; [by eapply lookup_lt_Some | reflexivity]).
  cbn. by rewrite list_insert_id.
Qed.

(** When every slot's withdrawal is skipped or absorbed, the loop of
    [withdrawFromYieldTokens] runs to its end and reports no withdrawal. *)
Lemma withdrawFromYieldTokens_all_absorbed (c : Config)
    (poolTokens yieldTokens : list address) (underlyingIndexes : list nat)
    (withdrawAmounts oraclePrices : list Z) (s : State) :
  (∀ i, (i < numYieldTokens c)%nat →
        ∃ wa k y t price,
          withdrawAmounts !! i = Some wa ∧ underlyingIndexes !! i = Some k ∧
          (k < numPoolTokens c)%nat ∧ yieldTokens !! i = Some y ∧
          poolTokens !! k = Some t ∧ oraclePrices !! k = Some price ∧
          withdrawUnderlyingAsset c y t wa price k s = Ok (s, 0)) →
  withdrawFromYieldTokens c poolTokens yieldTokens underlyingIndexes
    withdrawAmounts oraclePrices s = Ok (s, new_array (numPoolTokens c)).
Proof.
  intros Hall. unfold withdrawFromYieldTokens, for_loop.
  destruct (for_from_total
              (λ _ st, st = (s, new_array (numPoolTokens c)))
              (withdrawFromYieldTokens_step c poolTokens yieldTokens
                 underlyingIndexes withdrawAmounts oraclePrices)
              (numYieldTokens c) 0 (s, new_array (numPoolTokens c)))
    as (st & Hrun & ->); [reflexivity | | exact Hrun].
  intros i st Hi ->.
  destruct (Hall i) as (wa & k & y & t & price & Hwa & Hk & Hlt & Hy & Ht &
                        Hp & Hcall); [lia |].
  exists (s, new_array (numPoolTokens c)). split; [ | reflexivity].
  apply (withdrawFromYieldTokens_step_absorbed c _ _ _ _ _ i s _ wa k 0 y t
           price); try assumption.
  - unfold new_array. by apply lookup_replicate_2.
  - vm_compute. discriminate.
Qed.

(** An iteration of the deposit loop that is skipped or whose deposit is
    absorbed leaves the state and the balances as they were. *)
Lemma depositToYieldTokens_step_skipped (c : Config)
    (poolTokens yieldTokens : list address) (underlyingIndexes : list nat)
    (depositAmounts oraclePrices : list Z) (i : nat) (s : State)
    (balances : list Z) (d : Z) (k : nat) (b : Z) :
  underlyingIndexes !! i = Some k → depositAmounts !! i = Some d →
  balances !! k = Some b → 0 ≤ b →
  d ≤ 0 ∨ b = 0
  ∨ (∃ bi y t price,
       yieldTokens !! i = Some y ∧ poolTokens !! k = Some t ∧
       balances !! i = Some bi ∧ oraclePrices !! k = Some price ∧
       depositUnderlyingAsset c y t (Z.min d bi) price k s = Ok (s, 0)) →
  depositToYieldTokens_step c poolTokens yieldTokens underlyingIndexes
    depositAmounts oraclePrices i (s, balances) = Ok (s, balances).
Proof.
  intros Hk Hd Hb Hb0 [Hle | [-> | (bi & y & t & price & Hy & Ht & Hbi & Hp &
                                     Hcall)]].
  - unfold depositToYieldTokens_step.
    rewrite (proj2 (get_Ok _ _ _) Hk). cbn.
    rewrite (proj2 (get_Ok _ _ _) Hd). cbn.
    apply Z.ltb_ge in Hle. by rewrite Hle.
  - unfold depositToYieldTokens_step.
    rewrite (proj2 (get_Ok _ _ _) Hk). cbn.
    rewrite (proj2 (get_Ok _ _ _) Hd). cbn.
    destruct (0 <? d); [ | reflexivity]. cbv iota.
    by rewrite (proj2 (get_Ok _ _ _) Hb).
  - by eapply depositToYieldTokens_step_absorbed.
Qed.

(** When every slot's deposit is skipped or absorbed, [depositToYieldTokens]
    is left with its steps on the pool. *)
Lemma depositToYieldTokens_all_absorbed (c : Config) (x : Ctx)
    (poolTokens yieldTokens : list address) (underlyingIndexes : list nat)
    (poolHoldings depositAmounts balances oraclePrices : list Z) (s : State)
    (necessaryAmounts : list Z) (s1 : State) (balances1 : list Z) :
  calcNecessaryAmounts c x s underlyingIndexes poolHoldings depositAmounts
    balances = Ok necessaryAmounts →
  withdrawNecessaryTokensFromPool c poolTokens balances necessaryAmounts s
  = Ok (s1, balances1) →
  (∀ i, (i < numYieldTokens c)%nat →
        ∃ k d b,
          underlyingIndexes !! i = Some k ∧ depositAmounts !! i = Some d ∧
          balances1 !! k = Some b ∧ 0 ≤ b ∧
          (d ≤ 0 ∨ b = 0
           ∨ ∃ bi y t price,
               yieldTokens !! i = Some y ∧ poolTokens !! k = Some t ∧
               balances1 !! i = Some bi ∧ oraclePrices !! k = Some price ∧
               depositUnderlyingAsset c y t (Z.min d bi) price k s1
               = Ok (s1, 0))) →
  depositToYieldTokens c x poolTokens yieldTokens underlyingIndexes
    poolHoldings depositAmounts balances oraclePrices s
  = depositToPool c balances1 s1.
Proof.
  intros Hnec Hpull Hall. unfold depositToYieldTokens.
  rewrite Hnec. cbn. rewrite Hpull. cbn. unfold for_loop.
  destruct (for_from_total
              (λ _ st, st = (s1, balances1))
              (depositToYieldTokens_step c poolTokens yieldTokens
                 underlyingIndexes depositAmounts oraclePrices)
              (numYieldTokens c) 0 (s1, balances1))
    as (st & Hrun & ->); [reflexivity | | by rewrite Hrun].
  intros i st Hi ->.
  destruct (Hall i) as (k & d & b & Hk & Hd & Hb & Hb0 & Hcase); [lia |].
  exists (s1, balances1). split; [ | reflexivity].
  by eapply depositToYieldTokens_step_skipped.
Qed.

(** When every yield action is skipped or absorbed, [adjustYieldTokens] is
    left with its reads and its steps on the pool: nothing else can make it
    fail. *)
Lemma adjustYieldTokens_all_absorbed (c : Config) (x : Ctx)
    (poolTokens : list address) (underlyingIndexes : list nat)
    (poolHoldings targetWeights : list Z) (s : State)
    (underlyingBalances oraclePrices updatedAt : list Z)
    (depositAmounts withdrawAmounts necessaryAmounts : list Z) (s1 : State)
    (balances1 : list Z) :
  getUnderlyingBalances c s = Ok underlyingBalances →
  getOraclePrices c s = Ok (oraclePrices, updatedAt) →
  checkOracleStatus c x s updatedAt = Ok tt →
  calcAdjustmentAmounts c underlyingIndexes poolHoldings underlyingBalances
    targetWeights oraclePrices = Ok (depositAmounts, withdrawAmounts) →
  (∀ i, (i < numYieldTokens c)%nat →
        ∃ wa k y t price,
          withdrawAmounts !! i = Some wa ∧ underlyingIndexes !! i = Some k ∧
          (k < numPoolTokens c)%nat ∧ getYieldTokens c !! i = Some y ∧
          poolTokens !! k = Some t ∧ oraclePrices !! k = Some price ∧
          withdrawUnderlyingAsset c y t wa price k s = Ok (s, 0)) →
  calcNecessaryAmounts c x s underlyingIndexes poolHoldings depositAmounts
    (new_array (numPoolTokens c)) = Ok necessaryAmounts →
  withdrawNecessaryTokensFromPool c poolTokens (new_array (numPoolTokens c))
    necessaryAmounts s = Ok (s1, balances1) →
  (∀ i, (i < numYieldTokens c)%nat →
        ∃ k d b,
          underlyingIndexes !! i = Some k ∧ depositAmounts !! i = Some d ∧
          balances1 !! k = Some b ∧ 0 ≤ b ∧
          (d ≤ 0 ∨ b = 0
           ∨ ∃ bi y t price,
               getYieldTokens c !! i = Some y ∧ poolTokens !! k = Some t ∧
               balances1 !! i = Some bi ∧ oraclePrices !! k = Some price ∧
               depositUnderlyingAsset c y t (Z.min d bi) price k s1
               = Ok (s1, 0))) →
  adjustYieldTokens c x poolTokens underlyingIndexes poolHoldings
    targetWeights s
  = depositToPool c balances1 s1.
Proof.
  intros Hub Hop Hcheck Hadj Hwd Hnec Hpull Hdep. unfold adjustYieldTokens.
  rewrite Hub. cbn. rewrite Hop. cbn. rewrite Hcheck. cbn.
  rewrite Hadj. cbn.
  rewrite (withdrawFromYieldTokens_all_absorbed c _ _ _ _ _ s Hwd). cbn.
  by eapply depositToYieldTokens_all_absorbed.
Qed.

(** C8.  [depositUnderlyingAsset] and [withdrawUnderlyingAsset] return 0 and
    leave the state as it is when the value of the action (the raw amount on
    a slot of the numeraire, the amount at the oracle price otherwise) is
    below [minYieldActionThreshold], and when the wrapper's [maxDeposit] or
    [maxWithdraw] reverts or returns 0; otherwise they deposit or withdraw
    [min(amount, maximum)].  An iteration of the yield loops of the
    rebalancing whose action is absorbed in this way leaves the state and the
    running balances as they were and the loop goes on; when every action is
    skipped or absorbed, [withdrawFromYieldTokens] completes with no
    withdrawal and [adjustYieldTokens] is left with its reads and its steps
    on the pool. *)
Theorem C8_yield_actions :
  (∀ c y t amount price k s,
     actionValueInRange c amount price k →
     actionValue c amount price k < minYieldActionThreshold c →
     depositUnderlyingAsset c y t amount price k s = Ok (s, 0) ∧
     withdrawUnderlyingAsset c y t amount price k s = Ok (s, 0)) ∧
  (∀ c y t amount price k s w,
     actionValueInRange c amount price k →
     minYieldActionThreshold c ≤ actionValue c amount price k →
     wrappers s !! y = Some w →
     (wrapper_maxDeposit w = Ok 0 ∨ (∃ e, wrapper_maxDeposit w = Err e) →
      depositUnderlyingAsset c y t amount price k s = Ok (s, 0)) ∧
     (wrapper_maxWithdraw s y w (this c) = Ok 0
      ∨ (∃ e, wrapper_maxWithdraw s y w (this c) = Err e) →
      withdrawUnderlyingAsset c y t amount price k s = Ok (s, 0)) ∧
     (∀ m, wrapper_maxDeposit w = Ok m → m ≠ 0 →
           depositUnderlyingAsset c y t amount price k s =
           (s' ← wrapper_deposit y (Z.min amount m) (this c) (this c) s;
            Ok (s', Z.min amount m))) ∧
     (∀ m, wrapper_maxWithdraw s y w (this c) = Ok m → m ≠ 0 →
           withdrawUnderlyingAsset c y t amount price k s =
           (s' ← wrapper_withdraw y (Z.min amount m) (this c) (this c) s;
            withdrawn ← sub (balanceOf s' t (this c)) (balanceOf s t (this c));
            Ok (s', withdrawn)))) ∧
  (∀ c poolTokens yieldTokens underlyingIndexes withdrawAmounts oraclePrices
     i s amounts wa k old y t price,
     withdrawAmounts !! i = Some wa → underlyingIndexes !! i = Some k →
     amounts !! k = Some old → old ≤ MAX_UINT256 →
     yieldTokens !! i = Some y → poolTokens !! k = Some t →
     oraclePrices !! k = Some price →
     withdrawUnderlyingAsset c y t wa price k s = Ok (s, 0) →
     withdrawFromYieldTokens_step c poolTokens yieldTokens underlyingIndexes
       withdrawAmounts oraclePrices i (s, amounts) = Ok (s, amounts)) ∧
  (∀ c poolTokens yieldTokens underlyingIndexes depositAmounts oraclePrices
     i s balances d k b bi y t price,
     underlyingIndexes !! i = Some k → depositAmounts !! i = Some d →
     balances !! k = Some b → 0 ≤ b →
     yieldTokens !! i = Some y → poolTokens !! k = Some t →
     balances !! i = Some bi → oraclePrices !! k = Some price →
     depositUnderlyingAsset c y t (Z.min d bi) price k s = Ok (s, 0) →
     depositToYieldTokens_step c poolTokens yieldTokens underlyingIndexes
       depositAmounts oraclePrices i (s, balances) = Ok (s, balances)) ∧
  (∀ c poolTokens yieldTokens underlyingIndexes withdrawAmounts oraclePrices s,
     (∀ i, (i < numYieldTokens c)%nat →
           ∃ wa k y t price,
             withdrawAmounts !! i = Some wa ∧ underlyingIndexes !! i = Some k ∧
             (k < numPoolTokens c)%nat ∧ yieldTokens !! i = Some y ∧
             poolTokens !! k = Some t ∧ oraclePrices !! k = Some price ∧
             withdrawUnderlyingAsset c y t wa price k s = Ok (s, 0)) →
     withdrawFromYieldTokens c poolTokens yieldTokens underlyingIndexes
       withdrawAmounts oraclePrices s = Ok (s, new_array (numPoolTokens c))) ∧
  (∀ c x poolTokens underlyingIndexes poolHoldings targetWeights s
     underlyingBalances oraclePrices updatedAt depositAmounts withdrawAmounts
     necessaryAmounts s1 balances1,
     getUnderlyingBalances c s = Ok underlyingBalances →
     getOraclePrices c s = Ok (oraclePrices, updatedAt) →
     checkOracleStatus c x s updatedAt = Ok tt →
     calcAdjustmentAmounts c underlyingIndexes poolHoldings underlyingBalances
       targetWeights oraclePrices = Ok (depositAmounts, withdrawAmounts) →
     (∀ i, (i < numYieldTokens c)%nat →
           ∃ wa k y t price,
             withdrawAmounts !! i = Some wa ∧ underlyingIndexes !! i = Some k ∧
             (k < numPoolTokens c)%nat ∧ getYieldTokens c !! i = Some y ∧
             poolTokens !! k = Some t ∧ oraclePrices !! k = Some price ∧
             withdrawUnderlyingAsset c y t wa price k s = Ok (s, 0)) →
     calcNecessaryAmounts c x s underlyingIndexes poolHoldings depositAmounts
       (new_array (numPoolTokens c)) = Ok necessaryAmounts →
     withdrawNecessaryTokensFromPool c poolTokens
       (new_array (numPoolTokens c)) necessaryAmounts s
     = Ok (s1, balances1) →
     (∀ i, (i < numYieldTokens c)%nat →
           ∃ k d b,
             underlyingIndexes !! i = Some k ∧ depositAmounts !! i = Some d ∧
             balances1 !! k = Some b ∧ 0 ≤ b ∧
             (d ≤ 0 ∨ b = 0
              ∨ ∃ bi y t price,
                  getYieldTokens c !! i = Some y ∧ poolTokens !! k = Some t ∧
                  balances1 !! i = Some bi ∧ oraclePrices !! k = Some price ∧
                  depositUnderlyingAsset c y t (Z.min d bi) price k s1
                  = Ok (s1, 0))) →
     adjustYieldTokens c x poolTokens underlyingIndexes poolHoldings
       targetWeights s
     = depositToPool c balances1 s1).
Proof.
  split; [ | split; [ | split; [ | split; [ | split]]]].
  - intros c y t amount price k s Hr Hlt. split.
    + by apply depositUnderlyingAsset_dust.
    + by apply withdrawUnderlyingAsset_dust.
  - intros c y t amount price k s w Hr Hge Hw.
    rewrite (depositUnderlyingAsset_above c y t amount price k s w Hr Hge Hw).
    rewrite (withdrawUnderlyingAsset_above c y t amount price k s w Hr Hge Hw).
    split; [ | split; [ | split]].
    + intros [-> | [e ->]]; reflexivity.
    + intros [-> | [e ->]]; reflexivity.
    + intros m -> Hm. apply Z.eqb_neq in Hm. by rewrite Hm.
    + intros m -> Hm. apply Z.eqb_neq in Hm. by rewrite Hm.
  - intros. by eapply withdrawFromYieldTokens_step_absorbed.
  - intros. by eapply depositToYieldTokens_step_absorbed.
  - exact withdrawFromYieldTokens_all_absorbed.
  - exact adjustYieldTokens_all_absorbed.
Qed.

Lemma C8_yield_actions_witness :
  depositUnderlyingAsset (ex_config 0) 21%N 11%N (5 * 10 ^ 17) ONE 0 ex_state
  = Ok (ex_state, 0) ∧
  withdrawUnderlyingAsset (ex_config 0) 22%N 12%N (20 * ONE) ONE 1 ex_state
  = (s' ← wrapper_withdraw 22%N (Z.min (20 * ONE) (10 * ONE)) 100%N 100%N
            ex_state;
     withdrawn ← sub (balanceOf s' 12%N 100%N) (balanceOf ex_state 12%N 100%N);
     Ok (s', withdrawn)) ∧
  withdrawFromYieldTokens (ex_config 0) [11%N; 12%N] [21%N; 22%N]
    [0%nat; 1%nat] [5 * ONE; 5 * ONE] [ONE; ONE] ex_paused_state
  = Ok (ex_paused_state, [0; 0]) ∧
  (∃ s1,
     withdrawNecessaryTokensFromPool (ex_config 0) [11%N; 12%N] [0; 0]
       [12 * ONE; 12 * ONE] ex_paused_state
     = Ok (s1, [12 * ONE; 12 * ONE]) ∧
     adjustYieldTokens (ex_config 0) ex_guardian_call [11%N; 12%N]
       [0%nat; 1%nat] [100 * ONE; 100 * ONE]
       [4 * 10 ^ 17; 4 * 10 ^ 17; 10 ^ 17; 10 ^ 17] ex_paused_state
     = depositToPool (ex_config 0) [12 * ONE; 12 * ONE] s1).
Proof.
  destruct C8_yield_actions as (Hdust & Habove & _ & _ & Hloop & Hadj).
  split; [ | split; [ | split]].
  - apply (Hdust (ex_config 0) 21%N 11%N (5 * 10 ^ 17) ONE 0%nat ex_state).
    + left. reflexivity.
    + vm_compute. reflexivity.
  - assert (Hr : actionValueInRange (ex_config 0) (20 * ONE) ONE 1)
      by (right; vm_compute; discriminate).
    assert (Hge : minYieldActionThreshold (ex_config 0)
                  ≤ actionValue (ex_config 0) (20 * ONE) ONE 1)
      by (vm_compute; discriminate).
    assert (Hw : wrappers ex_state !! 22%N = Some (ex_wrapper 12%N))
      by (vm_compute; reflexivity).
    assert (Hmax : wrapper_maxWithdraw ex_state 22%N (ex_wrapper 12%N)
                     (this (ex_config 0)) = Ok (10 * ONE))
      by (vm_compute; reflexivity).
    assert (Hne : 10 * ONE ≠ 0) by (vm_compute; discriminate).
    exact (proj2 (proj2 (proj2 (Habove (ex_config 0) 22%N 12%N (20 * ONE) ONE
                                  1%nat ex_state (ex_wrapper 12%N) Hr Hge Hw)))
             (10 * ONE) Hmax Hne).
  - apply (Hloop (ex_config 0) [11%N; 12%N] [21%N; 22%N] [0%nat; 1%nat]
             [5 * ONE; 5 * ONE] [ONE; ONE] ex_paused_state).
    intros i Hi. change (i < 2)%nat in Hi.
    destruct i as [|[|i]]; [ | | lia].
    + exists (5 * ONE), 0%nat, 21%N, 11%N, ONE.
      split; [reflexivity |]. split; [reflexivity |].
      split; [change (0 < 2)%nat; lia |].
      split; [reflexivity |]. split; [reflexivity |].
      split; [reflexivity |]. vm_compute. reflexivity.
    + exists (5 * ONE), 1%nat, 22%N, 12%N, ONE.
      split; [reflexivity |]. split; [reflexivity |].
      split; [change (1 < 2)%nat; lia |].
      split; [reflexivity |]. split; [reflexivity |].
      split; [reflexivity |]. vm_compute. reflexivity.
  - assert (Hpull : ∃ s1,
               withdrawNecessaryTokensFromPool (ex_config 0) [11%N; 12%N]
                 [0; 0] [12 * ONE; 12 * ONE] ex_paused_state
               = Ok (s1, [12 * ONE; 12 * ONE]) ∧
               depositUnderlyingAsset (ex_config 0) 21%N 11%N
                 (Z.min (12 * ONE) (12 * ONE)) ONE 0 s1 = Ok (s1, 0) ∧
               depositUnderlyingAsset (ex_config 0) 22%N 12%N
                 (Z.min (12 * ONE) (12 * ONE)) ONE 1 s1 = Ok (s1, 0)).
    { eexists. split; [vm_compute; reflexivity |].
      split; vm_compute; reflexivity. }
    destruct Hpull as (s1 & Hpull & Hd0 & Hd1).
    exists s1. split; [exact Hpull |].
    apply (Hadj (ex_config 0) ex_guardian_call [11%N; 12%N] [0%nat; 1%nat]
             [100 * ONE; 100 * ONE]
             [4 * 10 ^ 17; 4 * 10 ^ 17; 10 ^ 17; 10 ^ 17] ex_paused_state
             [10 * ONE; 10 * ONE] [ONE; ONE] [0; 1400]
             [12 * ONE; 12 * ONE] [0; 0] [12 * ONE; 12 * ONE] s1
             [12 * ONE; 12 * ONE]).
    + vm_compute. reflexivity.
    + vm_compute. reflexivity.
    + vm_compute. reflexivity.
    + vm_compute. reflexivity.
    + intros i Hi. change (i < 2)%nat in Hi.
      destruct i as [|[|i]]; [ | | lia].
      * exists 0, 0%nat, 21%N, 11%N, ONE.
        split; [reflexivity |]. split; [reflexivity |].
        split; [change (0 < 2)%nat; lia |].
        split; [reflexivity |]. split; [reflexivity |].
        split; [reflexivity |]. vm_compute. reflexivity.
      * exists 0, 1%nat, 22%N, 12%N, ONE.
        split; [reflexivity |]. split; [reflexivity |].
        split; [change (1 < 2)%nat; lia |].
        split; [reflexivity |]. split; [reflexivity |].
        split; [reflexivity |]. vm_compute. reflexivity.
    + vm_compute. reflexivity.
    + exact Hpull.
    + intros i Hi. change (i < 2)%nat in Hi.
      destruct i as [|[|i]]; [ | | lia].
      * exists 0%nat, (12 * ONE), (12 * ONE).
        split; [reflexivity |]. split; [reflexivity |].
        split; [reflexivity |]. split; [vm_compute; discriminate |].
        right. right. exists (12 * ONE), 21%N, 11%N, ONE.
        split; [reflexivity |]. split; [reflexivity |].
        split; [reflexivity |]. split; [reflexivity | exact Hd0].
      * exists 1%nat, (12 * ONE), (12 * ONE).
        split; [reflexivity |]. split; [reflexivity |].
        split; [reflexivity |]. split; [vm_compute; discriminate |].
        right. right. exists (12 * ONE), 22%N, 12%N, ONE.
        split; [reflexivity |]. split; [reflexivity |].
        split; [reflexivity |]. split; [reflexivity | exact Hd1].
Defined.

(** ** Claiming the guardian fees *)

Lemma ledger_set_guardiansFee (g : gmap address (list Z)) (s : State)
    (a : address) :
  ledger (set_guardiansFee g s) a = default [] (g !! a).
Proof. reflexivity. Qed.

(** The payout of a claim, run on a ledger that is covered: it succeeds,
    pays every entry of the caller's row, zeroes the row, takes the entries
    off the aggregate, deletes the row of a caller who is not the guardian
    and touches no other row. *)
Lemma payGuardianFees_run (c : Config) (x : Ctx) (s : State)
    (tokens : list address) :
  getTokens c s = Ok tokens → NoDup tokens → msg_sender x ≠ this c →
  (0 < numTokens c)%nat →
  ledgerCovered c (msg_sender x) tokens s →
  ∃ s', payGuardianFees c x s = Ok s' ∧
        (∀ i, (i < numTokens c)%nat →
              slotPaid c (msg_sender x) tokens s s' i) ∧
        (msg_sender x = guardian s →
         ledger s' (msg_sender x) = replicate (numTokens c) 0) ∧
        (msg_sender x ≠ guardian s → guardiansFee s' !! msg_sender x = None) ∧
        (∀ a, a ≠ msg_sender x → guardiansFee s' !! a = guardiansFee s !! a) ∧
        events s'
        = EvDistributeGuardianFees (msg_sender x) (ledger s (msg_sender x))
          :: events s ∧
        setup s' = setup s.
Proof.
  intros Htok Hnd Hthis Hpos (Hlen & Hlent & Hcov).
  set (caller := msg_sender x) in *.
  set (fees := ledger s caller) in *.
  apply getTokens_Ok in Htok as Htk. destruct Htk as (Hlentk & _ & _).
  unfold payGuardianFees.
  fold caller. fold fees. rewrite Hlen, Htok.
  destruct (numTokens c =? 0)%nat eqn:Hz; [apply Nat.eqb_eq in Hz; lia |].
  cbn. unfold for_loop.
  match goal with
  | |- context [for_from 0 (numTokens c) ?body s] =>
  destruct (for_from_total
      (λ i t,
         setup t = setup s ∧ events t = events s ∧
         length (guardiansFeeTotal t) = numTokens c ∧
         (∀ j, (i ≤ j)%nat →
               guardiansFeeTotal t !! j = guardiansFeeTotal s !! j) ∧
         (∀ j fee total, (j < i)%nat → fees !! j = Some fee →
               guardiansFeeTotal s !! j = Some total →
               guardiansFeeTotal t !! j = Some (total - fee)) ∧
         length (ledger t caller) = numTokens c ∧
         (∀ j, (j < i)%nat → ledger t caller !! j = Some 0) ∧
         (∀ a, a ≠ caller → guardiansFee t !! a = guardiansFee s !! a) ∧
         (∀ j tok h, tokens !! j = Some tok → (i ≤ j)%nat →
               balanceOf t tok h = balanceOf s tok h) ∧
         (∀ j tok fee, tokens !! j = Some tok → (j < i)%nat →
               fees !! j = Some fee →
               balanceOf t tok caller = balanceOf s tok caller + fee ∧
               balanceOf t tok (this c) = balanceOf s tok (this c) - fee))
      body (numTokens c) 0 s)
    as (s1 & Hrun & Hsetup & Hev & Hlt1 & _ & Htot1 & Hll1 & Hz1 & Hoth1 &
        _ & Hbal1)
  end.
  - repeat split; try done; intros; lia.
  - intros i t Hi (Hsetup & Hev & Hlt & Htge & Htlt & Hll & Hzl & Hoth & Hbge &
                   Hblt).
    destruct (lookup_lt_is_Some_2 fees i) as [fee Hfee];
      [lia |].
    destruct (lookup_lt_is_Some_2 (guardiansFeeTotal s) i) as [total Htotal];
      [lia |].
    destruct (lookup_lt_is_Some_2 tokens i) as [tok Htoki]; [lia |].
    destruct (Hcov i tok fee total Htoki Hfee Htotal) as [Hft Hfb].
    assert (Htt : guardiansFeeTotal t !! i = Some total)
      by (rewrite Htge by lia; exact Htotal).
    cbv beta.
    rewrite (proj2 (get_Ok _ _ _) Hfee). cbn.
    rewrite (proj2 (get_Ok _ _ _) Htt). cbn.
    rewrite (proj2 (sub_Ok total fee (total - fee)))
      by (split; [reflexivity | exact Hft]).
    cbn. rewrite (proj2 (set_Ok (guardiansFeeTotal t) _ i (total - fee)))
      by (split; [lia | reflexivity]).
    cbn.
    change (ledger (set_guardiansFeeTotal
                      (<[i := total - fee]> (guardiansFeeTotal t)) t) caller)
      with (ledger t caller).
    rewrite (proj2 (set_Ok (ledger t caller) _ i 0))
      by (split; [lia | reflexivity]).
    cbn. rewrite (proj2 (get_Ok _ _ _) Htoki). cbn.
    set (t2 := set_guardiansFee _ _).
    assert (Hb2 : ∀ a h, balanceOf t2 a h = balanceOf t a h) by reflexivity.
    destruct (erc20_transfer_total tok (this c) caller fee t2) as [t' Ht'].
    { rewrite Hb2, (Hbge i tok (this c) Htoki) by lia. exact Hfb. }
    exists t'. split; [exact Ht' |].
    apply erc20_transfer_Ok in Ht' as (_ & Hs' & Hbal).
    assert (Hf1 : guardiansFeeTotal t'
                  = <[i := total - fee]> (guardiansFeeTotal t))
      by (rewrite Hs'; reflexivity).
    assert (Hf2 : guardiansFee t'
                  = <[caller := <[i := 0]> (ledger t caller)]>
                      (guardiansFee t))
      by (rewrite Hs'; reflexivity).
    assert (Hf3 : ledger t' caller = <[i := 0]> (ledger t caller)).
    { unfold ledger at 1. rewrite Hf2, lookup_insert_eq. reflexivity. }
    split; [rewrite Hs'; exact Hsetup |].
    split; [rewrite Hs'; exact Hev |].
    split; [by rewrite Hf1, length_insert |].
    split.
    { intros j Hj. rewrite Hf1, list_lookup_insert_ne by lia. apply Htge. lia. }
    split.
    { intros j fee' total' Hj Hfee' Htotal'. rewrite Hf1.
      destruct (decide (j = i)) as [->|Hne].
      - rewrite list_lookup_insert_eq by lia. congruence.
      - rewrite list_lookup_insert_ne by done.
        apply Htlt; [lia | done | done]. }
    split; [by rewrite Hf3, length_insert |].
    split.
    { intros j Hj. rewrite Hf3. destruct (decide (j = i)) as [->|Hne].
      - by rewrite list_lookup_insert_eq by lia.
      - rewrite list_lookup_insert_ne by done. apply Hzl. lia. }
    split.
    { intros a Ha. rewrite Hf2, lookup_insert_ne by done. by apply Hoth. }
    split.
    { intros j tok' h Htok' Hj. rewrite Hbal, Hb2.
      assert (tok' ≠ tok).
      { intros ->. pose proof (NoDup_lookup _ _ _ _ Hnd Htok' Htoki). lia. }
      rewrite !decide_False by congruence.
      rewrite (Hbge j tok' h Htok') by lia. lia. }
    intros j tok' fee' Htok' Hj Hfee'. rewrite !Hbal, !Hb2.
    destruct (decide (j = i)) as [->|Hne].
    + assert (tok' = tok) as -> by congruence.
      assert (fee' = fee) as -> by congruence.
      rewrite (decide_False (P := (tok, caller) = (tok, this c)))
        by congruence.
      rewrite (decide_True (P := (tok, caller) = (tok, caller))) by done.
      rewrite (decide_True (P := (tok, this c) = (tok, this c))) by done.
      rewrite (decide_False (P := (tok, this c) = (tok, caller)))
        by congruence.
      rewrite !(Hbge i tok _ Htoki) by lia. lia.
    + assert (tok' ≠ tok).
      { intros ->. pose proof (NoDup_lookup _ _ _ _ Hnd Htok' Htoki). lia. }
      rewrite !decide_False by congruence.
      destruct (Hblt j tok' fee' Htok') as [? ?]; [lia | done |]. lia.
  - rewrite Hrun. cbn. eexists. split; [reflexivity |].
    assert (Hg : guardian s1 = guardian s) by (by apply setup_guardian).
    split.
    { intros i Hi.
      destruct (lookup_lt_is_Some_2 fees i) as [fee Hfee];
        [lia |].
      destruct (lookup_lt_is_Some_2 (guardiansFeeTotal s) i)
        as [total Htotal]; [lia |].
      destruct (lookup_lt_is_Some_2 tokens i) as [tok Htoki]; [lia |].
      exists tok, fee, total.
      destruct (Hbal1 i tok fee Htoki) as [Hc Hv]; [lia | done |].
      split; [done | split; [done | split; [done |]]].
      destruct (decide (caller ≠ guardian s1)); cbn;
        (split; [exact Hc | split; [exact Hv |]]);
        apply Htot1; (lia || done). }
    split.
    { intros Hcg. rewrite decide_False by (rewrite Hg; intros ?; done).
      cbn.
      change (ledger (emit (EvDistributeGuardianFees caller fees) s1) caller)
        with (ledger s1 caller).
      apply list_eq. intros j.
      destruct (decide (j < numTokens c)%nat) as [Hj|Hj].
      - rewrite Hz1 by lia. symmetry. by apply lookup_replicate_2.
      - rewrite (proj2 (lookup_ge_None _ j)) by lia.
        symmetry. apply lookup_ge_None. rewrite length_replicate. lia. }
    split.
    { intros Hcg. rewrite decide_True by (by rewrite Hg).
      cbn. apply lookup_delete_eq. }
    split.
    { intros a Ha. destruct (decide (caller ≠ guardian s1)); cbn.
      - rewrite lookup_delete_ne by done. by apply Hoth1.
      - by apply Hoth1. }
    split.
    { destruct (decide (caller ≠ guardian s1)); cbn; by rewrite Hev. }
    destruct (decide (caller ≠ guardian s1)); cbn; exact Hsetup.
Qed.

Lemma claimGuardianFees_starts (c : Config) (x : Ctx) (s s1 : State) :
  claimStarts c x s s1 →
  claimGuardianFees c x s = payGuardianFees c x s1.
Proof.
  intros (Hre & Hi & Hf & Hs1). unfold claimGuardianFees, nonReentrant,
    whenInitialized, whenNotFinalized.
  rewrite Hre, Hi, Hf. cbn.
  destruct (decide (msg_sender x = guardian s)).
  - by rewrite Hs1.
  - by rewrite Hs1.
Qed.

Lemma claimStarts_guardian (c : Config) (x : Ctx) (s s1 : State) :
  claimStarts c x s s1 → guardian s1 = guardian s.
Proof.
  intros (_ & _ & _ & Hs1). destruct (decide (msg_sender x = guardian s)).
  - apply setup_guardian. by eapply lockGuardianFees_setup.
  - by rewrite Hs1.
Qed.

Lemma payGuardianFees_absent (c : Config) (x : Ctx) (s : State) :
  length (ledger s (msg_sender x)) = 0%nat →
  payGuardianFees c x s = Err (Mammon__NoAvailableFeeForCaller (msg_sender x)).
Proof. intros H. unfold payGuardianFees. by rewrite H. Qed.

(** C6 (amended).  The payout of [claimGuardianFees] starts once the
    modifiers have passed and, for the current guardian, the fees accrued
    since the last checkpoint have been locked into the ledger: for any other
    caller that is the state at call time, for the guardian the ledger may
    have grown.  A caller whose ledger is then absent fails with
    [NoAvailableFeeForCaller].  A caller whose ledger is then non-empty and
    covered (an entry per token, each within the aggregate of outstanding
    fees and the vault's balance), the tokens being distinct and the caller
    not the vault itself, succeeds: for every slot exactly the ledger entry
    goes from the vault to the caller and leaves the aggregate, the row of
    the guardian is left with zeros only, the row of any other caller is
    deleted, and no other row changes. *)
Theorem C6_claim_guardian_fees :
  (∀ c x s s1,
     claimStarts c x s s1 → msg_sender x ≠ guardian s → s1 = s) ∧
  (∀ c x s s1,
     claimStarts c x s s1 → length (ledger s1 (msg_sender x)) = 0%nat →
     claimGuardianFees c x s
     = Err (Mammon__NoAvailableFeeForCaller (msg_sender x))) ∧
  (∀ c x s s1 tokens,
     claimStarts c x s s1 →
     getTokens c s1 = Ok tokens → NoDup tokens → msg_sender x ≠ this c →
     ledger s1 (msg_sender x) ≠ [] →
     ledgerCovered c (msg_sender x) tokens s1 →
     ∃ s', claimGuardianFees c x s = Ok s' ∧
           (∀ i, (i < numTokens c)%nat →
                 slotPaid c (msg_sender x) tokens s1 s' i) ∧
           (msg_sender x = guardian s →
            ledger s' (msg_sender x) = replicate (numTokens c) 0) ∧
           (msg_sender x ≠ guardian s →
            guardiansFee s' !! msg_sender x = None) ∧
           (∀ a, a ≠ msg_sender x →
                 guardiansFee s' !! a = guardiansFee s1 !! a) ∧
           events s'
           = EvDistributeGuardianFees (msg_sender x)
               (ledger s1 (msg_sender x)) :: events s1).
Proof.
  split; [ | split].
  - intros c x s s1 (_ & _ & _ & Hs1) Hng.
    by rewrite decide_False in Hs1.
  - intros c x s s1 Hstart Habsent.
    rewrite (claimGuardianFees_starts c x s s1 Hstart).
    by apply payGuardianFees_absent.
  - intros c x s s1 tokens Hstart Htok Hnd Hthis Hne Hcov.
    rewrite (claimGuardianFees_starts c x s s1 Hstart).
    pose proof (claimStarts_guardian c x s s1 Hstart) as Hg.
    assert (Hpos : (0 < numTokens c)%nat).
    { destruct Hcov as (Hlen & _). rewrite <- Hlen.
      destruct (ledger s1 (msg_sender x)); [done | cbn; lia]. }
    destruct (payGuardianFees_run c x s1 tokens Htok Hnd Hthis Hpos Hcov)
      as (s' & Hrun & Hpaid & Hzero & Hdel & Hoth & Hev & _).
    exists s'. rewrite <- Hg.
    split; [exact Hrun | split; [exact Hpaid | split; [exact Hzero |]]].
    split; [exact Hdel | split; [exact Hoth | exact Hev]].
Qed.

Lemma C6_claim_guardian_fees_witness :
  ∃ s', claimGuardianFees (ex_config MAX_MANAGEMENT_FEE) ex_guardian_call
          ex_state = Ok s' ∧
        ledger s' 2%N = [0; 0; 0; 0] ∧
        head (events s')
        = Some (EvDistributeGuardianFees 2%N
                  [5 * 10 ^ 13; 5 * 10 ^ 13; 5 * 10 ^ 12; 5 * 10 ^ 12]).
Proof.
  assert (Hstart : ∃ s1,
            claimStarts (ex_config MAX_MANAGEMENT_FEE) ex_guardian_call
              ex_state s1 ∧
            getTokens (ex_config MAX_MANAGEMENT_FEE) s1
            = Ok [11%N; 12%N; 21%N; 22%N] ∧
            ledger s1 2%N
            = [5 * 10 ^ 13; 5 * 10 ^ 13; 5 * 10 ^ 12; 5 * 10 ^ 12] ∧
            guardiansFeeTotal s1
            = [5 * 10 ^ 13; 5 * 10 ^ 13; 5 * 10 ^ 12; 5 * 10 ^ 12] ∧
            5 * 10 ^ 13 ≤ balanceOf s1 11%N 100%N ∧
            5 * 10 ^ 13 ≤ balanceOf s1 12%N 100%N ∧
            5 * 10 ^ 12 ≤ balanceOf s1 21%N 100%N ∧
            5 * 10 ^ 12 ≤ balanceOf s1 22%N 100%N ∧
            events s1 = []).
  { eexists. split.
    - split; [reflexivity | split; [reflexivity | split; [reflexivity |]]].
      vm_compute. reflexivity.
    - split; [vm_compute; reflexivity |].
      split; [vm_compute; reflexivity |].
      split; [vm_compute; reflexivity |].
      split; [vm_compute; discriminate |].
      split; [vm_compute; discriminate |].
      split; [vm_compute; discriminate |].
      split; [vm_compute; discriminate |]. vm_compute. reflexivity. }
  destruct Hstart as (s1 & Hstart & Htok & Hled & Htot & Hb0 & Hb1 & Hb2 &
                      Hb3 & Hev1).
  destruct (proj2 (proj2 C6_claim_guardian_fees)
              (ex_config MAX_MANAGEMENT_FEE) ex_guardian_call ex_state s1
              [11%N; 12%N; 21%N; 22%N] Hstart Htok)
    as (s' & Hrun & _ & Hzero & _ & _ & Hev).
  - apply (bool_decide_unpack _). vm_compute. reflexivity.
  - discriminate.
  - change (msg_sender ex_guardian_call) with 2%N. rewrite Hled. discriminate.
  - change (msg_sender ex_guardian_call) with 2%N.
    split; [by rewrite Hled | split; [by rewrite Htot |]].
    rewrite Hled, Htot. intros i t fee total Ht Hfee Htotal.
    destruct i as [|[|[|[|i]]]]; cbn in Ht, Hfee, Htotal;
      try discriminate;
      injection Ht as <-; injection Hfee as <-; injection Htotal as <-;
      (split; [lia | assumption]).
  - exists s'. split; [exact Hrun |].
    split; [by apply Hzero |].
    change (msg_sender ex_guardian_call) with 2%N in Hev.
    by rewrite Hev, Hled.
Defined.

(** C6, as stated, fails: the guardian of the sample deployment claims at
    [createdAt + 500] with the maximum fee.  The ledger recorded for the
    guardian at call time is zero in every slot, yet the call first locks
    the fees of the 500 seconds elapsed and then transfers them:
    [5 * 10^13] of token 11 reach the guardian, more than the entry at call
    time. *)
Lemma C6_counterexample :
  ledger ex_state (msg_sender ex_guardian_call) = [0; 0; 0; 0] ∧
  ∃ s', claimGuardianFees (ex_config MAX_MANAGEMENT_FEE) ex_guardian_call
          ex_state = Ok s' ∧
        balanceOf s' 11%N (msg_sender ex_guardian_call)
        = balanceOf ex_state 11%N (msg_sender ex_guardian_call) + 5 * 10 ^ 13 ∧
        head (events s')
        = Some (EvDistributeGuardianFees 2%N
                  [5 * 10 ^ 13; 5 * 10 ^ 13; 5 * 10 ^ 12; 5 * 10 ^ 12]).
Proof.
  split; [reflexivity |]. eexists.
  split; [vm_compute; reflexivity |].
  split; vm_compute; reflexivity.
Qed.

(** ** Deposits and withdrawals *)

Lemma books_setup (s s' : State) : books s' = books s → setup s' = setup s.
Proof. unfold books. congruence. Qed.

Lemma books_guardiansFeeTotal (s s' : State) :
  books s' = books s → guardiansFeeTotal s' = guardiansFeeTotal s.
Proof. unfold books. congruence. Qed.

Lemma books_lastFeeCheckpoint (s s' : State) :
  books s' = books s → lastFeeCheckpoint s' = lastFeeCheckpoint s.
Proof. unfold books. congruence. Qed.

Lemma index_of_lookup (l : list address) (k : nat) (a : address) :
  NoDup l → l !! k = Some a → index_of a l = Some k.
Proof.
  revert k. induction l as [|b l IH]; intros k Hnd Hl; [done |].
  apply NoDup_cons in Hnd as [Hnotin Hnd]. cbn.
  destruct k as [|k]; cbn in Hl.
  - injection Hl as ->. by rewrite decide_True.
  - rewrite decide_False.
    + by rewrite (IH k Hnd Hl).
    + intros ->. apply Hnotin. by eapply list_elem_of_lookup_2.
Qed.

(** A transfer touches the balances of its token only. *)
Lemma erc20_transfer_frame (token from to : address) (amount : Z)
    (s s' : State) :
  erc20_transfer token from to amount s = Ok s' →
  books s' = books s ∧ bv_balances s' = bv_balances s ∧
  ∀ tok h, tok ≠ token → balanceOf s' tok h = balanceOf s tok h.
Proof.
  intros H. apply erc20_transfer_Ok in H as (_ & Hs & Hbal).
  split; [by rewrite Hs | split; [by rewrite Hs |]].
  intros tok h Hne. rewrite Hbal.
  rewrite !decide_False by congruence. lia.
Qed.

Lemma erc20_debit_frame (token holder : address) (amount : Z) (s s' : State) :
  erc20_debit token holder amount s = Ok s' →
  books s' = books s ∧ bv_balances s' = bv_balances s ∧
  ∀ tok h, tok ≠ token → balanceOf s' tok h = balanceOf s tok h.
Proof.
  intros H. split; [ | split].
  - by apply erc20_debit_Ok in H as [_ ->].
  - by apply erc20_debit_Ok in H as [_ ->].
  - intros tok h Hne. rewrite (balanceOf_debit _ _ _ _ _ _ _ H).
    rewrite decide_False by congruence. lia.
Qed.

(** One operation of the custody adapter on a registered token. *)
Lemma bVault_applyOp_Ok (c : Config) (op : PoolBalanceOp) (s s' : State)
    (k : nat) :
  bVault_applyOp c op s = Ok s' →
  index_of (op_token op) (bv_tokens s) = Some k →
  books s' = books s ∧
  (∃ cash managed,
     bv_balances s !! k = Some (cash, managed) ∧
     bv_balances s'
     = <[k := poolBalanceAfter (op_kind op) (op_amount op) cash managed]>
         (bv_balances s)) ∧
  ∀ tok h, tok ≠ op_token op → balanceOf s' tok h = balanceOf s tok h.
Proof.
  unfold bVault_applyOp. intros H Hk. rewrite Hk in H.
  apply bind_Ok in H as ([cash managed] & Hget & H). apply get_Ok in Hget.
  destruct (op_kind op); cbn [poolBalanceAfter].
  - apply bind_Ok in H as (cash' & Hc & H). apply sub_Ok in Hc as [-> _].
    apply bind_Ok in H as (managed' & Hm & H). apply add_Ok in Hm as [-> _].
    apply erc20_transfer_frame in H as (Hb & Hbv & Hbal).
    split; [exact Hb | split; [ | exact Hbal]].
    exists cash, managed. split; [exact Hget | exact Hbv].
  - apply bind_Ok in H as (managed' & Hm & H). apply sub_Ok in Hm as [-> _].
    apply bind_Ok in H as (cash' & Hc & H). apply add_Ok in Hc as [-> _].
    apply erc20_transfer_frame in H as (Hb & Hbv & Hbal).
    split; [exact Hb | split; [ | exact Hbal]].
    exists cash, managed. split; [exact Hget | exact Hbv].
  - injection H as <-. split; [reflexivity | split; [ | reflexivity]].
    exists cash, managed. split; [exact Hget | reflexivity].
Qed.

Lemma bVault_managePoolBalance_Ok (c : Config) (ops : list PoolBalanceOp)
    (off : nat) (s s' : State) :
  bVault_managePoolBalance c ops s = Ok s' →
  (∀ j op, ops !! j = Some op →
           index_of (op_token op) (bv_tokens s) = Some (off + j)%nat) →
  books s' = books s ∧
  (∀ k, (k < off)%nat → bv_balances s' !! k = bv_balances s !! k) ∧
  (∀ j op, ops !! j = Some op →
           ∃ cash managed,
             bv_balances s !! (off + j)%nat = Some (cash, managed) ∧
             bv_balances s' !! (off + j)%nat
             = Some (poolBalanceAfter (op_kind op) (op_amount op)
                       cash managed)) ∧
  ∀ tok h, (∀ op, op ∈ ops → op_token op ≠ tok) →
           balanceOf s' tok h = balanceOf s tok h.
Proof.
  revert off s. induction ops as [|op ops IH]; intros off s H Hidx; cbn in H.
  - injection H as <-. split; [done | split; [done | split; [ | done]]].
    intros j op' Hj. done.
  - apply bind_Ok in H as (s1 & Hop & H).
    pose proof (Hidx 0%nat op eq_refl) as Hk0. rewrite Nat.add_0_r in Hk0.
    apply (bVault_applyOp_Ok c op s s1 off) in Hop
      as (Hb1 & (cash & managed & Hget & Hbv1) & Hbal1); [ | exact Hk0].
    assert (Htok1 : bv_tokens s1 = bv_tokens s)
      by (apply setup_bv_tokens; by apply books_setup).
    apply (IH (S off) s1) in H as (Hb & Hlow & Hslots & Hbal).
    2: { intros j op' Hj. rewrite Htok1.
         replace (S off + j)%nat with (off + S j)%nat by lia.
         by apply Hidx. }
    split; [congruence | split; [ | split]].
    + intros k Hk. rewrite Hlow by lia. rewrite Hbv1.
      apply list_lookup_insert_ne. lia.
    + intros [|j] op' Hj; cbn in Hj.
      * injection Hj as <-. exists cash, managed.
        rewrite Nat.add_0_r. split; [exact Hget |].
        rewrite Hlow by lia. rewrite Hbv1.
        apply list_lookup_insert_eq. by eapply lookup_lt_Some.
      * destruct (Hslots j op' Hj) as (cash' & managed' & Hg' & Hs').
        replace (off + S j)%nat with (S off + j)%nat by lia.
        exists cash', managed'. split; [ | exact Hs'].
        rewrite Hbv1, list_lookup_insert_ne in Hg' by lia. exact Hg'.
    + intros tok h Hne. rewrite Hbal.
      * apply Hbal1. intros ->. apply (Hne op); [ | reflexivity].
        apply elem_of_cons. by left.
      * intros op' Hin. apply Hne. apply elem_of_cons. by right.
Qed.

(** [updatePoolBalance] applies the operation to every pool slot, in the
    order of the registration. *)
Lemma updatePoolBalance_Ok (c : Config) (amounts : list Z)
    (kind : PoolBalanceOpKind) (s s' : State) :
  updatePoolBalance c amounts kind s = Ok s' →
  NoDup (bv_tokens s) →
  books s' = books s ∧
  (∀ i, (i < numPoolTokens c)%nat →
        ∃ a cash managed,
          amounts !! i = Some a ∧
          bv_balances s !! (i + 1)%nat = Some (cash, managed) ∧
          bv_balances s' !! (i + 1)%nat
          = Some (poolBalanceAfter kind a cash managed)) ∧
  ∀ tok h, tok ∉ bv_tokens s → balanceOf s' tok h = balanceOf s tok h.
Proof.
  unfold updatePoolBalance. intros H Hnd.
  apply bind_Ok in H as (poolTokens & Hpt & H).
  apply getPoolTokens_Ok in Hpt as [Hlen Hpt].
  apply bind_Ok in H as (ops & Hops & H).
  apply tabulate_Ok in Hops as [Hlops Hops].
  assert (Hop : ∀ j op, ops !! j = Some op →
            ∃ t a, bv_tokens s !! (j + 1)%nat = Some t ∧
                   amounts !! j = Some a ∧ op = mkPoolBalanceOp kind t a).
  { intros j op Hj.
    assert (Hlt : (j < numPoolTokens c)%nat)
      by (rewrite <- Hlops; by eapply lookup_lt_Some).
    destruct (Hops j Hlt) as (op' & Hf & Hl).
    rewrite Hj in Hl. injection Hl as <-.
    apply bind_Ok in Hf as (t & Ht & Hf). apply get_Ok in Ht.
    apply bind_Ok in Hf as (a & Ha & Hf). apply get_Ok in Ha.
    injection Hf as <-.
    destruct (Hpt j Hlt) as (t' & Hbt & Hpt').
    rewrite Ht in Hpt'. injection Hpt' as <-. eauto. }
  apply (bVault_managePoolBalance_Ok c ops 1 s s') in H
    as (Hb & _ & Hslots & Hbal).
  2: { intros j op Hj. destruct (Hop j op Hj) as (t & a & Ht & _ & ->).
       cbn [op_token]. apply index_of_lookup; [exact Hnd |].
       by rewrite Nat.add_comm. }
  split; [exact Hb | split].
  - intros i Hi.
    destruct (lookup_lt_is_Some_2 ops i) as [op Hj]; [lia |].
    destruct (Hop i op Hj) as (t & a & _ & Ha & ->).
    destruct (Hslots i _ Hj) as (cash & managed & Hg & Hs').
    rewrite (Nat.add_comm 1 i) in Hg, Hs'.
    exists a, cash, managed. auto.
  - intros tok h Hnotin. apply Hbal. intros op Hin <-.
    apply list_elem_of_lookup_1 in Hin as [j Hj].
    destruct (Hop j op Hj) as (t & a & Ht & _ & ->).
    apply Hnotin. by eapply list_elem_of_lookup_2.
Qed.

(** A deposit to the pool moves the amounts into the cash balances and
    leaves nothing under management. *)
Lemma depositToPool_Ok (c : Config) (amounts : list Z) (s s' : State) :
  depositToPool c amounts s = Ok s' →
  NoDup (bv_tokens s) →
  books s' = books s ∧
  (∀ i, (i < numPoolTokens c)%nat →
        ∃ a cash managed,
          amounts !! i = Some a ∧
          bv_balances s !! (i + 1)%nat = Some (cash, managed) ∧
          bv_balances s' !! (i + 1)%nat = Some (cash + a, 0)) ∧
  ∀ tok h, tok ∉ bv_tokens s → balanceOf s' tok h = balanceOf s tok h.
Proof.
  unfold depositToPool. intros H Hnd.
  apply bind_Ok in H as (s1 & H1 & H2).
  apply updatePoolBalance_Ok in H1 as (Hb1 & Hs1 & Hbal1); [ | exact Hnd].
  assert (Htok1 : bv_tokens s1 = bv_tokens s)
    by (apply setup_bv_tokens; by apply books_setup).
  apply updatePoolBalance_Ok in H2 as (Hb2 & Hs2 & Hbal2);
    [ | by rewrite Htok1].
  split; [congruence | split].
  - intros i Hi.
    destruct (Hs1 i Hi) as (a & cash & managed & Ha & Hg & Hg1).
    destruct (Hs2 i Hi) as (a' & cash' & managed' & Ha' & Hg' & Hg2).
    rewrite Ha in Ha'. injection Ha' as <-.
    rewrite Hg1 in Hg'. cbn in Hg'. injection Hg' as <- <-.
    exists a, cash, managed. split; [done | split; [done |]].
    rewrite Hg2. cbn. do 2 f_equal. lia.
  - intros tok h Hnotin. rewrite Hbal2 by (by rewrite Htok1). by apply Hbal1.
Qed.

(** A withdrawal from the pool takes the amounts out of the cash balances
    and leaves nothing under management. *)
Lemma withdrawFromPool_Ok (c : Config) (amounts : list Z) (s s' : State) :
  withdrawFromPool c amounts s = Ok s' →
  NoDup (bv_tokens s) →
  books s' = books s ∧
  (∀ i, (i < numPoolTokens c)%nat →
        ∃ a cash managed,
          amounts !! i = Some a ∧
          bv_balances s !! (i + 1)%nat = Some (cash, managed) ∧
          bv_balances s' !! (i + 1)%nat = Some (cash - a, 0)) ∧
  ∀ tok h, tok ∉ bv_tokens s → balanceOf s' tok h = balanceOf s tok h.
Proof.
  unfold withdrawFromPool. intros H Hnd.
  apply bind_Ok in H as (s1 & H1 & H2).
  apply updatePoolBalance_Ok in H1 as (Hb1 & Hs1 & Hbal1); [ | exact Hnd].
  assert (Htok1 : bv_tokens s1 = bv_tokens s)
    by (apply setup_bv_tokens; by apply books_setup).
  apply updatePoolBalance_Ok in H2 as (Hb2 & Hs2 & Hbal2);
    [ | by rewrite Htok1].
  split; [congruence | split].
  - intros i Hi.
    destruct (Hs1 i Hi) as (a & cash & managed & Ha & Hg & Hg1).
    destruct (Hs2 i Hi) as (a' & cash' & managed' & Ha' & Hg' & Hg2).
    unfold new_array in Ha'. apply lookup_replicate in Ha' as [-> _].
    rewrite Hg1 in Hg'. cbn in Hg'. injection Hg' as <- <-.
    exists a, cash, managed. split; [done | split; [done |]].
    rewrite Hg2. reflexivity.
  - intros tok h Hnotin. rewrite Hbal2 by (by rewrite Htok1). by apply Hbal1.
Qed.

(** What [getHoldings] reports: cash plus managed balance for a pool token,
    the vault's balance less the outstanding fees for a yield token. *)
Lemma getHoldings_Ok (c : Config) (s : State) (holdings : list Z) :
  getHoldings c s = Ok holdings →
  length holdings = numTokens c ∧
  (∀ i, (i < numPoolTokens c)%nat →
        ∃ cash managed,
          bv_balances s !! (i + 1)%nat = Some (cash, managed) ∧
          holdings !! i = Some (cash + managed)) ∧
  (∀ i, (i < numYieldTokens c)%nat →
        ∃ y fee,
          getYieldTokens c !! i = Some y ∧
          guardiansFeeTotal s !! (numPoolTokens c + i)%nat = Some fee ∧
          holdings !! (numPoolTokens c + i)%nat
          = Some (balanceOf s y (this c) - fee)).
Proof.
  unfold getHoldings. intros H.
  apply bind_Ok in H as (poolHoldings & Hph & H).
  unfold getPoolHoldings, bVault_getPoolTokens in Hph.
  apply tabulate_Ok in Hph as [Hlph Hph].
  apply bind_Ok in H as (h1 & Hl1 & Hl2).
  apply (for_loop_inv
           (λ i (h : list Z),
              length h = numTokens c ∧
              ∀ j, (j < i)%nat → h !! j = poolHoldings !! j)) in Hl1.
  2: { split; [apply length_replicate | intros; lia]. }
  2: { intros i h h' Hi [Hlen' Hpre] Hb. ok_inv. subst h'.
       rewrite length_insert. split; [done |].
       intros j Hj. destruct (decide (j = i)) as [->|Hne].
       - rewrite list_lookup_insert_eq by lia. done.
       - rewrite list_lookup_insert_ne by done. apply Hpre. lia. }
  destruct Hl1 as [Hlen1 Hpool].
  apply (for_loop_inv
           (λ i (h : list Z),
              length h = numTokens c ∧
              (∀ j, (j < numPoolTokens c)%nat → h !! j = poolHoldings !! j) ∧
              ∀ j, (j < i)%nat →
                ∃ y fee,
                  getYieldTokens c !! j = Some y ∧
                  guardiansFeeTotal s !! (numPoolTokens c + j)%nat = Some fee ∧
                  h !! (numPoolTokens c + j)%nat
                  = Some (balanceOf s y (this c) - fee))) in Hl2.
  2: { split; [done | split; [done | intros; lia]]. }
  2: { intros i h h' Hi (Hlen' & Hp & Hpre) Hb.
       apply bind_Ok in Hb as (y & Hy & Hb). apply get_Ok in Hy.
       apply bind_Ok in Hb as (fee & Hfee & Hb). apply get_Ok in Hfee.
       apply bind_Ok in Hb as (hv & Hsub & Hb). apply sub_Ok in Hsub as [-> _].
       apply set_Ok in Hb as [Hlt ->].
       rewrite length_insert. split; [done | split].
       - intros j Hj. rewrite list_lookup_insert_ne by lia. by apply Hp.
       - intros j Hj. destruct (decide (j = i)) as [->|Hne].
         + exists y, fee. split; [done | split; [done |]].
           by rewrite list_lookup_insert_eq by lia.
         + destruct (Hpre j) as (y' & fee' & ? & ? & ?); [lia |].
           exists y', fee'. split; [done | split; [done |]].
           by rewrite list_lookup_insert_ne by lia. }
  destruct Hl2 as (Hlen2 & Hp2 & Hy2). split; [done | split].
  - intros i Hi. destruct (Hph i Hi) as (v & Hv & Hl). apply get_Ok in Hv.
    rewrite list_lookup_fmap in Hv.
    destruct (bv_balances s !! (i + 1)%nat) as [[cash managed]|] eqn:E;
      [ | discriminate].
    cbn in Hv. injection Hv as <-. exists cash, managed.
    split; [done |]. by rewrite Hp2.
  - intros i Hi. by apply Hy2.
Qed.

(** The tokens of the vault are pairwise distinct when the registered
    tokens and the yield tokens are. *)
Lemma getTokens_NoDup (c : Config) (s : State) (tokens : list address) :
  getTokens c s = Ok tokens → distinctTokens c s → NoDup tokens.
Proof.
  intros H Hnd. apply getTokens_Ok in H as (Hlen & Hpool & Hyield).
  assert (Hpos : ∀ i t, tokens !! i = Some t →
            ∃ k, (bv_tokens s ++ getYieldTokens c) !! k = Some t ∧
                 ((i < numPoolTokens c)%nat ∧ k = (i + 1)%nat ∨
                  (numPoolTokens c ≤ i)%nat ∧
                  k = (length (bv_tokens s) + (i - numPoolTokens c))%nat)).
  { intros i t Hi.
    assert (Hlt : (i < numTokens c)%nat)
      by (rewrite <- Hlen; by eapply lookup_lt_Some).
    destruct (decide (i < numPoolTokens c)%nat) as [Hp|Hp].
    - destruct (Hpool i Hp) as (t' & Hb & Ht). rewrite Hi in Ht.
      injection Ht as <-. exists (i + 1)%nat. split; [ | left; done].
      by apply lookup_app_l_Some.
    - destruct (Hyield (i - numPoolTokens c)%nat) as (y & Hy & Ht).
      { unfold numTokens in Hlt. lia. }
      replace (numPoolTokens c + (i - numPoolTokens c))%nat with i in Ht
        by lia.
      rewrite Hi in Ht. injection Ht as <-.
      exists (length (bv_tokens s) + (i - numPoolTokens c))%nat.
      split; [ | right; split; [lia | done]].
      rewrite lookup_app_r by lia.
      by replace (length (bv_tokens s) + (i - numPoolTokens c)
                  - length (bv_tokens s))%nat
        with (i - numPoolTokens c)%nat by lia. }
  apply NoDup_alt. intros i j t Hi Hj.
  destruct (Hpos i t Hi) as (k & Hk & Hki).
  destruct (Hpos j t Hj) as (k' & Hk' & Hkj).
  assert (k = k') by (eapply NoDup_lookup; [exact Hnd | exact Hk | exact Hk']).
  subst k'.
  assert (Hb : ∀ i', (i' < numPoolTokens c)%nat →
                     (i' + 1 < length (bv_tokens s))%nat).
  { intros i' Hi'. destruct (Hpool i' Hi') as (t' & Hb & _).
    by eapply lookup_lt_Some. }
  destruct Hki as [[Hp ->]|[Hp ->]], Hkj as [[Hq E]|[Hq E]].
  - lia.
  - apply Hb in Hp. lia.
  - apply Hb in Hq. lia.
  - lia.
Qed.

(** [depositToken] pulls exactly [amount] from the owner. *)
Lemma depositToken_Ok (c : Config) (token : address) (amount : Z)
    (s s' : State) (d : Z) :
  depositToken c token amount s = Ok (s', d) →
  owner s ≠ this c →
  d = amount ∧ books s' = books s ∧ bv_balances s' = bv_balances s ∧
  balanceOf s' token (this c) = balanceOf s token (this c) + amount ∧
  ∀ tok h, tok ≠ token → balanceOf s' tok h = balanceOf s tok h.
Proof.
  unfold depositToken. intros H Hown.
  apply bind_Ok in H as (s1 & Ht & H).
  apply bind_Ok in H as (b & Hsub & H). injection H as <- <-.
  apply sub_Ok in Hsub as [-> _].
  pose proof (erc20_transfer_frame _ _ _ _ _ _ Ht) as (Hb & Hbv & Hbal).
  apply erc20_transfer_Ok in Ht as (_ & _ & Hf).
  rewrite (Hf token (this c)).
  rewrite decide_False by congruence. rewrite decide_True by reflexivity.
  split; [lia | split; [done | split; [done | split; [lia | done]]]].
Qed.

Lemma lockGuardianFees_settled (c : Config) (x : Ctx) (s : State) :
  feesSettled c x s → lockGuardianFees c x false s = Ok s.
Proof.
  intros H. unfold lockGuardianFees.
  destruct (Z.eqb_spec (managementFee c) 0) as [E|E]; [reflexivity |].
  destruct H as [H|H]; [contradiction |].
  unfold getFeeIndex.
  destruct (Z.ltb_spec (lastFeeCheckpoint s) (block_timestamp x)); [lia |].
  reflexivity.
Qed.

Lemma getYieldTokens_lookup (c : Config) (i : nat) :
  getYieldTokens c !! i = yt_token <$> yieldTokenInfos c !! i.
Proof. apply list_lookup_fmap. Qed.

Lemma getWithdrawables_lookup (c : Config) (i : nat) :
  getWithdrawables c !! i = yt_isWithdrawable <$> yieldTokenInfos c !! i.
Proof. apply list_lookup_fmap. Qed.

Lemma distinctTokens_pool (c : Config) (s : State) :
  distinctTokens c s → NoDup (bv_tokens s).
Proof. intros H. by apply NoDup_app in H as (? & _ & _). Qed.

Lemma distinctTokens_yield (c : Config) (s : State) (i : nat) (y : address) :
  distinctTokens c s → getYieldTokens c !! i = Some y → y ∉ bv_tokens s.
Proof.
  intros H Hy Hin. apply NoDup_app in H as (_ & Hdis & _).
  apply (Hdis y Hin). by eapply list_elem_of_lookup_2.
Qed.

Lemma distinctTokens_yields (c : Config) (s : State) (i j : nat)
    (y : address) :
  distinctTokens c s →
  getYieldTokens c !! i = Some y → getYieldTokens c !! j = Some y → i = j.
Proof.
  intros H Hi Hj. apply NoDup_app in H as (_ & _ & Hnd).
  by eapply NoDup_lookup.
Qed.

(** [depositTokens] pulls every amount from the owner and moves the amounts
    of the pool tokens into the pool. *)
Lemma depositTokens_Ok (c : Config) (amounts : list Z) (s s' : State)
    (deposited : list Z) :
  depositTokens c amounts s = Ok (s', deposited) →
  distinctTokens c s → owner s ≠ this c →
  Forall (λ a, 0 ≤ a) amounts →
  books s' = books s ∧
  (∀ i, (i < numPoolTokens c)%nat →
        ∃ a cash managed,
          amounts !! i = Some a ∧
          bv_balances s !! (i + 1)%nat = Some (cash, managed) ∧
          bv_balances s' !! (i + 1)%nat = Some (cash + a, 0)) ∧
  (∀ i y, getYieldTokens c !! i = Some y →
          ∃ a, amounts !! (numPoolTokens c + i)%nat = Some a ∧
               balanceOf s' y (this c) = balanceOf s y (this c) + a).
Proof.
  unfold depositTokens. intros H Hnd Hown Hpos.
  apply bind_Ok in H as (tokens & Htok & H).
  pose proof (getTokens_NoDup _ _ _ Htok Hnd) as Hndt.
  apply getTokens_Ok in Htok as (Hlen & Hpool & Hyield).
  apply bind_Ok in H as ([sL dep] & Hloop & H).
  apply bind_Ok in H as (poolAmounts & Hpa & H).
  apply bind_Ok in H as (sA & Hdp & H). injection H as <- <-.
  apply (for_loop_inv
           (λ i '(t, d),
              books t = books s ∧ bv_balances t = bv_balances s ∧
              length d = numTokens c ∧
              (∀ j, (j < i)%nat →
                    ∃ a, amounts !! j = Some a ∧ d !! j = Some a) ∧
              (∀ j, (i ≤ j < numTokens c)%nat → d !! j = Some 0) ∧
              (∀ j tok, tokens !! j = Some tok → (i ≤ j)%nat →
                        balanceOf t tok (this c) = balanceOf s tok (this c)) ∧
              (∀ j tok a, tokens !! j = Some tok → amounts !! j = Some a →
                          (j < i)%nat →
                          balanceOf t tok (this c)
                          = balanceOf s tok (this c) + a))) in Hloop.
  2: { split; [done | split; [done | split; [apply length_replicate |]]].
       split; [intros; lia | split; [ | split; [done | intros; lia]]].
       intros j Hj. apply lookup_replicate_2. lia. }
  2: { intros i [t d] [t' d'] Hi (Hb & Hbv & Hld & Hdone & Hrest & Hbal0 & Hbal1)
         Hbody.
       apply bind_Ok in Hbody as (a & Ha & Hbody). apply get_Ok in Ha.
       assert (Ha0 : 0 ≤ a).
       { rewrite Forall_lookup in Hpos. by apply (Hpos i). }
       destruct (Z.ltb_spec 0 a) as [Hgt|Hgt].
       - apply bind_Ok in Hbody as (tk & Htk & Hbody). apply get_Ok in Htk.
         apply bind_Ok in Hbody as ([t1 dv] & Hdt & Hbody).
         apply bind_Ok in Hbody as (d1 & Hset & Hbody).
         injection Hbody as <- <-. apply set_Ok in Hset as [Hlt ->].
         apply depositToken_Ok in Hdt as (-> & Hb1 & Hbv1 & Hthis & Hoth).
         2: { rewrite (setup_owner s t); [done | by apply books_setup]. }
         split; [congruence | split; [congruence |]].
         split; [by rewrite length_insert |].
         split; [ | split; [ | split]].
         + intros j Hj. destruct (decide (j = i)) as [->|Hne].
           * exists a. split; [done |]. by rewrite list_lookup_insert_eq by lia.
           * destruct (Hdone j) as (a' & ? & ?); [lia |].
             exists a'. split; [done |].
             by rewrite list_lookup_insert_ne by done.
         + intros j Hj. rewrite list_lookup_insert_ne by lia. apply Hrest. lia.
         + intros j tok Hjt Hj. rewrite Hoth; [apply (Hbal0 j); [done | lia] |].
           intros ->.
           assert (j = i) by (eapply NoDup_lookup; eauto). lia.
         + intros j tok a' Hjt Ha' Hj. destruct (decide (j = i)) as [->|Hne].
           * rewrite Htk in Hjt. injection Hjt as <-.
             rewrite Ha in Ha'. injection Ha' as <-.
             rewrite Hthis. rewrite (Hbal0 i tk Htk); lia.
           * rewrite Hoth; [apply (Hbal1 j); [done | done | lia] |].
             intros ->. apply Hne. eapply NoDup_lookup; eauto.
       - injection Hbody as <- <-. assert (a = 0) as -> by lia.
         split; [done | split; [done | split; [done |]]].
         split; [ | split; [ | split]].
         + intros j Hj. destruct (decide (j = i)) as [->|Hne].
           * exists 0. split; [done |]. apply Hrest. lia.
           * apply Hdone. lia.
         + intros j Hj. apply Hrest. lia.
         + intros j tok Hjt Hj. apply (Hbal0 j); [done | lia].
         + intros j tok a' Hjt Ha' Hj. destruct (decide (j = i)) as [->|Hne].
           * rewrite Ha in Ha'. injection Ha' as <-.
             rewrite (Hbal0 i tok Hjt); lia.
           * apply (Hbal1 j); [done | done | lia]. }
  destruct Hloop as (Hb & Hbv & Hld & Hdone & _ & _ & Hbal).
  unfold getPoolTokenValues in Hpa. apply tabulate_Ok in Hpa as [_ Hpa].
  assert (Htok1 : bv_tokens sL = bv_tokens s)
    by (apply setup_bv_tokens; by apply books_setup).
  apply depositToPool_Ok in Hdp as (Hb2 & Hslots & Hframe).
  2: { rewrite Htok1. by eapply distinctTokens_pool. }
  split; [congruence | split].
  - intros i Hi.
    destruct (Hslots i Hi) as (a & cash & managed & Ha & Hg & Hg').
    destruct (Hpa i Hi) as (v & Hv & Hl). apply get_Ok in Hv.
    rewrite Ha in Hl. injection Hl as <-.
    destruct (Hdone i) as (a' & Ha' & Hd'); [unfold numTokens; lia |].
    rewrite Hv in Hd'. injection Hd' as <-.
    exists a, cash, managed. rewrite <- Hbv. auto.
  - intros i y Hy.
    assert (Hi : (i < numYieldTokens c)%nat).
    { apply lookup_lt_Some in Hy. unfold getYieldTokens in Hy.
      by rewrite length_map in Hy. }
    destruct (Hyield i Hi) as (y' & Hy' & Ht).
    rewrite Hy in Hy'. injection Hy' as <-.
    destruct (Hdone (numPoolTokens c + i)%nat) as (a & Ha & _);
      [unfold numTokens; lia |].
    exists a. split; [done |].
    rewrite Hframe.
    + apply (Hbal (numPoolTokens c + i)%nat); [done | done |].
      unfold numTokens. lia.
    + rewrite Htok1. by eapply distinctTokens_yield.
Qed.

(** The effect of a deposit on what [getHoldings] reads: every pool slot
    gains the amount in cash, with nothing left under management, and the
    vault's balance of every yield token gains the amount. *)
Lemma depositTokensAndUpdateWeights_Ok (c : Config) (x : Ctx)
    (tokenWithAmount : list TokenValue) (priceType : PriceType)
    (s s' : State) :
  depositTokensAndUpdateWeights c x tokenWithAmount priceType s = Ok s' →
  feesSettled c x s → distinctTokens c s → owner s ≠ this c →
  Forall (λ tv, 0 ≤ tv_value tv) tokenWithAmount →
  books s' = books s ∧
  (∀ i, (i < numPoolTokens c)%nat →
        ∃ tv cash managed,
          tokenWithAmount !! i = Some tv ∧
          bv_balances s !! (i + 1)%nat = Some (cash, managed) ∧
          bv_balances s' !! (i + 1)%nat = Some (cash + tv_value tv, 0)) ∧
  (∀ i y, getYieldTokens c !! i = Some y →
          ∃ tv, tokenWithAmount !! (numPoolTokens c + i)%nat = Some tv ∧
                balanceOf s' y (this c)
                = balanceOf s y (this c) + tv_value tv).
Proof.
  unfold depositTokensAndUpdateWeights. intros H Hfee Hnd Hown Hpos.
  apply bind_Ok in H as (s0 & Hlock & H).
  rewrite (lockGuardianFees_settled c x s Hfee) in Hlock.
  injection Hlock as <-.
  apply bind_Ok in H as ([[poolTokens poolHoldings] lcb] & _ & H).
  apply bind_Ok in H as (amounts & Hamt & H).
  apply getValuesFromTokenWithValues_Ok in Hamt as [-> Hlen].
  apply bind_Ok in H as ([dp pt] & _ & H).
  apply bind_Ok in H as ([sA nb] & Hdep & H).
  apply bind_Ok in H as (pnh & _ & H).
  apply bind_Ok in H as ([[w nb'] ws] & _ & H).
  apply bind_Ok in H as (sB & Hupw & H).
  apply bind_Ok in H as (nw & _ & H). injection H as <-.
  apply updatePoolWeights_Ok in Hupw as (_ & _ & ->).
  apply depositTokens_Ok in Hdep as (Hb & Hslots & Hy); [ | done | done |].
  2: { change (map tv_value tokenWithAmount)
         with (tv_value <$> tokenWithAmount).
       by apply Forall_fmap. }
  split; [exact Hb | split].
  - intros i Hi. destruct (Hslots i Hi) as (a & cash & managed & Ha & Hg & Hg').
    change (map tv_value tokenWithAmount)
      with (tv_value <$> tokenWithAmount) in Ha.
    rewrite list_lookup_fmap in Ha.
    destruct (tokenWithAmount !! i) as [tv|]; [ | discriminate].
    cbn in Ha. injection Ha as <-. exists tv, cash, managed. auto.
  - intros i y Hi. destruct (Hy i y Hi) as (a & Ha & Hbal).
    change (map tv_value tokenWithAmount)
      with (tv_value <$> tokenWithAmount) in Ha.
    rewrite list_lookup_fmap in Ha.
    destruct (tokenWithAmount !! (numPoolTokens c + i)%nat) as [tv|];
      [ | discriminate].
    cbn in Ha. injection Ha as <-. exists tv. auto.
Qed.

(** A withdrawal from a yield wrapper touches the balances of the yield
    token and of the token it wraps only. *)
Lemma withdrawUnderlyingAsset_frame (c : Config)
    (yieldToken underlyingAsset : address) (amount oraclePrice : Z)
    (underlyingIndex : nat) (s s' : State) (withdrawn : Z) :
  withdrawUnderlyingAsset c yieldToken underlyingAsset amount oraclePrice
    underlyingIndex s = Ok (s', withdrawn) →
  books s' = books s ∧ bv_balances s' = bv_balances s ∧
  ∀ tok h,
    tok ≠ yieldToken →
    (∀ w, wrappers s !! yieldToken = Some w → tok ≠ w_asset w) →
    balanceOf s' tok h = balanceOf s tok h.
Proof.
  unfold withdrawUnderlyingAsset. intros H.
  apply bind_Ok in H as (below & _ & H).
  destruct below; [by injection H as <- <- |].
  apply bind_Ok in H as (w & Hw & H).
  destruct (wrapper_maxWithdraw s yieldToken w (this c)) as [m|e];
    [ | by injection H as <- <-].
  destruct (m =? 0); [by injection H as <- <- |].
  apply bind_Ok in H as (s1 & Hww & H).
  apply bind_Ok in H as (wd & _ & H). injection H as <- <-.
  unfold wrapper_withdraw in Hww.
  apply bind_Ok in Hww as (w' & Hw' & Hww).
  rewrite Hw in Hw'. injection Hw' as <-.
  apply bind_Ok in Hww as (mx & _ & Hww).
  apply bind_Ok in Hww as ([] & _ & Hww).
  apply bind_Ok in Hww as (shares & _ & Hww).
  apply bind_Ok in Hww as (s2 & Hdeb & Htr).
  apply erc20_debit_frame in Hdeb as (Hb2 & Hbv2 & Hbal2).
  apply erc20_transfer_frame in Htr as (Hb1 & Hbv1 & Hbal1).
  split; [congruence | split; [congruence |]].
  intros tok h Hy Hw2. rewrite Hbal1, Hbal2; [done | done |].
  apply Hw2. unfold wrapper_at in Hw.
  destruct (wrappers s !! yieldToken); congruence.
Qed.

(** The effect of a withdrawal on what [getHoldings] reads: every pool slot
    loses the amount from its cash, with nothing left under management, and
    the vault's balance of every directly withdrawable yield token loses the
    amount. *)
Lemma withdrawTokens_Ok (c : Config) (x : Ctx)
    (tokenWithAmount : list TokenValue) (s s' : State) :
  withdrawTokens c x tokenWithAmount s = Ok s' →
  feesSettled c x s → distinctTokens c s → wrappersOfPoolTokens c s →
  owner s ≠ this c →
  Forall (λ tv, 0 ≤ tv_value tv) tokenWithAmount →
  books s' = books s ∧
  (∀ i, (i < numPoolTokens c)%nat →
        ∃ tv cash managed,
          tokenWithAmount !! i = Some tv ∧
          bv_balances s !! (i + 1)%nat = Some (cash, managed) ∧
          bv_balances s' !! (i + 1)%nat = Some (cash - tv_value tv, 0)) ∧
  (∀ i yt, yieldTokenInfos c !! i = Some yt → yt_isWithdrawable yt = true →
           ∃ tv, tokenWithAmount !! (numPoolTokens c + i)%nat = Some tv ∧
                 balanceOf s' (yt_token yt) (this c)
                 = balanceOf s (yt_token yt) (this c) - tv_value tv).
Proof.
  unfold withdrawTokens. intros H Hfee Hnd Hwr Hown Hpos.
  apply bind_Ok in H as (s0 & Hlock & H).
  rewrite (lockGuardianFees_settled c x s Hfee) in Hlock.
  injection Hlock as <-.
  apply bind_Ok in H as (poolTokens & Hpt & H).
  apply getPoolTokens_Ok in Hpt as [Hlpt Hpt].
  assert (Hpin : ∀ k u, poolTokens !! k = Some u → u ∈ bv_tokens s).
  { intros k u Hk.
    assert (Hlt : (k < numPoolTokens c)%nat)
      by (rewrite <- Hlpt; by eapply lookup_lt_Some).
    destruct (Hpt k Hlt) as (t & Hb & Ht). rewrite Hk in Ht.
    injection Ht as <-. by eapply list_elem_of_lookup_2. }
  apply bind_Ok in H as (holdings & _ & H).
  apply bind_Ok in H as (amounts & Hamt & H).
  apply getValuesFromTokenWithValues_Ok in Hamt as [-> Hlen].
  apply bind_Ok in H as ([] & _ & H).
  apply bind_Ok in H as ([oraclePrices updatedAt] & _ & H).
  apply bind_Ok in H as ([] & _ & H).
  apply bind_Ok in H as (balances & _ & H).
  apply bind_Ok in H as (poolAmounts & Hpa & H).
  apply bind_Ok in H as (sC & Hwp & H).
  apply bind_Ok in H as ([[[sD bal] wts] ws] & Hloop1 & H).
  apply bind_Ok in H as ([sE bal'] & Hloop2 & H).
  apply bind_Ok in H as (sF & Hupw & H).
  apply bind_Ok in H as (nw & _ & H). injection H as <-.
  apply updatePoolWeights_Ok in Hupw as (_ & _ & ->).
  change (map tv_value tokenWithAmount)
    with (tv_value <$> tokenWithAmount) in *.
  assert (Hamounts : ∀ j a, (tv_value <$> tokenWithAmount) !! j = Some a →
            0 ≤ a ∧ ∃ tv, tokenWithAmount !! j = Some tv ∧ a = tv_value tv).
  { intros j a Ha. rewrite list_lookup_fmap in Ha.
    destruct (tokenWithAmount !! j) as [tv|] eqn:E; [ | discriminate].
    cbn in Ha. injection Ha as <-. split; [ | eauto].
    rewrite Forall_lookup in Hpos. by apply (Hpos j). }
  (* the pool *)
  unfold getPoolTokenValues in Hpa. apply tabulate_Ok in Hpa as [_ Hpa].
  apply withdrawFromPool_Ok in Hwp as (HbC & Hslots & HframeC);
    [ | by eapply distinctTokens_pool].
  (* the pool tokens go to the owner *)
  apply (for_loop_inv
           (λ (i : nat) '(t, _, _, _),
              books t = books sC ∧ bv_balances t = bv_balances sC ∧
              ∀ tok h, tok ∉ bv_tokens s →
                       balanceOf t tok h = balanceOf sC tok h)) in Hloop1.
  2: { done. }
  2: { intros i [[[t b] w] u] [[[t' b'] w'] u'] Hi (Hb & Hbv & Hfr) Hbody.
       apply bind_Ok in Hbody as (a & _ & Hbody).
       apply bind_Ok in Hbody as ([[t1 b1] w1] & Hif & Hbody).
       apply bind_Ok in Hbody as (w2 & _ & Hbody).
       apply bind_Ok in Hbody as (u2 & _ & Hbody).
       injection Hbody as <- <- <- <-.
       destruct (0 <? a).
       - apply bind_Ok in Hif as (t0 & Ht0 & Hif). apply get_Ok in Ht0.
         do 3 (apply bind_Ok in Hif as (? & _ & Hif)).
         apply bind_Ok in Hif as (sT & Htr & Hif).
         do 6 (apply bind_Ok in Hif as (? & _ & Hif)).
         injection Hif as <- <- <-.
         apply erc20_transfer_frame in Htr as (Hb1 & Hbv1 & Hbal1).
         split; [congruence | split; [congruence |]].
         intros tok h Hnotin. rewrite Hbal1; [by apply Hfr |].
         intros ->. apply Hnotin. by eapply Hpin.
       - by injection Hif as <- <- <-. }
  destruct Hloop1 as (HbD & HbvD & HframeD).
  (* the yield tokens *)
  apply (for_loop_inv
           (λ (i : nat) '(t, _),
              books t = books sD ∧ bv_balances t = bv_balances sD ∧
              ∀ j yt a,
                yieldTokenInfos c !! j = Some yt →
                yt_isWithdrawable yt = true →
                (tv_value <$> tokenWithAmount) !! (numPoolTokens c + j)%nat
                = Some a →
                balanceOf t (yt_token yt) (this c)
                = balanceOf sD (yt_token yt) (this c)
                  - (if decide (j < i)%nat then a else 0))) in Hloop2.
  2: { split; [done | split; [done |]]. intros j yt a _ _ _.
       rewrite decide_False by lia. lia. }
  2: { intros i [t b] [t' b'] Hi (Hb & Hbv & Hbal) Hbody.
       assert (Hsetup : setup t = setup s).
       { apply books_setup. congruence. }
       apply bind_Ok in Hbody as (a & Ha & Hbody). apply get_Ok in Ha.
       destruct (Hamounts _ _ Ha) as [Ha0 _].
       destruct (Z.ltb_spec 0 a) as [Hgt|Hgt].
       - apply bind_Ok in Hbody as (wd & Hwd & Hbody). apply get_Ok in Hwd.
         rewrite getWithdrawables_lookup in Hwd.
         destruct (yieldTokenInfos c !! i) as [yti|] eqn:Hyti;
           [ | discriminate].
         cbn in Hwd. injection Hwd as <-.
         destruct (yt_isWithdrawable yti) eqn:Hwdi.
         + apply bind_Ok in Hbody as (b1 & _ & Hbody).
           apply bind_Ok in Hbody as (y & Hy & Hbody). apply get_Ok in Hy.
           rewrite getYieldTokens_lookup, Hyti in Hy. cbn in Hy.
           injection Hy as <-.
           apply bind_Ok in Hbody as (t1 & Htr & Hbody).
           injection Hbody as <- <-.
           pose proof (erc20_transfer_frame _ _ _ _ _ _ Htr)
             as (Hb1 & Hbv1 & Hbal1).
           apply erc20_transfer_Ok in Htr as (_ & _ & Hf).
           split; [congruence | split; [congruence |]].
           intros j yt a' Hj Hwdj Ha'.
           destruct (decide (j = i)) as [->|Hne].
           * rewrite Hyti in Hj. injection Hj as <-.
             rewrite Ha in Ha'. injection Ha' as <-.
             rewrite Hf. rewrite decide_True by reflexivity.
             rewrite decide_False.
             2: { intros [= E]. apply Hown.
                  rewrite <- (setup_owner s t Hsetup). done. }
             rewrite (Hbal i yti a Hyti Hwdi Ha).
             rewrite decide_False by lia. rewrite decide_True by lia. lia.
           * rewrite Hbal1.
             2: { intros E. apply Hne.
                  apply (distinctTokens_yields c s j i (yt_token yti) Hnd).
                  - rewrite getYieldTokens_lookup, Hj. cbn. by rewrite E.
                  - by rewrite getYieldTokens_lookup, Hyti. }
             rewrite (Hbal j yt a' Hj Hwdj Ha').
             destruct (decide (j < i)%nat), (decide (j < S i)%nat);
               try lia; reflexivity.
         + apply bind_Ok in Hbody as (uidx & _ & Hbody).
           apply bind_Ok in Hbody as (ua & Hua & Hbody). apply get_Ok in Hua.
           apply bind_Ok in Hbody as (y & Hy & Hbody). apply get_Ok in Hy.
           rewrite getYieldTokens_lookup, Hyti in Hy. cbn in Hy.
           injection Hy as <-.
           apply bind_Ok in Hbody as (price & _ & Hbody).
           apply bind_Ok in Hbody as ([t1 wdn] & Hwu & Hbody).
           apply bind_Ok in Hbody as (b1 & _ & Hbody).
           apply bind_Ok in Hbody as (t2 & Htr & Hbody).
           injection Hbody as <- <-.
           apply withdrawUnderlyingAsset_frame in Hwu as (Hb1 & Hbv1 & Hbal1).
           apply erc20_transfer_frame in Htr as (Hb2 & Hbv2 & Hbal2).
           split; [congruence | split; [congruence |]].
           intros j yt a' Hj Hwdj Ha'.
           assert (Hne : j ≠ i).
           { intros ->. rewrite Hyti in Hj. injection Hj as <-. congruence. }
           assert (Hyj : getYieldTokens c !! j = Some (yt_token yt))
             by (by rewrite getYieldTokens_lookup, Hj).
           pose proof (distinctTokens_yield c s j _ Hnd Hyj) as Hnotin.
           rewrite Hbal2.
           2: { intros E. apply Hnotin. rewrite E. by eapply Hpin. }
           rewrite Hbal1.
           2: { intros E. apply Hne.
                apply (distinctTokens_yields c s j i (yt_token yti) Hnd).
                - by rewrite Hyj, E.
                - by rewrite getYieldTokens_lookup, Hyti. }
           2: { intros w Hw E. apply Hnotin. rewrite E.
                rewrite (setup_wrappers s t Hsetup) in Hw.
                eapply list_elem_of_lookup_2. exact (Hwr i yti w Hyti Hw). }
           rewrite (Hbal j yt a' Hj Hwdj Ha').
           destruct (decide (j < i)%nat), (decide (j < S i)%nat);
             try lia; reflexivity.
       - injection Hbody as <- <-. assert (a = 0) as -> by lia.
         split; [done | split; [done |]].
         intros j yt a' Hj Hwdj Ha'. rewrite (Hbal j yt a' Hj Hwdj Ha').
         destruct (decide (j = i)) as [->|Hne].
         + rewrite Ha in Ha'. injection Ha' as <-.
           by destruct (decide (i < i)%nat), (decide (i < S i)%nat).
         + destruct (decide (j < i)%nat), (decide (j < S i)%nat);
             try lia; reflexivity. }
  destruct Hloop2 as (HbE & HbvE & HbalE).
  split; [change (books sE = books s); congruence | split].
  - intros i Hi.
    destruct (Hslots i Hi) as (a & cash & managed & Hpa' & Hg & Hg').
    destruct (Hpa i Hi) as (v & Hv & Hl). apply get_Ok in Hv.
    rewrite Hpa' in Hl. injection Hl as <-.
    destruct (Hamounts _ _ Hv) as (_ & tv & Htv & ->).
    exists tv, cash, managed. split; [done | split; [done |]].
    change (bv_balances sE !! (i + 1)%nat
            = Some (cash - tv_value tv, 0)).
    by rewrite HbvE, HbvD.
  - intros i yt Hyt Hwd.
    assert (Hi : (i < numYieldTokens c)%nat) by (by eapply lookup_lt_Some).
    destruct (lookup_lt_is_Some_2 (tv_value <$> tokenWithAmount)
                (numPoolTokens c + i)) as [a Ha].
    { rewrite length_fmap, Hlen. unfold numTokens. lia. }
    destruct (Hamounts _ _ Ha) as (_ & tv & Htv & ->).
    exists tv. split; [done |].
    change (balanceOf sE (yt_token yt) (this c)
            = balanceOf s (yt_token yt) (this c) - tv_value tv).
    rewrite (HbalE i yt _ Hyt Hwd Ha). rewrite decide_True by lia.
    rewrite HframeD, HframeC; [done | |];
      eapply distinctTokens_yield; try exact Hnd;
      by rewrite getYieldTokens_lookup, Hyt.
Qed.

Lemma roundTrip_restores (c : Config) (x x' : Ctx) (priceType : PriceType)
    (tokenWithAmount : list TokenValue) (s0 s1 s2 : State) (h0 h2 : list Z) :
  roundTripSetting c x x' tokenWithAmount s0 →
  depositTokensAndUpdateWeights c x tokenWithAmount priceType s0 = Ok s1 →
  withdrawTokens c x' tokenWithAmount s1 = Ok s2 →
  getHoldings c s0 = Ok h0 → getHoldings c s2 = Ok h2 →
  holdingsRestored c h0 h2.
Proof.
  intros (Hfee & Hfee' & Hnd & Hwr & Hcash & Hown & Hpos) Hdep Hwd Hh0 Hh2.
  apply depositTokensAndUpdateWeights_Ok in Hdep as (Hb1 & Hp1 & Hy1);
    [ | done | done | done | done].
  pose proof (books_setup _ _ Hb1) as Hsetup1.
  pose proof (setup_bv_tokens _ _ Hsetup1) as Htok1.
  apply withdrawTokens_Ok in Hwd as (Hb2 & Hp2 & Hy2).
  2: { destruct Hfee' as [E|E]; [by left | right].
       by rewrite (books_lastFeeCheckpoint _ _ Hb1). }
  2: { unfold distinctTokens. by rewrite Htok1. }
  2: { intros i yt w Hyt Hw. rewrite Htok1.
       rewrite (setup_wrappers _ _ Hsetup1) in Hw. by eapply Hwr. }
  2: { by rewrite (setup_owner _ _ Hsetup1). }
  2: { done. }
  apply getHoldings_Ok in Hh0 as (_ & Hp0 & Hy0).
  apply getHoldings_Ok in Hh2 as (_ & Hp3 & Hy3).
  split.
  - intros i Hi.
    destruct (Hp0 i Hi) as (cash0 & managed0 & Hg0 & ->).
    destruct (Hp3 i Hi) as (cash2 & managed2 & Hg2 & ->).
    destruct (Hp1 i Hi) as (tv & cash & managed & Htv & Hg & Hg1).
    destruct (Hp2 i Hi) as (tv' & cash1 & managed1 & Htv' & Hg1' & Hg2').
    rewrite Htv in Htv'. injection Htv' as <-.
    rewrite Hg0 in Hg. injection Hg as <- <-.
    rewrite Hg1 in Hg1'. injection Hg1' as <- <-.
    rewrite Hg2 in Hg2'. injection Hg2' as -> ->.
    rewrite (Hcash i cash0 managed0 Hi Hg0). f_equal. lia.
  - intros i yt Hyt Hwdb.
    assert (Hi : (i < numYieldTokens c)%nat) by (by eapply lookup_lt_Some).
    destruct (Hy0 i Hi) as (y & fee & Hy & Hfee0 & ->).
    destruct (Hy3 i Hi) as (y' & fee' & Hy' & Hfee2 & ->).
    rewrite Hy in Hy'. injection Hy' as <-.
    rewrite (books_guardiansFeeTotal s0 s2) in Hfee2 by congruence.
    rewrite Hfee0 in Hfee2. injection Hfee2 as <-.
    destruct (Hy1 i y Hy) as (tv & Htv & Hbal1).
    destruct (Hy2 i yt Hyt Hwdb) as (tv' & Htv' & Hbal2).
    rewrite Htv in Htv'. injection Htv' as <-.
    rewrite getYieldTokens_lookup, Hyt in Hy. cbn in Hy. injection Hy as <-.
    f_equal. lia.
Qed.

Lemma deposit_Ok_inner (c : Config) (x : Ctx)
    (tokenWithAmount : list TokenValue) (s s' : State) :
  deposit c x tokenWithAmount s = Ok s' →
  depositTokensAndUpdateWeights c x tokenWithAmount DETERMINED s = Ok s'.
Proof.
  unfold deposit. intros H. by do 4 (apply bind_Ok in H as ([] & _ & H)).
Qed.

Lemma depositRiskingArbitrage_Ok_inner (c : Config) (x : Ctx)
    (tokenWithAmount : list TokenValue) (s s' : State) :
  depositRiskingArbitrage c x tokenWithAmount s = Ok s' →
  depositTokensAndUpdateWeights c x tokenWithAmount SPOT s = Ok s'.
Proof.
  unfold depositRiskingArbitrage. intros H.
  by do 4 (apply bind_Ok in H as ([] & _ & H)).
Qed.

Lemma withdraw_Ok_inner (c : Config) (x : Ctx)
    (tokenWithAmount : list TokenValue) (s s' : State) :
  withdraw c x tokenWithAmount s = Ok s' →
  withdrawTokens c x tokenWithAmount s = Ok s'.
Proof.
  unfold withdraw. intros H. by do 4 (apply bind_Ok in H as ([] & _ & H)).
Qed.

(** C3 (amended).  A deposit of amounts A followed by a withdrawal of the
    same amounts A, with no fee accruing in either call (the management fee
    is zero, or the fees were locked no earlier than both calls), in a
    deployment whose registered tokens and yield tokens are pairwise
    distinct, whose pool is fully in cash, whose wrappers wrap the pool
    token of their underlying index and whose owner is not the vault,
    returns the reported holdings of every pool token slot and of every
    directly withdrawable yield token slot exactly to their values before
    the deposit.  This holds for [depositTokensAndUpdateWeights] with any
    price type followed by [withdrawTokens], and so for [deposit] or
    [depositRiskingArbitrage] followed by [withdraw]. *)
Theorem C3_value_conservation :
  (∀ c x x' priceType tokenWithAmount s0 s1 s2 h0 h2,
     roundTripSetting c x x' tokenWithAmount s0 →
     depositTokensAndUpdateWeights c x tokenWithAmount priceType s0 = Ok s1 →
     withdrawTokens c x' tokenWithAmount s1 = Ok s2 →
     getHoldings c s0 = Ok h0 → getHoldings c s2 = Ok h2 →
     holdingsRestored c h0 h2) ∧
  (∀ c x x' tokenWithAmount s0 s1 s2 h0 h2,
     roundTripSetting c x x' tokenWithAmount s0 →
     deposit c x tokenWithAmount s0 = Ok s1
     ∨ depositRiskingArbitrage c x tokenWithAmount s0 = Ok s1 →
     withdraw c x' tokenWithAmount s1 = Ok s2 →
     getHoldings c s0 = Ok h0 → getHoldings c s2 = Ok h2 →
     holdingsRestored c h0 h2).
Proof.
  split.
  - exact roundTrip_restores.
  - intros c x x' A s0 s1 s2 h0 h2 Hset Hdep Hwd Hh0 Hh2.
    apply withdraw_Ok_inner in Hwd.
    destruct Hdep as [Hdep|Hdep].
    + apply deposit_Ok_inner in Hdep.
      exact (roundTrip_restores c x x' DETERMINED A s0 s1 s2 h0 h2
               Hset Hdep Hwd Hh0 Hh2).
    + apply depositRiskingArbitrage_Ok_inner in Hdep.
      exact (roundTrip_restores c x x' SPOT A s0 s1 s2 h0 h2
               Hset Hdep Hwd Hh0 Hh2).
Qed.

(** The sample deployment is a setting of the round trip for any unsigned
    amounts. *)
Lemma ex_roundTripSetting (tokenWithAmount : list TokenValue) :
  Forall (λ tv, 0 ≤ tv_value tv) tokenWithAmount →
  roundTripSetting (ex_config 0) ex_owner_call ex_owner_call tokenWithAmount
    ex_state.
Proof.
  intros Hpos. split; [by left | split; [by left |]].
  split; [ | split; [ | split; [ | split; [ | exact Hpos]]]].
  - apply (bool_decide_unpack _). vm_compute. reflexivity.
  - intros i yt w Hyt Hw.
    destruct i as [|[|i]]; cbn in Hyt; try discriminate;
      injection Hyt as <-; vm_compute in Hw; injection Hw as <-; reflexivity.
  - intros i cash managed Hi Hl.
    destruct i as [|[|i]]; [ | | cbn in Hi; lia];
      vm_compute in Hl; by injection Hl as <- <-.
  - discriminate.
Qed.

Lemma C3_value_conservation_witness :
  ∃ s1 s2 h2,
    deposit (ex_config 0) ex_owner_call (ex_values ONE ONE ONE (ONE / 2))
      ex_state = Ok s1 ∧
    withdraw (ex_config 0) ex_owner_call (ex_values ONE ONE ONE (ONE / 2))
      s1 = Ok s2 ∧
    getHoldings (ex_config 0) s2 = Ok h2 ∧
    holdingsRestored (ex_config 0)
      [100 * ONE; 100 * ONE; 10 * ONE; 10 * ONE] h2.
Proof.
  assert (Hrun : ∃ s1 s2 h2,
            deposit (ex_config 0) ex_owner_call
              (ex_values ONE ONE ONE (ONE / 2)) ex_state = Ok s1 ∧
            withdraw (ex_config 0) ex_owner_call
              (ex_values ONE ONE ONE (ONE / 2)) s1 = Ok s2 ∧
            getHoldings (ex_config 0) s2 = Ok h2).
  { eexists. eexists. eexists.
    split; [vm_compute; reflexivity |].
    split; [vm_compute; reflexivity |]. vm_compute. reflexivity. }
  destruct Hrun as (s1 & s2 & h2 & Hd & Hw & Hh).
  assert (Hh0 : getHoldings (ex_config 0) ex_state
                = Ok [100 * ONE; 100 * ONE; 10 * ONE; 10 * ONE]).
  { vm_compute. reflexivity. }
  assert (Hset : roundTripSetting (ex_config 0) ex_owner_call ex_owner_call
                   (ex_values ONE ONE ONE (ONE / 2)) ex_state).
  { apply ex_roundTripSetting. repeat constructor; vm_compute; discriminate. }
  exists s1, s2, h2.
  split; [exact Hd | split; [exact Hw | split; [exact Hh |]]].
  exact (proj2 C3_value_conservation (ex_config 0) ex_owner_call
           ex_owner_call (ex_values ONE ONE ONE (ONE / 2)) ex_state s1 s2
           _ h2 Hset (or_introl Hd) Hw Hh0 Hh).
Defined.

(** C3, as stated, fails.  In the sample deployment, with a management fee
    of zero, the owner deposits one unit of each pool token and of the
    directly withdrawable yield token and half a unit of the yield token 22,
    which is not directly withdrawable, and withdraws the same amounts at
    once.  The withdrawal serves yield token 22 through its wrapper, and
    half a unit is below [minYieldActionThreshold]: the wrapper is not
    called, and the vault is left holding 10.5 units of yield token 22
    instead of the 10 it held before the deposit. *)
Lemma C3_counterexample :
  managementFee (ex_config 0) = 0 ∧
  roundTripSetting (ex_config 0) ex_owner_call ex_owner_call
    (ex_values ONE ONE ONE (ONE / 2)) ex_state ∧
  getHoldings (ex_config 0) ex_state
  = Ok [100 * ONE; 100 * ONE; 10 * ONE; 10 * ONE] ∧
  ∃ s1 s2,
    deposit (ex_config 0) ex_owner_call (ex_values ONE ONE ONE (ONE / 2))
      ex_state = Ok s1 ∧
    withdraw (ex_config 0) ex_owner_call (ex_values ONE ONE ONE (ONE / 2))
      s1 = Ok s2 ∧
    getHoldings (ex_config 0) s2
    = Ok [100 * ONE; 100 * ONE; 10 * ONE; 10 * ONE + ONE / 2].
Proof.
  split; [reflexivity | split; [ | split; [vm_compute; reflexivity |]]].
  - apply ex_roundTripSetting. repeat constructor; vm_compute; discriminate.
  - eexists. eexists.
    split; [vm_compute; reflexivity |].
    split; [vm_compute; reflexivity |]. vm_compute. reflexivity.
Qed.

(** * Further properties of the vault's code *)

(** X1.  [getTokens] returns [numTokens] entries: the registered pool
    tokens, in the order of the registration and without the pool's own
    token at its slot 0, followed by the yield tokens in the order of the
    deployment. *)
Theorem X1_getTokens_layout (c : Config) (s : State) (tokens : list address) :
  getTokens c s = Ok tokens →
  length tokens = numTokens c ∧
  (∀ i, (i < numPoolTokens c)%nat →
        ∃ t, bv_tokens s !! (i + 1)%nat = Some t ∧ tokens !! i = Some t) ∧
  (∀ i, (i < numYieldTokens c)%nat →
        ∃ y, getYieldTokens c !! i = Some y ∧
             tokens !! (numPoolTokens c + i)%nat = Some y).
Proof. apply getTokens_Ok. Qed.

Lemma X1_getTokens_layout_witness :
  length [11%N; 12%N; 21%N; 22%N] = numTokens (ex_config 0) ∧
  (∀ i, (i < numPoolTokens (ex_config 0))%nat →
        ∃ t, bv_tokens ex_state !! (i + 1)%nat = Some t ∧
             [11%N; 12%N; 21%N; 22%N] !! i = Some t) ∧
  (∀ i, (i < numYieldTokens (ex_config 0))%nat →
        ∃ y, getYieldTokens (ex_config 0) !! i = Some y ∧
             [11%N; 12%N; 21%N; 22%N]
               !! (numPoolTokens (ex_config 0) + i)%nat = Some y).
Proof.
  apply (X1_getTokens_layout (ex_config 0) ex_state). vm_compute. reflexivity.
Defined.

(** X2.  [getHoldings] reports, for a pool token, the cash and the managed
    balance of its slot in the Balancer vault and, for a yield token, the
    vault's balance of the token less the outstanding guardian fees of the
    slot. *)
Theorem X2_getHoldings_reading (c : Config) (s : State) (holdings : list Z) :
  getHoldings c s = Ok holdings →
  length holdings = numTokens c ∧
  (∀ i, (i < numPoolTokens c)%nat →
        ∃ cash managed,
          bv_balances s !! (i + 1)%nat = Some (cash, managed) ∧
          holdings !! i = Some (cash + managed)) ∧
  (∀ i, (i < numYieldTokens c)%nat →
        ∃ y fee,
          getYieldTokens c !! i = Some y ∧
          guardiansFeeTotal s !! (numPoolTokens c + i)%nat = Some fee ∧
          holdings !! (numPoolTokens c + i)%nat
          = Some (balanceOf s y (this c) - fee)).
Proof. apply getHoldings_Ok. Qed.

Lemma X2_getHoldings_reading_witness :
  ∃ h, getHoldings (ex_config 0) ex_state = Ok h ∧
       length h = numTokens (ex_config 0) ∧
       h !! 0%nat = Some (100 * ONE) ∧ h !! 3%nat = Some (10 * ONE).
Proof.
  exists [100 * ONE; 100 * ONE; 10 * ONE; 10 * ONE].
  assert (Hrun : getHoldings (ex_config 0) ex_state
                 = Ok [100 * ONE; 100 * ONE; 10 * ONE; 10 * ONE])
    by (vm_compute; reflexivity).
  split; [exact Hrun |].
  destruct (X2_getHoldings_reading (ex_config 0) ex_state _ Hrun)
    as (Hlen & _ & _).
  split; [exact Hlen | split; reflexivity].
Defined.

(** X3.  [getValuesFromTokenWithValues] rejects a request whose length is
    not [numTokens] with [ValueLengthIsNotSame]; when it succeeds, the
    request names the vault's tokens in the vault's order (pool tokens, then
    yield tokens) and the values returned are those of the request, in its
    order. *)
Theorem X3_getValuesFromTokenWithValues (c : Config)
    (tokenWithValues : list TokenValue) (poolTokens : list address) :
  (numTokens c ≠ length tokenWithValues →
   getValuesFromTokenWithValues c tokenWithValues poolTokens
   = Err (Mammon__ValueLengthIsNotSame (Z.of_nat (numTokens c))
            (Z.of_nat (length tokenWithValues)))) ∧
  (∀ values,
     getValuesFromTokenWithValues c tokenWithValues poolTokens = Ok values →
     length tokenWithValues = numTokens c ∧
     values = map tv_value tokenWithValues ∧
     (∀ i tv, (i < numPoolTokens c)%nat → tokenWithValues !! i = Some tv →
              poolTokens !! i = Some (tv_token tv)) ∧
     (∀ i tv, (i < numYieldTokens c)%nat →
              tokenWithValues !! (numPoolTokens c + i)%nat = Some tv →
              getYieldTokens c !! i = Some (tv_token tv))).
Proof.
  split.
  - intros Hne. unfold getValuesFromTokenWithValues.
    by rewrite bool_decide_eq_false_2.
  - intros values H.
    pose proof (getValuesFromTokenWithValues_Ok _ _ _ _ H) as [Hv Hlen].
    split; [exact Hlen | split; [exact Hv |]].
    unfold getValuesFromTokenWithValues in H.
    apply bind_Ok in H as ([] & _ & H).
    apply bind_Ok in H as (values1 & Hl1 & Hl2).
    split.
    + apply (for_loop_inv
               (λ i (v : list Z),
                  length v = numTokens c ∧
                  ∀ j tv, (j < i)%nat → tokenWithValues !! j = Some tv →
                          poolTokens !! j = Some (tv_token tv))) in Hl1.
      * intros i tv Hi. by apply Hl1.
      * split; [apply length_replicate | intros; lia].
      * intros i v v' Hi [Hlv Hpre] Hb. split.
        { ok_inv. subst v'. by rewrite length_insert. }
        intros j tv Hj Htv.
        destruct (decide (j = i)) as [->|Hne]; [ | apply Hpre; [lia | done]].
        apply bind_Ok in Hb as (tv' & Htv' & Hb). apply get_Ok in Htv'.
        rewrite Htv in Htv'. injection Htv' as <-.
        apply bind_Ok in Hb as (t & Ht & Hb). apply get_Ok in Ht.
        apply bind_Ok in Hb as ([] & Hreq & _).
        apply require_Ok, bool_decide_eq_true in Hreq. by rewrite Hreq.
    + apply (for_loop_inv
               (λ i (_ : list Z),
                  True ∧
                  ∀ j tv, (j < i)%nat →
                          tokenWithValues !! (numPoolTokens c + j)%nat
                          = Some tv →
                          getYieldTokens c !! j = Some (tv_token tv))) in Hl2.
      * intros i tv Hi. by apply Hl2.
      * split; [done | intros; lia].
      * intros i v v' Hi [_ Hpre] Hb. split; [done |].
        intros j tv Hj Htv.
        destruct (decide (j = i)) as [->|Hne]; [ | apply Hpre; [lia | done]].
        apply bind_Ok in Hb as (tv' & Htv' & Hb). apply get_Ok in Htv'.
        rewrite Htv in Htv'. injection Htv' as <-.
        apply bind_Ok in Hb as (t & Ht & Hb). apply get_Ok in Ht.
        apply bind_Ok in Hb as ([] & Hreq & _).
        apply require_Ok, bool_decide_eq_true in Hreq. by rewrite Hreq.
Qed.

Lemma X3_getValuesFromTokenWithValues_witness :
  getValuesFromTokenWithValues (ex_config 0) (ex_plain_values 1 2)
    [11%N; 12%N]
  = Err (Mammon__ValueLengthIsNotSame 4 2) ∧
  map tv_value (ex_values 1 2 3 4) = [1; 2; 3; 4].
Proof.
  split.
  - apply (proj1 (X3_getValuesFromTokenWithValues (ex_config 0)
                    (ex_plain_values 1 2) [11%N; 12%N])).
    vm_compute. discriminate.
  - symmetry.
    apply (proj2 (X3_getValuesFromTokenWithValues (ex_config 0)
                    (ex_values 1 2 3 4) [11%N; 12%N]) [1; 2; 3; 4]).
    vm_compute. reflexivity.
Defined.

(** X4.  [lockGuardianFees] does nothing when the management fee is zero or
    when no time has passed since the last fee checkpoint; whenever it
    succeeds it leaves the flags, the roles, the registered tokens, the swap
    fee, the wrappers and the oracle feeds as they were. *)
Theorem X4_lockGuardianFees_idle (c : Config) (x : Ctx) (s : State) :
  (managementFee c = 0 ∨ block_timestamp x ≤ lastFeeCheckpoint s →
   lockGuardianFees c x false s = Ok s) ∧
  (∀ flag s', lockGuardianFees c x flag s = Ok s' → setup s' = setup s).
Proof.
  split.
  - apply lockGuardianFees_settled.
  - intros flag s'. apply lockGuardianFees_setup.
Qed.

Lemma X4_lockGuardianFees_idle_witness :
  lockGuardianFees (ex_config 0) ex_owner_call false ex_state = Ok ex_state.
Proof.
  apply (proj1 (X4_lockGuardianFees_idle (ex_config 0) ex_owner_call
                  ex_state)).
  left. reflexivity.
Defined.



(** X6.  [updatePoolBalance] applies the operation to every pool slot of
    the Balancer vault with the amount of the slot, leaves the fee books and
    the setup alone, and changes no balance of a token that is not
    registered with the pool. *)
Theorem X6_updatePoolBalance_slots (c : Config) (amounts : list Z)
    (kind : PoolBalanceOpKind) (s s' : State) :
  updatePoolBalance c amounts kind s = Ok s' →
  NoDup (bv_tokens s) →
  books s' = books s ∧
  (∀ i, (i < numPoolTokens c)%nat →
        ∃ a cash managed,
          amounts !! i = Some a ∧
          bv_balances s !! (i + 1)%nat = Some (cash, managed) ∧
          bv_balances s' !! (i + 1)%nat
          = Some (poolBalanceAfter kind a cash managed)) ∧
  ∀ tok h, tok ∉ bv_tokens s → balanceOf s' tok h = balanceOf s tok h.
Proof. apply updatePoolBalance_Ok. Qed.

Lemma X6_updatePoolBalance_slots_witness :
  ∃ s', updatePoolBalance (ex_config 0) [3; 4] UPDATE ex_state = Ok s' ∧
        books s' = books ex_state.
Proof.
  assert (Hrun : ∃ s', updatePoolBalance (ex_config 0) [3; 4] UPDATE ex_state
                       = Ok s').
  { eexists. vm_compute. reflexivity. }
  destruct Hrun as (s' & Hrun). exists s'. split; [exact Hrun |].
  apply (X6_updatePoolBalance_slots (ex_config 0) [3; 4] UPDATE ex_state s'
           Hrun).
  apply (bool_decide_unpack _). vm_compute. reflexivity.
Defined.



(** X8.  [withdrawFromPool] takes the amount of every pool slot out of the
    cash balance of the slot and leaves nothing under management. *)
Theorem X8_withdrawFromPool_slots (c : Config) (amounts : list Z)
    (s s' : State) :
  withdrawFromPool c amounts s = Ok s' →
  NoDup (bv_tokens s) →
  books s' = books s ∧
  (∀ i, (i < numPoolTokens c)%nat →
        ∃ a cash managed,
          amounts !! i = Some a ∧
          bv_balances s !! (i + 1)%nat = Some (cash, managed) ∧
          bv_balances s' !! (i + 1)%nat = Some (cash - a, 0)) ∧
  ∀ tok h, tok ∉ bv_tokens s → balanceOf s' tok h = balanceOf s tok h.
Proof. apply withdrawFromPool_Ok. Qed.

Lemma X8_withdrawFromPool_slots_witness :
  ∃ s', withdrawFromPool (ex_config 0) [ONE; ONE] ex_state = Ok s' ∧
        books s' = books ex_state.
Proof.
  assert (Hrun : ∃ s', withdrawFromPool (ex_config 0) [ONE; ONE] ex_state
                       = Ok s').
  { eexists. vm_compute. reflexivity. }
  destruct Hrun as (s' & Hrun). exists s'. split; [exact Hrun |].
  apply (X8_withdrawFromPool_slots (ex_config 0) [ONE; ONE] ex_state s' Hrun).
  apply (bool_decide_unpack _). vm_compute. reflexivity.
Defined.



(** X10.  [getWeightChangeRatio] does not depend on the order of its
    arguments, and for two positive weights a ratio it returns is at least
    ONE. *)
Theorem X10_getWeightChangeRatio_symmetric :
  (∀ weight targetWeight,
     getWeightChangeRatio weight targetWeight
     = getWeightChangeRatio targetWeight weight) ∧
  (∀ weight targetWeight r,
     0 < weight → 0 < targetWeight →
     getWeightChangeRatio weight targetWeight = Ok r → ONE ≤ r).
Proof.
  split.
  - intros w t. unfold getWeightChangeRatio.
    destruct (Z.ltb_spec t w), (Z.ltb_spec w t); try lia; try reflexivity.
    by replace t with w by lia.
  - intros w t r Hw Ht. unfold getWeightChangeRatio.
    destruct (Z.ltb_spec t w) as [Hlt|Hge]; intros H;
      apply mulDiv_Ok in H as (-> & _ & _).
    + apply Z.div_le_lower_bound; [lia |]. unfold ONE. lia.
    + apply Z.div_le_lower_bound; [lia |]. unfold ONE. lia.
Qed.

Lemma X10_getWeightChangeRatio_symmetric_witness :
  ONE ≤ 3 * ONE.
Proof.
  apply (proj2 X10_getWeightChangeRatio_symmetric 1 3 (3 * ONE)).
  - lia.
  - lia.
  - vm_compute. reflexivity.
Defined.

(** X11.  For unsigned weights whose sum fits a uint256, [checkWeights]
    succeeds exactly when the weights sum to ONE, and fails with
    [SumOfWeightIsNotOne] otherwise. *)
Theorem X11_checkWeights_sum (weights : list Z) :
  Forall (λ w, 0 ≤ w) weights → sumZ weights ≤ MAX_UINT256 →
  (sumZ weights = ONE → checkWeights weights = Ok tt) ∧
  (sumZ weights ≠ ONE →
   checkWeights weights = Err Mammon__SumOfWeightIsNotOne).
Proof.
  intros Hpos Hmax. unfold checkWeights.
  destruct (for_from_total
              (λ i acc, acc = sumZ (take i weights))
              (λ i weightSum, w ← get weights i; add weightSum w)
              (length weights) 0 0) as (acc & Hrun & Hacc).
  { reflexivity. }
  { intros i t Hi ->.
    destruct (lookup_lt_is_Some_2 weights i) as [w Hw]; [lia |].
    exists (sumZ (take i weights) + w).
    assert (Hstep : sumZ (take (S i) weights) = sumZ (take i weights) + w).
    { rewrite (take_S_r weights i w Hw), sumZ_app. cbn. lia. }
    split; [ | by rewrite Hstep].
    apply get_Ok in Hw. rewrite Hw. cbn. apply add_Ok. split; [reflexivity |].
    rewrite <- Hstep. pose proof (sumZ_take_le weights (S i) Hpos). lia. }
  unfold for_loop. rewrite Hrun. cbn.
  rewrite Nat.add_0_l, firstn_all in Hacc. subst acc.
  split; intros H.
  - apply Z.eqb_eq in H. by rewrite H.
  - apply Z.eqb_neq in H. by rewrite H.
Qed.

Lemma X11_checkWeights_sum_witness :
  checkWeights [ONE / 2; ONE / 2] = Ok tt ∧
  checkWeights [ONE / 2; ONE / 4] = Err Mammon__SumOfWeightIsNotOne.
Proof.
  split.
  - apply (proj1 (X11_checkWeights_sum [ONE / 2; ONE / 2]
                    ltac:(repeat constructor; vm_compute; discriminate)
                    ltac:(vm_compute; discriminate))).
    vm_compute. reflexivity.
  - apply (proj2 (X11_checkWeights_sum [ONE / 2; ONE / 4]
                    ltac:(repeat constructor; vm_compute; discriminate)
                    ltac:(vm_compute; discriminate))).
    vm_compute. discriminate.
Defined.

(** X12.  [setGuardian], called by the owner outside a call of the vault,
    fails with [GuardianIsZeroAddress] for the zero address and with
    [GuardianIsOwner] for the owner; when it succeeds, the caller is the
    owner, the new guardian is neither the zero address nor the owner, the
    guardian is the new one, the owner is unchanged and the change is the
    last event. *)
Theorem X12_setGuardian (c : Config) (x : Ctx) (s : State) :
  (reentrancyEntered s = false → msg_sender x = owner s →
   setGuardian c x 0%N s = Err Mammon__GuardianIsZeroAddress) ∧
  (reentrancyEntered s = false → msg_sender x = owner s → owner s ≠ 0%N →
   setGuardian c x (owner s) s = Err (Mammon__GuardianIsOwner (owner s))) ∧
  (∀ newGuardian s',
     setGuardian c x newGuardian s = Ok s' →
     msg_sender x = owner s ∧ newGuardian ≠ 0%N ∧ newGuardian ≠ owner s ∧
     guardian s' = newGuardian ∧ owner s' = owner s ∧
     head (events s') = Some (EvGuardianChanged (guardian s) newGuardian)).
Proof.
  split; [ | split].
  - intros Hre Hown. unfold setGuardian, nonReentrant, onlyOwner.
    rewrite Hre, bool_decide_eq_true_2 by done. reflexivity.
  - intros Hre Hown Hnz. unfold setGuardian, nonReentrant, onlyOwner.
    rewrite Hre, bool_decide_eq_true_2 by done. cbn.
    unfold checkGuardianAddress.
    rewrite (bool_decide_eq_false_2 (owner s = 0%N)) by done. cbn.
    by rewrite bool_decide_eq_true_2.
  - intros newGuardian s' H. unfold setGuardian in H.
    apply bind_Ok in H as ([] & _ & H).
    apply bind_Ok in H as ([] & Hown & H).
    apply require_Ok, bool_decide_eq_true in Hown.
    apply bind_Ok in H as ([] & Hchk & H).
    unfold checkGuardianAddress in Hchk.
    apply bind_Ok in Hchk as ([] & Hz & Hno).
    apply require_Ok, negb_true_iff, bool_decide_eq_false in Hz.
    apply require_Ok, negb_true_iff, bool_decide_eq_false in Hno.
    apply bind_Ok in H as (s1 & Hlock & H).
    assert (Hsetup : setup s1 = setup s).
    { destruct (initialized s && negb (finalized s)).
      - by eapply lockGuardianFees_setup.
      - by injection Hlock as <-. }
    injection H as <-.
    split; [done | split; [done | split; [done |]]].
    split; [reflexivity |].
    destruct (length (ledger s1 newGuardian) =? 0)%nat; cbn;
      rewrite (setup_owner s s1 Hsetup), (setup_guardian s s1 Hsetup); done.
Qed.

Lemma X12_setGuardian_witness :
  setGuardian (ex_config 0) ex_owner_call 0%N ex_state
  = Err Mammon__GuardianIsZeroAddress ∧
  setGuardian (ex_config 0) ex_owner_call 1%N ex_state
  = Err (Mammon__GuardianIsOwner 1%N).
Proof.
  split.
  - by apply (proj1 (X12_setGuardian (ex_config 0) ex_owner_call ex_state)).
  - by apply (proj1 (proj2 (X12_setGuardian (ex_config 0) ex_owner_call
                              ex_state))).
Defined.

(** X13.  [getSpotPrices] returns one price per pool token, and the price
    of the numeraire is ONE whatever the balances and the weights. *)
Theorem X13_getSpotPrices_numeraire (c : Config) (x : Ctx) (s : State)
    (poolHoldings spotPrices : list Z) :
  getSpotPrices c x s poolHoldings = Ok spotPrices →
  length spotPrices = numPoolTokens c ∧
  ((numeraireAssetIndex c < numPoolTokens c)%nat →
   spotPrices !! numeraireAssetIndex c = Some ONE).
Proof.
  unfold getSpotPrices. intros H.
  apply bind_Ok in H as (nh & _ & H). apply bind_Ok in H as (nw & _ & H).
  apply tabulate_Ok in H as [Hlen Hall]. split; [exact Hlen |].
  intros Hn. destruct (Hall _ Hn) as (v & Hv & Hl).
  rewrite decide_True in Hv by reflexivity. by injection Hv as <-.
Qed.

Lemma X13_getSpotPrices_numeraire_witness :
  ∃ p, getSpotPrices (ex_config 0) ex_owner_call ex_state
         [100 * ONE; 100 * ONE] = Ok p ∧
       p !! 0%nat = Some ONE.
Proof.
  assert (Hrun : ∃ p, getSpotPrices (ex_config 0) ex_owner_call ex_state
                        [100 * ONE; 100 * ONE] = Ok p).
  { eexists. vm_compute. reflexivity. }
  destruct Hrun as (p & Hrun). exists p. split; [exact Hrun |].
  apply (X13_getSpotPrices_numeraire (ex_config 0) ex_owner_call ex_state
           [100 * ONE; 100 * ONE] p Hrun).
  vm_compute. lia.
Defined.

(** X14.  [getOraclePrices] returns one price and one timestamp per oracle
    slot: the price of the numeraire is ONE, and for every other slot the
    feed answered a positive price and the timestamp is the feed's. *)
Theorem X14_getOraclePrices_reading (c : Config) (s : State)
    (prices updatedAt : list Z) :
  getOraclePrices c s = Ok (prices, updatedAt) →
  length prices = numOracles c ∧ length updatedAt = numOracles c ∧
  (prices !! numeraireAssetIndex c = Some ONE
   ∨ (numOracles c ≤ numeraireAssetIndex c)%nat) ∧
  ∀ i, (i < numOracles c)%nat → i ≠ numeraireAssetIndex c →
       ∃ answer u, oracleFeeds s !! i = Some (answer, u) ∧ 0 < answer ∧
                   updatedAt !! i = Some u.
Proof. apply getOraclePrices_Ok. Qed.

Lemma X14_getOraclePrices_reading_witness :
  length [ONE; ONE] = numOracles (ex_config 0) ∧
  length [0; 1400] = numOracles (ex_config 0).
Proof.
  destruct (X14_getOraclePrices_reading (ex_config 0) ex_state [ONE; ONE]
              [0; 1400]) as (H1 & H2 & _).
  - vm_compute. reflexivity.
  - split; [exact H1 | exact H2].
Defined.

(** X15.  When [checkWithdrawAmount] passes, no pool token and no directly
    withdrawable yield token is asked for more than the vault holds of
    it. *)
Theorem X15_checkWithdrawAmount_bounds (c : Config) (s : State)
    (poolTokens yieldTokens : list address) (isWithdrawable : list bool)
    (holdings amounts : list Z) :
  checkWithdrawAmount c s poolTokens yieldTokens isWithdrawable holdings
    amounts = Ok tt →
  (∀ i, (i < numPoolTokens c)%nat →
        ∃ a h, amounts !! i = Some a ∧ holdings !! i = Some h ∧ a ≤ h) ∧
  (∀ i, (i < numYieldTokens c)%nat → isWithdrawable !! i = Some true →
        ∃ a h, amounts !! (numPoolTokens c + i)%nat = Some a ∧
               holdings !! (numPoolTokens c + i)%nat = Some h ∧ a ≤ h).
Proof.
  unfold checkWithdrawAmount. intros H.
  apply bind_Ok in H as ([] & Hpool & Hyield). split.
  - intros i Hi.
    pose proof (for_from_unit_Ok _ _ _ Hpool i ltac:(lia)) as Hb.
    cbv beta in Hb.
    apply bind_Ok in Hb as (a & Ha & Hb). apply get_Ok in Ha.
    apply bind_Ok in Hb as (h & Hh & Hb). apply get_Ok in Hh.
    exists a, h. split; [done | split; [done |]].
    destruct (Z.ltb_spec h a) as [Hlt|Hge]; [ | lia].
    by apply bind_Ok in Hb as (? & _ & Hb).
  - intros i Hi Hwd.
    pose proof (for_from_unit_Ok _ _ _ Hyield i ltac:(lia)) as Hb.
    cbv beta in Hb.
    apply bind_Ok in Hb as (wd & Hwd' & Hb). apply get_Ok in Hwd'.
    rewrite Hwd in Hwd'. injection Hwd' as <-.
    apply bind_Ok in Hb as (h & Hh & Hb). apply get_Ok in Hh.
    apply bind_Ok in Hb as (a & Ha & Hb). apply get_Ok in Ha.
    exists a, h. split; [done | split; [done |]].
    destruct (Z.ltb_spec h a) as [Hlt|Hge]; [ | lia].
    by apply bind_Ok in Hb as (? & _ & Hb).
Qed.

Lemma X15_checkWithdrawAmount_bounds_witness :
  ∃ a h, [1; 2; 3; 4] !! 1%nat = Some a ∧
         [100 * ONE; 100 * ONE; 10 * ONE; 10 * ONE] !! 1%nat = Some h ∧
         a ≤ h.
Proof.
  apply (proj1 (X15_checkWithdrawAmount_bounds (ex_config 0) ex_state
                  [11%N; 12%N] [21%N; 22%N] [true; false]
                  [100 * ONE; 100 * ONE; 10 * ONE; 10 * ONE] [1; 2; 3; 4]
                  ltac:(vm_compute; reflexivity)) 1%nat).
  vm_compute. lia.
Defined.

(** X16.  [getPoolTokenValues] returns the first [numPoolTokens] values. *)
Theorem X16_getPoolTokenValues_prefix (c : Config) (values poolValues : list Z) :
  getPoolTokenValues c values = Ok poolValues →
  poolValues = take (numPoolTokens c) values.
Proof.
  unfold getPoolTokenValues. intros H.
  apply tabulate_Ok in H as [Hlen Hall].
  apply list_eq. intros i.
  destruct (decide (i < numPoolTokens c)%nat) as [Hi|Hi].
  - destruct (Hall i Hi) as (v & Hv & Hl). apply get_Ok in Hv.
    by rewrite Hl, lookup_take_lt.
  - rewrite (proj2 (lookup_ge_None poolValues i)) by lia.
    by rewrite lookup_take_ge by lia.
Qed.

Lemma X16_getPoolTokenValues_prefix_witness :
  [1; 2] = take (numPoolTokens (ex_config 0)) [1; 2; 3; 4].
Proof.
  apply (X16_getPoolTokenValues_prefix (ex_config 0) [1; 2; 3; 4] [1; 2]).
  vm_compute. reflexivity.
Defined.

Lemma returnFunds_setup (c : Config) (s s' : State) (amounts : list Z) :
  returnFunds c s = Ok (s', amounts) → setup s' = setup s.
Proof.
  unfold returnFunds. intros H.
  apply bind_Ok in H as (tokens & _ & H).
  apply bind_Ok in H as (poolHoldings & _ & H).
  apply bind_Ok in H as (s1 & H1 & H).
  apply withdrawFromPool_setup in H1.
  apply (for_loop_inv (λ (i : nat) '(t, _), setup t = setup s1)) in H.
  - congruence.
  - reflexivity.
  - intros i [t a] [t' a'] Hi Ht Hb.
    apply bind_Ok in Hb as (token & _ & Hb).
    apply bind_Ok in Hb as (fee & _ & Hb).
    apply bind_Ok in Hb as (amount & _ & Hb).
    apply bind_Ok in Hb as (t1 & Htr & Hb).
    apply bind_Ok in Hb as (a1 & _ & Hb). injection Hb as <- <-.
    apply erc20_transfer_setup in Htr. congruence.
Qed.

(** X17.  [finalize] is terminal: it succeeds only for the owner on an
    initialized vault that is not finalized, it leaves the vault finalized
    with the same owner, and afterwards the owner's [deposit], [withdraw]
    and [finalize] all fail with [VaultIsFinalized]. *)
Theorem X17_finalize_terminal (c : Config) (x : Ctx) (s s' : State) :
  finalize c x s = Ok s' →
  msg_sender x = owner s ∧ initialized s = true ∧ finalized s = false ∧
  finalized s' = true ∧ owner s' = owner s ∧
  (∀ tokenWithAmount,
     deposit c x tokenWithAmount s' = Err Mammon__VaultIsFinalized ∧
     withdraw c x tokenWithAmount s' = Err Mammon__VaultIsFinalized) ∧
  finalize c x s' = Err Mammon__VaultIsFinalized.
Proof.
  unfold finalize at 1. intros H.
  apply bind_Ok in H as ([] & Hre & H).
  apply require_Ok, negb_true_iff in Hre.
  apply bind_Ok in H as ([] & Hown & H).
  apply require_Ok, bool_decide_eq_true in Hown.
  apply bind_Ok in H as ([] & Hini & H). apply require_Ok in Hini.
  apply bind_Ok in H as ([] & Hfin & H).
  apply require_Ok, negb_true_iff in Hfin.
  apply bind_Ok in H as (s1 & Hlock & H).
  apply lockGuardianFees_setup in Hlock.
  apply bind_Ok in H as ([s2 amounts] & Hret & H).
  apply returnFunds_setup in Hret. injection H as <-.
  assert (Hs : setup s2 = setup (set_finalized true s)).
  { rewrite Hret. exact Hlock. }
  unfold setup in Hs. cbn in Hs.
  assert (Hfin' : finalized s2 = true) by congruence.
  assert (Hini' : initialized s2 = true) by congruence.
  assert (Hown' : owner s2 = owner s) by congruence.
  assert (Hre' : reentrancyEntered s2 = false) by congruence.
  split; [done | split; [done | split; [done |]]].
  split; [exact Hfin' | split; [exact Hown' |]].
  split; [intros tokenWithAmount; split |].
  - unfold deposit, nonReentrant, onlyOwner, whenInitialized,
      whenNotFinalized. cbn.
    rewrite Hre', Hown', Hini', Hfin'.
    by rewrite bool_decide_eq_true_2.
  - unfold withdraw, nonReentrant, onlyOwner, whenInitialized,
      whenNotFinalized. cbn.
    rewrite Hre', Hown', Hini', Hfin'.
    by rewrite bool_decide_eq_true_2.
  - unfold finalize, nonReentrant, onlyOwner, whenInitialized,
      whenNotFinalized. cbn.
    rewrite Hre', Hown', Hini', Hfin'.
    by rewrite bool_decide_eq_true_2.
Qed.

Lemma X17_finalize_terminal_witness :
  ∃ s', finalize (ex_config 0) ex_owner_call ex_state = Ok s' ∧
        finalized s' = true ∧
        finalize (ex_config 0) ex_owner_call s'
        = Err Mammon__VaultIsFinalized.
Proof.
  assert (Hrun : ∃ s', finalize (ex_config 0) ex_owner_call ex_state = Ok s').
  { eexists. vm_compute. reflexivity. }
  destruct Hrun as (s' & Hrun).
  destruct (X17_finalize_terminal (ex_config 0) ex_owner_call ex_state s'
              Hrun) as (_ & _ & _ & Hfin & _ & _ & Hagain).
  exists s'. split; [exact Hrun | split; [exact Hfin | exact Hagain]].
Defined.

(** X18.  A deposit in which no fee accrues, in a deployment with pairwise
    distinct tokens whose owner is not the vault, adds the amount of every
    pool token to the cash balance of its slot, leaves nothing under
    management, adds the amount of every yield token to the vault's balance
    of it, and leaves the fee books and the setup alone. *)
Theorem X18_deposit_effect (c : Config) (x : Ctx)
    (tokenWithAmount : list TokenValue) (s s' : State) :
  deposit c x tokenWithAmount s = Ok s'
  ∨ depositRiskingArbitrage c x tokenWithAmount s = Ok s' →
  feesSettled c x s → distinctTokens c s → owner s ≠ this c →
  Forall (λ tv, 0 ≤ tv_value tv) tokenWithAmount →
  books s' = books s ∧
  (∀ i, (i < numPoolTokens c)%nat →
        ∃ tv cash managed,
          tokenWithAmount !! i = Some tv ∧
          bv_balances s !! (i + 1)%nat = Some (cash, managed) ∧
          bv_balances s' !! (i + 1)%nat = Some (cash + tv_value tv, 0)) ∧
  (∀ i y, getYieldTokens c !! i = Some y →
          ∃ tv, tokenWithAmount !! (numPoolTokens c + i)%nat = Some tv ∧
                balanceOf s' y (this c)
                = balanceOf s y (this c) + tv_value tv).
Proof.
  intros [H|H].
  - apply deposit_Ok_inner in H.
    by apply (depositTokensAndUpdateWeights_Ok c x tokenWithAmount DETERMINED).
  - apply depositRiskingArbitrage_Ok_inner in H.
    by apply (depositTokensAndUpdateWeights_Ok c x tokenWithAmount SPOT).
Qed.

Lemma X18_deposit_effect_witness :
  ∃ s', deposit (ex_config 0) ex_owner_call (ex_values ONE ONE ONE ONE)
          ex_state = Ok s' ∧
        books s' = books ex_state.
Proof.
  assert (Hrun : ∃ s', deposit (ex_config 0) ex_owner_call
                         (ex_values ONE ONE ONE ONE) ex_state = Ok s').
  { eexists. vm_compute. reflexivity. }
  destruct Hrun as (s' & Hrun). exists s'. split; [exact Hrun |].
  apply (X18_deposit_effect (ex_config 0) ex_owner_call
           (ex_values ONE ONE ONE ONE) ex_state s' (or_introl Hrun)).
  - by left.
  - apply (bool_decide_unpack _). vm_compute. reflexivity.
  - discriminate.
  - repeat constructor; vm_compute; discriminate.
Defined.

(** X19.  A withdrawal in which no fee accrues, in a deployment with
    pairwise distinct tokens whose wrappers wrap pool tokens and whose owner
    is not the vault, takes the amount of every pool token out of the cash
    balance of its slot, leaves nothing under management, takes the amount
    of every directly withdrawable yield token out of the vault's balance of
    it, and leaves the fee books and the setup alone. *)
Theorem X19_withdraw_effect (c : Config) (x : Ctx)
    (tokenWithAmount : list TokenValue) (s s' : State) :
  withdraw c x tokenWithAmount s = Ok s' →
  feesSettled c x s → distinctTokens c s → wrappersOfPoolTokens c s →
  owner s ≠ this c →
  Forall (λ tv, 0 ≤ tv_value tv) tokenWithAmount →
  books s' = books s ∧
  (∀ i, (i < numPoolTokens c)%nat →
        ∃ tv cash managed,
          tokenWithAmount !! i = Some tv ∧
          bv_balances s !! (i + 1)%nat = Some (cash, managed) ∧
          bv_balances s' !! (i + 1)%nat = Some (cash - tv_value tv, 0)) ∧
  (∀ i yt, yieldTokenInfos c !! i = Some yt → yt_isWithdrawable yt = true →
           ∃ tv, tokenWithAmount !! (numPoolTokens c + i)%nat = Some tv ∧
                 balanceOf s' (yt_token yt) (this c)
                 = balanceOf s (yt_token yt) (this c) - tv_value tv).
Proof.
  intros H. apply withdraw_Ok_inner in H. by apply withdrawTokens_Ok.
Qed.

Lemma X19_withdraw_effect_witness :
  ∃ s', withdraw (ex_config 0) ex_owner_call (ex_values ONE ONE ONE ONE)
          ex_state = Ok s' ∧
        books s' = books ex_state.
Proof.
  assert (Hrun : ∃ s', withdraw (ex_config 0) ex_owner_call
                         (ex_values ONE ONE ONE ONE) ex_state = Ok s').
  { eexists. vm_compute. reflexivity. }
  destruct Hrun as (s' & Hrun). exists s'. split; [exact Hrun |].
  destruct (ex_roundTripSetting (ex_values ONE ONE ONE ONE))
    as (Hfee & _ & Hnd & Hwr & _ & Hown & Hpos).
  { repeat constructor; vm_compute; discriminate. }
  apply (X19_withdraw_effect (ex_config 0) ex_owner_call
           (ex_values ONE ONE ONE ONE) ex_state s' Hrun Hfee Hnd Hwr Hown
           Hpos).
Defined.
